(** * tesla_exporter: a shallow embedding of the exporter core

    The development follows [tesla_exporter.py]: the values [json.load] hands
    to the script, the Python operators the script applies to them (with the
    exceptions they raise), the flattener [f_iterate], the token refresh and
    the vehicle listing over an explicit world (token files, network replies,
    a log of effects), the main loop (reload, publish guard, interval
    selection, staleness check) and the [do_GET] handler; then the wake-up,
    the fetch of the vehicle data and the first half of a cycle over the same
    world, and the two PKCE helper scripts.

    How the model reads the script:
    - a Python [str] is held as the bytes of its UTF-8 form, a surrogate code
      point (which [json.loads] makes of an unpaired escape) as the three
      bytes the same scheme gives it; the locale's encoding, which text files
      are read and written in, is taken to be UTF-8, and the line separator
      to be the newline;
    - the interpreter's recursion limit is the number of nested calls of
      [f_iterate] it still allows, a parameter wherever the walk is started;
    - the handler of the web server runs beside the loop: it is given the
      globals as each of its reads finds them.

    What the model leaves out:
    - [print] only writes to standard output, which is taken to accept
      every text; it appears where its formatting can raise (line 318) and
      nowhere else;
    - epoch times, which Python holds in floats, are exact rationals;
    - files fail where the script expects it ([open] in [f_get_token],
      [f_load_json] and [f_save_data], [os.stat]) and where a text cannot be
      encoded; a token file that opens holds text that decodes, and a read,
      a write or a rename that fails half way is not modelled;
    - the headers [http.server] adds by itself;
    - [f_wake_vehicle] and [f_get_vehicle_data] act on the network and the
      disk only; the loop sees their effect through the disk it reads;
    - a network reply is its parsed value: the text [f_get_vehicle_data]
      saves is a parameter;
    - the hash function of [code_challenge.py] is a parameter. *)

From Stdlib Require Import ZArith NArith QArith Lqa String Ascii List Lia Bool.
From Stdlib Require Import DecimalString.
From Stdlib.Strings Require Byte.
From stdpp Require Import gmap strings.
Import ListNotations.

Local Open Scope list_scope.
Local Open Scope string_scope.

#[local] Arguments String.append !_ _ / : simpl nomatch.

(** ** Python values coming out of [json.load] *)

(** A Python [float]: a finite binary value [(-1)^neg * m * 2^e] (every IEEE
    double is of this form), an infinity, or a NaN.  [json.load] produces the
    non-finite ones from [Infinity], [NaN] and from literals such as [1e999]. *)
Inductive pyfloat : Type :=
| FFinite (neg : bool) (m : N) (e : Z)
| FInf (neg : bool)
| FNan.

(** The tree [json.load] returns.  A [dict] keeps its keys in insertion order,
    so it is an association list (keys of a parsed object are distinct). *)
#[local] Unset Elimination Schemes.
Inductive json : Type :=
| JNull
| JBool (b : bool)
| JInt (z : Z)
| JFloat (x : pyfloat)
| JStr (s : string)
| JList (l : list json)
| JDict (kvs : list (string * json)).
#[local] Set Elimination Schemes.

(** Exceptions the modelled operators raise. *)
Inductive exn : Type :=
| TypeError | KeyError | IndexError | AttributeError | ValueError | OverflowError
| RecursionError | UnicodeEncodeError | UnicodeDecodeError | IncompleteRead.

Inductive result (A : Type) : Type :=
| Ok (a : A)
| Raise (e : exn).
Arguments Ok {A} a.
Arguments Raise {A} e.

Definition rbind {A B} (r : result A) (k : A -> result B) : result B :=
  match r with
  | Ok a => k a
  | Raise e => Raise e
  end.

Notation "'do' x <- r ; k" := (rbind r (fun x => k))
  (at level 10, x name, r at level 100, k at level 200).

(** Python's short-circuit [and] over conditions that may raise. *)
Definition rand (a : result bool) (b : result bool) : result bool :=
  do t <- a; if t then b else Ok false.

Notation "a 'and_then' b" := (rand a b) (at level 80, right associativity).

(** ** Strings *)

(** The double quote character, the space, and the newline. *)
Definition dquote : string := String (ascii_of_nat 34) EmptyString.
Definition space : ascii := ascii_of_nat 32.
Definition newline : string := String (ascii_of_nat 10) EmptyString.

(** The bytes [80]..[BF] continue a code point begun before them. *)
Definition is_continuation (c : ascii) : bool :=
  let n := nat_of_ascii c in ((128 <=? n) && (n <=? 191))%nat.

(** [len(s)]: the code points of [s] *)
Fixpoint py_strlen (s : string) : nat :=
  match s with
  | EmptyString => O
  | String c r => ((if is_continuation c then 0 else 1) + py_strlen r)%nat
  end.

(** The continuation bytes [s] starts with. *)
Fixpoint continuation_prefix (s : string) : string :=
  match s with
  | EmptyString => EmptyString
  | String c r => if is_continuation c then String c (continuation_prefix r) else EmptyString
  end.

(** Does [s] hold a surrogate code point (the byte [ED] before one of
    [A0]..[BF])?  [str.encode] and the [write] of a text file raise
    [UnicodeEncodeError] on one, and on nothing else. *)
Fixpoint has_surrogate (s : string) : bool :=
  match s with
  | EmptyString => false
  | String c r =>
      (Ascii.eqb c (ascii_of_nat 237) &&
       match r with
       | String d _ => (160 <=? nat_of_ascii d)%nat && (nat_of_ascii d <=? 191)%nat
       | EmptyString => false
       end)
      || has_surrogate r
  end.

(** What a file opened in text mode hands to [read]: a carriage return, alone
    or before a newline, has become the newline. *)
Fixpoint universal_newlines (s : string) : string :=
  match s with
  | EmptyString => EmptyString
  | String c r =>
      if Ascii.eqb c (ascii_of_nat 13) then
        match r with
        | String d r' =>
            if Ascii.eqb d (ascii_of_nat 10)
            then String (ascii_of_nat 10) (universal_newlines r')
            else String (ascii_of_nat 10) (universal_newlines r)
        | EmptyString => String (ascii_of_nat 10) EmptyString
        end
      else String c (universal_newlines r)
  end.

(** [s.lstrip(" ")] *)
Fixpoint lstrip_space (s : string) : string :=
  match s with
  | EmptyString => EmptyString
  | String c r => if Ascii.eqb c space then lstrip_space r else s
  end.

(** [s.rstrip(" ")] *)
Fixpoint rstrip_space (s : string) : string :=
  match s with
  | EmptyString => EmptyString
  | String c r =>
      match rstrip_space r with
      | EmptyString => if Ascii.eqb c space then EmptyString else String c EmptyString
      | r' => String c r'
      end
  end.

(** [s.rstrip("\n")] *)
Fixpoint rstrip_newline (s : string) : string :=
  match s with
  | EmptyString => EmptyString
  | String c r =>
      match rstrip_newline r with
      | EmptyString =>
          if Ascii.eqb c (ascii_of_nat 10) then EmptyString else String c EmptyString
      | r' => String c r'
      end
  end.

(** [s.replace(c, empty)] for a one-character [c] *)
Fixpoint remove_char (c : ascii) (s : string) : string :=
  match s with
  | EmptyString => EmptyString
  | String d r => if Ascii.eqb d c then remove_char c r else String d (remove_char c r)
  end.

(** [s.replace(c, d)] for one-character [c] and [d] *)
Fixpoint replace_char (c d : ascii) (s : string) : string :=
  match s with
  | EmptyString => EmptyString
  | String x r => String (if Ascii.eqb x c then d else x) (replace_char c d r)
  end.

(** [sub in s] on two strings: substring test. *)
Fixpoint contains (sub s : string) : bool :=
  if String.prefix sub s then true
  else match s with
       | EmptyString => false
       | String _ r => contains sub r
       end.

(** ** Number formatting *)

(** ["%d" % z] *)
Definition pct_d (z : Z) : string := NilZero.string_of_int (Z.to_int z).

Definition digit_char (d : N) : ascii := ascii_of_N (48 + d).

(** The six digits of [r < 10^6], zero padded. *)
Definition digits6 (r : N) : string :=
  String (digit_char (r / 100000 mod 10))
 (String (digit_char (r / 10000 mod 10))
 (String (digit_char (r / 1000 mod 10))
 (String (digit_char (r / 100 mod 10))
 (String (digit_char (r / 10 mod 10))
 (String (digit_char (r mod 10)) EmptyString))))).

(** Nearest integer to [num/den], ties to even: the rounding of ["%f"]. *)
Definition round_half_even (num den : N) : N :=
  let q := (num / den)%N in
  let r := (num mod den)%N in
  if (2 * r <? den)%N then q
  else if (den <? 2 * r)%N then (q + 1)%N
  else if N.even q then q else (q + 1)%N.

(** [|x| * 10^6] rounded to an integer, for [|x| = m * 2^e]. *)
Definition scaled6 (m : N) (e : Z) : N :=
  match e with
  | Z0 => (m * 1000000)%N
  | Zpos p => (m * 2 ^ Npos p * 1000000)%N
  | Zneg p => round_half_even (m * 1000000) (2 ^ Npos p)
  end.

(** The fixed-point text of a finite float: sign, integer part, a dot and six
    decimals. *)
Definition fixed6 (neg : bool) (m : N) (e : Z) : string :=
  let n := scaled6 m e in
  (if neg then "-" else EmptyString)
    ++ pct_d (Z.of_N (n / 1000000)) ++ "." ++ digits6 (n mod 1000000).

(** ["%f" % x] *)
Definition pct_f (x : pyfloat) : string :=
  match x with
  | FFinite neg m e => fixed6 neg m e
  | FInf neg => if neg then "-inf" else "inf"
  | FNan => "nan"
  end.

(** ** Python operators on parsed JSON *)

Fixpoint dict_get {V : Type} (k : string) (kvs : list (string * V)) : option V :=
  match kvs with
  | [] => None
  | (k', v) :: rest => if String.eqb k' k then Some v else dict_get k rest
  end.

Definition dict_has {V : Type} (k : string) (kvs : list (string * V)) : bool :=
  match dict_get k kvs with Some _ => true | None => false end.

(** [d[k] = v] on an insertion ordered dict: an existing key keeps its place. *)
Fixpoint dict_set {V : Type} (k : string) (v : V) (kvs : list (string * V))
  : list (string * V) :=
  match kvs with
  | [] => [(k, v)]
  | (k', v') :: rest =>
      if String.eqb k' k then (k', v) :: rest else (k', v') :: dict_set k v rest
  end.

Definition is_str (s : string) (v : json) : bool :=
  match v with
  | JStr s' => String.eqb s' s
  | _ => false
  end.

(** [v is None] *)
Definition is_none (v : json) : bool :=
  match v with JNull => true | _ => false end.

(** [k in v] for a string [k] *)
Definition py_in (k : string) (v : json) : result bool :=
  match v with
  | JDict kvs => Ok (dict_has k kvs)
  | JList l => Ok (existsb (is_str k) l)
  | JStr s => Ok (contains k s)
  | JNull | JBool _ | JInt _ | JFloat _ => Raise TypeError
  end.

(** [v[k]] for a string [k] *)
Definition py_item (v : json) (k : string) : result json :=
  match v with
  | JDict kvs =>
      match dict_get k kvs with
      | Some x => Ok x
      | None => Raise KeyError
      end
  | _ => Raise TypeError
  end.

(** [v[0]] *)
Definition py_item0 (v : json) : result json :=
  match v with
  | JDict _ => Raise KeyError
  | JList l =>
      match l with
      | x :: _ => Ok x
      | [] => Raise IndexError
      end
  | JStr s =>
      match s with
      | String c r => Ok (JStr (String c (continuation_prefix r)))
      | EmptyString => Raise IndexError
      end
  | JNull | JBool _ | JInt _ | JFloat _ => Raise TypeError
  end.

(** [len(v)] *)
Definition py_len (v : json) : result nat :=
  match v with
  | JDict kvs => Ok (List.length kvs)
  | JList l => Ok (List.length l)
  | JStr s => Ok (py_strlen s)
  | JNull | JBool _ | JInt _ | JFloat _ => Raise TypeError
  end.

(** [x == 1] for a float [x] *)
Definition float_is_one (x : pyfloat) : bool :=
  match x with
  | FFinite false m e =>
      match e with
      | Z0 => (m =? 1)%N
      | Zpos p => (m * 2 ^ Npos p =? 1)%N
      | Zneg p => (m =? 2 ^ Npos p)%N
      end
  | _ => false
  end.

(** [v == 1] *)
Definition py_eq_one (v : json) : bool :=
  match v with
  | JInt z => (z =? 1)%Z
  | JBool b => b
  | JFloat x => float_is_one x
  | _ => false
  end.

(** Does ["%d" % v] succeed?  It needs a number; a NaN raises [ValueError] and
    an infinity [OverflowError]. *)
Definition pct_d_check (v : json) : result unit :=
  match v with
  | JInt _ | JBool _ => Ok tt
  | JFloat (FFinite _ _ _) => Ok tt
  | JFloat FNan => Raise ValueError
  | JFloat (FInf _) => Raise OverflowError
  | _ => Raise TypeError
  end.

(** ** The flattener, [f_iterate] *)

(** A value stored in [G_metrics_new]: the script stores strings, except for
    booleans, where it stores the integers [0] and [1]. *)
Inductive mval : Type :=
| MStr (s : string)
| MInt (z : Z).

Definition metrics : Type := list (string * mval).

(** ["%s" % v] for a stored value *)
Definition mval_text (v : mval) : string :=
  match v with
  | MStr s => s
  | MInt z => pct_d z
  end.

Definition cfg_metrics_prefix : string := "tesla".

(** [field_name], lines 132-135 *)
Definition field_name (prefix f : string) : string :=
  if String.eqb prefix EmptyString then f else prefix ++ "_" ++ f.

(** The two [replace] lines, 161-162 *)
Definition sanitize (s : string) : string :=
  replace_char " " "_" (replace_char "," "_" (remove_char ">" (remove_char "<" s))).

(** Lines 143-164: [value] and [label] for a field that is not a dict.  The
    four [type(...) is ...] tests are exclusive, so they read as one match. *)
Definition leaf_value (v : json) : option mval * option string :=
  match v with
  | JFloat x => (Some (MStr (pct_f x)), None)
  | JInt z => (Some (MStr (pct_d z)), None)
  | JBool b => (Some (MInt (if b then 1 else 0)), None)
  | JStr str =>
      let s := rstrip_space (lstrip_space str) in
      if (0 <? String.length s)%nat
      then (Some (MStr "1"), Some ("value=" ++ dquote ++ sanitize s ++ dquote))
      else (None, None)
  | _ => (None, None)
  end.

(** Lines 165-169: the entry stored for a leaf, if any. *)
Definition leaf_entry (name : string) (v : json) : option (string * mval) :=
  match leaf_value v with
  | (Some value, label) =>
      let m := match label with
               | Some l => name ++ "{" ++ l ++ "}"
               | None => name
               end in
      Some (m, value)
  | (None, _) => None
  end.

Definition store_leaf (name : string) (v : json) (G : metrics) : metrics :=
  match leaf_entry name v with
  | Some (m, value) => dict_set m value G
  | None => G
  end.

(** How a walk over the tree ends: it has filled [G_metrics_new] and
    returns, or an exception stops it, the dict holding what was written up
    to then. *)
Inductive walk : Type :=
| Filled (G : metrics)
| Broke (e : exn) (G : metrics).

Definition and_on (r : walk) (k : metrics -> walk) : walk :=
  match r with
  | Filled G => k G
  | Broke e G => Broke e G
  end.

(** [f_iterate(obj, prefix)], threading [G_metrics_new].  Every call takes one
    of the [depth] frames the interpreter still allows, and with none left the
    call raises [RecursionError]; [obj.keys()] raises on anything that is not
    a dict. *)
Fixpoint f_iterate (depth : nat) (obj : json) (prefix : string) (G : metrics)
         {struct obj} : walk :=
  match depth with
  | O => Broke RecursionError G
  | S depth' =>
      match obj with
      | JDict kvs =>
          (fix fields (l : list (string * json)) (G : metrics) {struct l} : walk :=
             match l with
             | [] => Filled G
             | (f, v) :: rest =>
                 match v with
                 | JDict _ =>
                     and_on (f_iterate depth' v (field_name prefix f) G) (fields rest)
                 | _ => fields rest (store_leaf (field_name prefix f) v G)
                 end
             end) kvs G
      | _ => Broke AttributeError G
      end
  end.

(** ** Configuration (lines 73-96) *)

Definition cfg_stale_thres : Z := 90.
Definition cfg_check_interval : Z := 50.
Definition cfg_drive_interval : Z := 25.
Definition cfg_api_retries : nat := 3.
Definition cfg_retry_sleep : Z := 5.
Definition cfg_tesla_owner_url : string := "https://owner-api.teslamotors.com".
Definition cfg_tesla_auth_url : string := "https://auth.tesla.com".
Definition cfg_access_token_file : string := "/data/token.access".
Definition cfg_refresh_token_file : string := "/data/token.refresh".
Definition cfg_vehicle_data_file : string := "/data/vehicle.data".

Definition token_url : string := cfg_tesla_auth_url ++ "/oauth2/v3/token".
Definition vehicles_url : string := cfg_tesla_owner_url ++ "/api/1/vehicles".

(** ** The world of the API routines *)

(** What [urllib.request.urlopen] does with one request: it raises (transport
    failure, or a status that is not 2xx, which [urlopen] turns into an
    [HTTPError]); or it returns a response whose body cannot be read to its
    end ([resp.read()] raises, outside any [try]); or it returns a response
    whose body [json.loads] turns into a value, or fails to ([None]). *)
Inductive reply : Type :=
| NetFail
| NetCut
| NetBody (parsed : option json).

Inductive http_method : Type := GET | POST.

(** The visible effects, most recent first in the log.  An [EvRequest] records
    whether [urlopen] returned. *)
Inductive event : Type :=
| EvRequest (m : http_method) (url : string) (returned : bool)
| EvSleep (secs : Z)
| EvSave (file : string).

(** The text of the token and data files that can be opened, by name; the
    names whose side file [name.new] cannot be opened for writing; the
    replies the network will give to the next requests (none left: the
    request fails); and the log. *)
Record World : Type := mkWorld {
  w_files : gmap string string;
  w_locked : gset string;
  w_net : list reply;
  w_log : list event
}.

(** A routine ends by returning, by letting an exception escape, or in
    [os._exit(1)]. *)
Inductive outcome (A : Type) : Type :=
| Done (a : A) (w : World)
| Raised (e : exn) (w : World)
| Exited (w : World).
Arguments Done {A} a w.
Arguments Raised {A} e w.
Arguments Exited {A} w.

Definition io (A : Type) : Type := World -> outcome A.

Definition ret {A} (a : A) : io A := fun w => Done a w.

Definition bind {A B} (c : io A) (k : A -> io B) : io B :=
  fun w =>
    match c w with
    | Done a w' => k a w'
    | Raised e w' => Raised e w'
    | Exited w' => Exited w'
    end.

Notation "'run' x <- c ; k" := (bind c (fun x => k))
  (at level 10, x name, c at level 100, k at level 200).

Definition lift {A} (r : result A) : io A :=
  fun w => match r with Ok a => Done a w | Raise e => Raised e w end.

Definition world_of {A} (o : outcome A) : World :=
  match o with
  | Done _ w | Raised _ w | Exited w => w
  end.

Definition log_event (e : event) (w : World) : World :=
  mkWorld (w_files w) (w_locked w) (w_net w) (e :: w_log w).

(** [urlopen] inside its [try], then [resp.read()] and [json.loads] inside
    its own: [None] stands for [resp = None]; a body that does not parse
    leaves [obj = None], which is also what the JSON text [null] parses to; a
    body that cannot be read lets the exception of [read] escape. *)
Definition urlopen (m : http_method) (url : string) : io (option json) :=
  fun w =>
    match w_net w with
    | NetBody parsed :: rest =>
        Done (Some (default JNull parsed))
             (mkWorld (w_files w) (w_locked w) rest (EvRequest m url true :: w_log w))
    | NetCut :: rest =>
        Raised IncompleteRead
               (mkWorld (w_files w) (w_locked w) rest (EvRequest m url true :: w_log w))
    | NetFail :: rest =>
        Done None (mkWorld (w_files w) (w_locked w) rest (EvRequest m url false :: w_log w))
    | [] => Done None (log_event (EvRequest m url false) w)
    end.

Definition sleep (secs : Z) : io unit :=
  fun w => Done tt (log_event (EvSleep secs) w).

(** [f_get_token], lines 186-195: the file is read in text mode, which turns
    every line end into a newline.  A file that opens holds text that
    decodes, as the files do that [f_save_data] has written. *)
Definition f_get_token (filename : string) : io (option string) :=
  fun w =>
    match w_files w !! filename with
    | None => Done None w
    | Some text => Done (Some (rstrip_newline (universal_newlines text))) w
    end.

(** [f_save_data], lines 200-211: the process exits when the side file cannot
    be opened; [fd.write] raises on a text that cannot be encoded, the file
    itself being as it was; otherwise the file is replaced by [data] and a
    newline. *)
Definition f_save_data (filename data : string) : io unit :=
  fun w =>
    if decide (filename ∈ w_locked w) then Exited w
    else if has_surrogate data then Raised UnicodeEncodeError w
    else Done tt (mkWorld (<[filename := data ++ newline]> (w_files w))
                          (w_locked w) (w_net w) (EvSave filename :: w_log w)).

(** The vehicle record [x] of lines 315-317. *)
Record vehicle : Type := mkVehicle { v_id : json; v_state : json }.

(** Lines 306-319 of [f_get_vehicle_id]: the test on the parsed response, the
    record, and the [print] whose ["%d"] must accept the id. *)
Definition vehicle_of_response (obj : json) : result (option vehicle) :=
  do ok <-
    (Ok (negb (is_none obj))) and_then
    (py_in "count" obj) and_then
    (do c <- py_item obj "count"; Ok (py_eq_one c)) and_then
    (py_in "response" obj) and_then
    (do r <- py_item obj "response"; Ok (negb (is_none r))) and_then
    (do r <- py_item obj "response"; do n <- py_len r; Ok (Nat.eqb n 1)) and_then
    (do r <- py_item obj "response"; do r0 <- py_item0 r; py_in "id" r0) and_then
    (do r <- py_item obj "response"; do r0 <- py_item0 r; py_in "state" r0) and_then
    (do r <- py_item obj "response"; do r0 <- py_item0 r;
     do st <- py_item r0 "state"; Ok (negb (is_none st)));
  if ok then
    do r <- py_item obj "response";
    do r0 <- py_item0 r;
    do id <- py_item r0 "id";
    do st <- py_item r0 "state";
    do _ <- pct_d_check id;
    Ok (Some (mkVehicle id st))
  else Ok None.

Section Api.

(** [str(v)] of a parsed value that is not a string (the text Python prints
    for numbers, lists and dicts) is left as a parameter. *)
Variable py_repr : json -> string.

(** ["%s" % v] *)
Definition pct_s (v : json) : string :=
  match v with
  | JStr s => s
  | _ => py_repr v
  end.

(** [f_update_access_token], lines 224-257 *)
Definition f_update_access_token : io unit :=
  run _refresh <- f_get_token cfg_refresh_token_file;
  run resp <- urlopen POST token_url;
  match resp with
  | None => ret tt
  | Some obj =>
      run ok <- lift ((Ok (negb (is_none obj))) and_then
                      (py_in "access_token" obj) and_then
                      (py_in "refresh_token" obj));
      if ok then
        run a <- lift (py_item obj "access_token");
        run _ <- f_save_data cfg_access_token_file (pct_s a);
        run r <- lift (py_item obj "refresh_token");
        f_save_data cfg_refresh_token_file (pct_s r)
      else ret tt
  end.

(** [f_get_vehicle_id], lines 273-321: the [while (retries > 0)] loop. *)
Fixpoint f_get_vehicle_id_loop (retries : nat) : io (option vehicle) :=
  match retries with
  | O => ret None
  | S retries' =>
      run access_token <- f_get_token cfg_access_token_file;
      match access_token with
      | None => ret None
      | Some _ =>
          run resp <- urlopen GET vehicles_url;
          run found <-
            match resp with
            | None => run _ <- f_update_access_token; ret None
            | Some obj => lift (vehicle_of_response obj)
            end;
          match found with
          | Some x => ret (Some x)
          | None => run _ <- sleep cfg_retry_sleep; f_get_vehicle_id_loop retries'
          end
      end
  end.

Definition f_get_vehicle_id : io (option vehicle) :=
  f_get_vehicle_id_loop cfg_api_retries.

End Api.

(** Counting in a log. *)
Definition is_attempt (e : event) : bool :=
  match e with
  | EvRequest GET url _ => String.eqb url vehicles_url
  | _ => false
  end.

Definition is_transport_failure (e : event) : bool :=
  match e with
  | EvRequest GET url false => String.eqb url vehicles_url
  | _ => false
  end.

Definition is_refresh (e : event) : bool :=
  match e with
  | EvRequest POST url _ => String.eqb url token_url
  | _ => false
  end.

Definition is_sleep (e : event) : bool :=
  match e with
  | EvSleep _ => true
  | _ => false
  end.

Definition is_retry_sleep (e : event) : bool :=
  match e with
  | EvSleep secs => (secs =? cfg_retry_sleep)%Z
  | _ => false
  end.

Definition count (p : event -> bool) (l : list event) : nat :=
  List.length (List.filter p l).

(** ** The main loop (lines 499-586) *)

(** Epoch times are the exact rationals the floats stand for. *)
Definition Qgtb (a b : Q) : bool := negb (Qle_bool a b).

(** The module level variables the loop and the web server share. *)
Record Globals : Type := mkGlobals {
  G_metrics_cur : option metrics;
  G_metrics_new : option metrics;
  G_last_load : Q;
  G_last_loop : Q;
  G_last_online : Q;
  poll_freq : Z;
  cycle_start : Q
}.

(** What the file system answers about one file in one cycle: [os.stat]
    ([None]: it raised) and [json.load] of the opened file ([None]: [open] or
    the parser raised). *)
Record FileView : Type := mkFileView {
  fv_mtime : option Q;
  fv_json : option json
}.

Definition Disk : Type := string -> FileView.

(** [f_get_file_age], lines 174-181 *)
Definition f_get_file_age (disk : Disk) (filename : string) : Q :=
  match fv_mtime (disk filename) with
  | Some mtime => mtime
  | None => (-1)%Q
  end.

(** [f_load_json], lines 109-121; [None] and a parsed [null] are both the
    Python [None]. *)
Definition f_load_json (disk : Disk) (filename : string) : json :=
  default JNull (fv_json (disk filename)).

(** A cycle runs to its end or dies with an exception, the globals being what
    they were when it was raised. *)
Inductive loop_outcome : Type :=
| Completed (g : Globals)
| Crashed (e : exn) (g : Globals).

Definition globals_of (o : loop_outcome) : Globals :=
  match o with
  | Completed g | Crashed _ g => g
  end.

(** The test of lines 544-549 *)
Definition payload_online (obj : json) : result bool :=
  (Ok (negb (is_none obj))) and_then
  (py_in "response" obj) and_then
  (do r <- py_item obj "response"; Ok (negb (is_none r))) and_then
  (do r <- py_item obj "response"; py_in "state" r) and_then
  (do r <- py_item obj "response"; do st <- py_item r "state"; Ok (negb (is_none st))) and_then
  (do r <- py_item obj "response"; do st <- py_item r "state"; Ok (is_str "online" st)).

(** The test of lines 563-566, on [obj["response"]] *)
Definition shift_state_is_D (resp : json) : result bool :=
  (py_in "drive_state" resp) and_then
  (do d <- py_item resp "drive_state"; py_in "shift_state" d) and_then
  (do d <- py_item resp "drive_state"; do sh <- py_item d "shift_state";
   Ok (negb (is_none sh))) and_then
  (do d <- py_item resp "drive_state"; do sh <- py_item d "shift_state";
   Ok (is_str "D" sh)).

Definition set_new (m : metrics) (g : Globals) : Globals :=
  mkGlobals (G_metrics_cur g) (Some m) (G_last_load g) (G_last_loop g)
            (G_last_online g) (poll_freq g) (cycle_start g).

(** Lines 556-557 and 562: publish, record the age, back to the normal
    interval.  [G_metrics_cur] and [G_metrics_new] now name the same dict; the
    next reload rebinds [G_metrics_new] to a fresh one before writing to it. *)
Definition publish (m : metrics) (age : Q) (g : Globals) : Globals :=
  mkGlobals (Some m) (Some m) age (G_last_loop g)
            (G_last_online g) cfg_check_interval (cycle_start g).

Definition set_poll_freq (f : Z) (g : Globals) : Globals :=
  mkGlobals (G_metrics_cur g) (G_metrics_new g) (G_last_load g) (G_last_loop g)
            (G_last_online g) f (cycle_start g).

Definition clear_cur (g : Globals) : Globals :=
  mkGlobals None (G_metrics_new g) (G_last_load g) (G_last_loop g)
            (G_last_online g) (poll_freq g) (cycle_start g).

(** Lines 543-567, the body of [if (age > G_last_load)]; [frames] is the
    number of nested calls the interpreter allows the walk of line 552, which
    leaves in [G_metrics_new] what it wrote before an exception. *)
Definition poll_reload (frames : nat) (age : Q) (obj : json) (g : Globals)
  : loop_outcome :=
  match payload_online obj with
  | Raise e => Crashed e g
  | Ok false => Completed g
  | Ok true =>
      match py_item obj "response" with
      | Raise e => Crashed e g
      | Ok resp =>
          match f_iterate frames resp cfg_metrics_prefix [] with
          | Broke e written => Crashed e (set_new written g)
          | Filled new =>
              if (1 <? List.length new)%nat then
                let g' := publish new age g in
                match shift_state_is_D resp with
                | Raise e => Crashed e g'
                | Ok true => Completed (set_poll_freq cfg_drive_interval g')
                | Ok false => Completed g'
                end
              else Completed (set_new new g)
          end
      end
  end.

(** Lines 571-573 *)
Definition stale_check (age now : Q) (g : Globals) : Globals :=
  match G_metrics_cur g with
  | Some _ => if Qgtb (now - age) (inject_Z cfg_stale_thres) then clear_cur g else g
  | None => g
  end.

(** Lines 538-567: the reload, when the file is newer than the last load. *)
Definition reload_if_newer (frames : nat) (disk : Disk) (g : Globals) : loop_outcome :=
  let age := f_get_file_age disk cfg_vehicle_data_file in
  if Qgtb age (G_last_load g)
  then poll_reload frames age (f_load_json disk cfg_vehicle_data_file) g
  else Completed g.

(** Lines 538-573: [now] is the clock read on line 571. *)
Definition poll_tail (frames : nat) (disk : Disk) (now : Q) (g : Globals)
  : loop_outcome :=
  let age := f_get_file_age disk cfg_vehicle_data_file in
  match reload_if_newer frames disk g with
  | Completed g' => Completed (stale_check age now g')
  | Crashed e g' => Crashed e g'
  end.

(** Lines 513-534 as far as the globals go: the heartbeat, and the time the
    car was last seen online.  [vehicle] is what [f_get_vehicle_id] returned;
    the fetch or wake-up that follows acts on the network and the disk. *)
Definition loop_head (now : Q) (vehicle : option vehicle) (g : Globals) : Globals :=
  let online :=
    match vehicle with
    | Some x => is_str "online" (v_state x)
    | None => false
    end in
  mkGlobals (G_metrics_cur g) (G_metrics_new g) (G_last_load g) now
            (if online then now else G_last_online g) (poll_freq g) (cycle_start g).

(** Lines 577-586: the next cycle start, and the sleep if there is time left. *)
Definition cycle_end (tv_end : Q) (g : Globals) : Globals * option Q :=
  let start := (cycle_start g + inject_Z (poll_freq g))%Q in
  let duration := (start - tv_end)%Q in
  (mkGlobals (G_metrics_cur g) (G_metrics_new g) (G_last_load g) (G_last_loop g)
             (G_last_online g) (poll_freq g) start,
   if Qgtb duration 0 then Some duration else None).

(** What one cycle reads from outside: the clock on lines 513, 571 and 577,
    the result of [f_get_vehicle_id], and the disk as lines 538-543 find it. *)
Record Cycle : Type := mkCycle {
  c_now : Q;
  c_vehicle : option vehicle;
  c_disk : Disk;
  c_stale_now : Q;
  c_end : Q
}.

Definition poll_cycle (frames : nat) (c : Cycle) (g : Globals) : loop_outcome :=
  match poll_tail frames (c_disk c) (c_stale_now c)
                  (loop_head (c_now c) (c_vehicle c) g) with
  | Completed g' => Completed (fst (cycle_end (c_end c) g'))
  | Crashed e g' => Crashed e g'
  end.

(** The [while 1] loop over successive cycles; it stops at the first crash. *)
Fixpoint poll_loop (frames : nat) (cycles : list Cycle) (g : Globals) : loop_outcome :=
  match cycles with
  | [] => Completed g
  | c :: rest =>
      match poll_cycle frames c g with
      | Completed g' => poll_loop frames rest g'
      | Crashed e g' => Crashed e g'
      end
  end.

(** The globals when the loop is entered: line 499 has recorded the age of the
    data file, nothing is published. *)
Definition initial_globals (disk : Disk) (start : Q) : Globals :=
  mkGlobals None None (f_get_file_age disk cfg_vehicle_data_file) 0 0
            cfg_check_interval start.

(** ** The web server, [c_webserver.do_GET] (lines 442-478) *)

Record http_response : Type := mkResponse {
  status : Z;
  headers : list (string * string);
  body : string
}.

(** ["%d" % q] for a float: truncation towards zero *)
Definition Qtrunc (q : Q) : Z := Z.quot (Qnum q) (Zpos (Qden q)).

(** The handler runs in a thread of its own and reads the module level
    variables each time it names one.  [seen i g later] is the globals as its
    [i]-th read finds them: [g] at the first read, then the states of [later]
    one after the other, and the last of them from then on.  With [later]
    empty the loop has changed nothing while the handler ran. *)
Definition seen (i : nat) (g : Globals) (later : list Globals) : Globals :=
  nth i (g :: later) (List.last later g).

(** Line 476 for each key of the dict line 475 started on: the value is
    looked up in [G_metrics_cur] as the [i]-th read finds it; [None] cannot
    be subscripted, and another dict may lack the key. *)
Fixpoint metrics_lines (keys : list string) (i : nat) (g : Globals) (later : list Globals)
  : result string :=
  match keys with
  | [] => Ok EmptyString
  | k :: rest =>
      match G_metrics_cur (seen i g later) with
      | None => Raise TypeError
      | Some m =>
          match dict_get k m with
          | None => Raise KeyError
          | Some v =>
              do buf <- metrics_lines rest (S i) g later;
              Ok (k ++ " " ++ mval_text v ++ newline ++ buf)
          end
      end
  end.

(** [do_GET].  For [/metrics] the status line and the header have been sent
    when the body is built and encoded, so an exception leaves them sent and
    the body unsent; [str.encode] raises on a lone surrogate. *)
Definition do_GET (path : string) (now : Q) (g : Globals) (later : list Globals)
  : result http_response :=
  if String.eqb path "/healthz" then
    let last_loop := (now - G_last_loop g)%Q in
    if Qgtb last_loop (inject_Z (cfg_check_interval * 2))
    then Ok (mkResponse 500 []
               ("ERR last_loop:" ++ pct_d (Qtrunc last_loop) ++ " secs ago" ++ newline))
    else Ok (mkResponse 200 []
               ("OK last_loop:" ++ pct_d (Qtrunc last_loop) ++ " secs ago" ++ newline))
  else if negb (String.eqb path "/metrics") then
    Ok (mkResponse 404 [] EmptyString)
  else
    do buf <- match G_metrics_cur g with
              | None => Ok EmptyString
              | Some _ =>
                  match G_metrics_cur (seen 1 g later) with
                  | None => Raise AttributeError
                  | Some d => metrics_lines (List.map fst d) 2 g later
                  end
              end;
    if has_surrogate buf then Raise UnicodeEncodeError
    else Ok (mkResponse 200 [("Content-type", "text/plain")] buf).

(** ** The other API routines and the first half of the loop *)

Definition cfg_sleep_allowed : Z := 60 * 60.

(** ["%d" % v]: the decimal text of an int, a boolean or a float (cut towards
    zero), an exception for anything else. *)
Definition pct_d_json (v : json) : result string :=
  match v with
  | JInt z => Ok (pct_d z)
  | JBool b => Ok (pct_d (if b then 1 else 0))
  | JFloat (FFinite neg m e) =>
      let q := match e with
               | Z0 => m
               | Zpos p => (m * 2 ^ Npos p)%N
               | Zneg p => (m / 2 ^ Npos p)%N
               end in
      Ok (pct_d (if neg then - Z.of_N q else Z.of_N q))
  | JFloat FNan => Raise ValueError
  | JFloat (FInf _) => Raise OverflowError
  | _ => Raise TypeError
  end.

(** The addresses of lines 343 and 404, for the text of the vehicle id. *)
Definition wake_url (id : string) : string :=
  cfg_tesla_owner_url ++ "/api/1/vehicles/" ++ id ++ "/wake_up".

Definition data_url (id : string) : string :=
  cfg_tesla_owner_url ++ "/api/1/vehicles/" ++ id ++ "/vehicle_data".

(** The test of lines 364-368 of [f_wake_vehicle] *)
Definition wake_acknowledged (obj : json) : result bool :=
  (Ok (negb (is_none obj))) and_then
  (py_in "response" obj) and_then
  (do r <- py_item obj "response"; Ok (negb (is_none r))) and_then
  (do r <- py_item obj "response"; py_in "state" r) and_then
  (do r <- py_item obj "response"; py_in "display_name" r).

(** Lines 364-373: the test and the [print] of the branch taken; the first
    one reads [display_name], then [state]. *)
Definition wake_report (obj : json) : result unit :=
  do ok <- wake_acknowledged obj;
  if ok then
    do r <- py_item obj "response";
    do _ <- py_item r "display_name";
    do _ <- py_item r "state";
    Ok tt
  else Ok tt.

(** The test of lines 425-426 of [f_get_vehicle_data] *)
Definition has_response (obj : json) : result bool :=
  (Ok (negb (is_none obj))) and_then (py_in "response" obj).

Section Fetch.

Variable py_repr : json -> string.

(** [str(payload, "UTF-8")], the text of a reply body: the replies of the
    model hold the parsed value only, so its text is a parameter; the
    decoding raises on a body that is not UTF-8 ([json.loads] also reads
    UTF-16 and UTF-32). *)
Variable body_text : json -> result string.

(** [f_wake_vehicle], lines 335-375.  The token is read without a test, the
    address and the first [print] format the id with ["%d"]. *)
Fixpoint f_wake_vehicle_loop (id : json) (retries : nat) : io unit :=
  match retries with
  | O => ret tt
  | S retries' =>
      run _token <- f_get_token cfg_access_token_file;
      run idtext <- lift (pct_d_json id);
      run resp <- urlopen POST (wake_url idtext);
      match resp with
      | None =>
          run _ <- f_update_access_token py_repr;
          run _ <- sleep cfg_retry_sleep;
          f_wake_vehicle_loop id retries'
      | Some obj => lift (wake_report obj)
      end
  end.

Definition f_wake_vehicle (id : json) : io unit :=
  f_wake_vehicle_loop id cfg_api_retries.

(** [f_get_vehicle_data], lines 396-429 *)
Fixpoint f_get_vehicle_data_loop (id : json) (retries : nat) : io unit :=
  match retries with
  | O => ret tt
  | S retries' =>
      run _token <- f_get_token cfg_access_token_file;
      run idtext <- lift (pct_d_json id);
      run resp <- urlopen GET (data_url idtext);
      match resp with
      | None =>
          run _ <- f_update_access_token py_repr;
          run _ <- sleep cfg_retry_sleep;
          f_get_vehicle_data_loop id retries'
      | Some obj =>
          run ok <- lift (has_response obj);
          if ok then
            run text <- lift (body_text obj);
            f_save_data cfg_vehicle_data_file text
          else ret tt
      end
  end.

Definition f_get_vehicle_data (id : json) : io unit :=
  f_get_vehicle_data_loop id cfg_api_retries.

(** Line 533, with the tests of lines 522 and 530 before it: is the car to be
    woken?  (The two [in] tests of line 530 hold of every record that
    [f_get_vehicle_id] returns.) *)
Definition wake_due (now : Q) (vehicle : option vehicle) (g : Globals) : bool :=
  match vehicle with
  | Some x =>
      negb (is_str "online" (v_state x)) &&
      Qgtb (now - G_last_online g) (inject_Z cfg_sleep_allowed)
  | None => false
  end.

(** Lines 513-534: the heartbeat, the listing, then the fetch or the wake-up.
    The globals are those of [loop_head]. *)
Definition poll_head (now : Q) (g : Globals) : io Globals :=
  run vehicle <- f_get_vehicle_id py_repr;
  match vehicle with
  | Some x =>
      if is_str "online" (v_state x)
      then run _ <- f_get_vehicle_data (v_id x); ret (loop_head now vehicle g)
      else if wake_due now vehicle g
           then run _ <- f_wake_vehicle (v_id x); ret (loop_head now vehicle g)
           else ret (loop_head now vehicle g)
  | None => ret (loop_head now vehicle g)
  end.

End Fetch.

(** More counting in a log. *)
Fixpoint ends_with (suffix s : string) : bool :=
  if String.eqb s suffix then true
  else match s with
       | EmptyString => false
       | String _ r => ends_with suffix r
       end.

Definition is_wake (e : event) : bool :=
  match e with
  | EvRequest POST url _ => ends_with "/wake_up" url
  | _ => false
  end.

Definition is_fetch (e : event) : bool :=
  match e with
  | EvRequest GET url _ => ends_with "/vehicle_data" url
  | _ => false
  end.

Definition is_save (file : string) (e : event) : bool :=
  match e with
  | EvSave f => String.eqb f file
  | _ => false
  end.

(** ** The PKCE helpers, [code_verifier.py] and [code_challenge.py] *)

(** The alphabet of [base64.urlsafe_b64encode]: the standard one with [-] and
    [_] for [+] and [/]. *)
Definition urlsafe_alphabet : string :=
  "ABCDEFGHIJKLMNOPQRSTUVWXYZabcdefghijklmnopqrstuvwxyz0123456789-_".

Definition pad_char : ascii := ascii_of_nat 61.

Definition b64_char (n : N) : ascii :=
  match String.get (N.to_nat n) urlsafe_alphabet with
  | Some c => c
  | None => pad_char
  end.

(** [base64.urlsafe_b64encode]: four characters for three bytes, the last
    group filled up with [=]. *)
Fixpoint urlsafe_b64encode (data : list Byte.byte) : string :=
  match data with
  | [] => EmptyString
  | [a] =>
      let x := Byte.to_N a in
      String (b64_char (x / 4))
        (String (b64_char ((x mod 4) * 16))
           (String pad_char (String pad_char EmptyString)))
  | [a; b] =>
      let x := Byte.to_N a in
      let y := Byte.to_N b in
      String (b64_char (x / 4))
        (String (b64_char ((x mod 4) * 16 + y / 16))
           (String (b64_char ((y mod 16) * 4))
              (String pad_char EmptyString)))
  | a :: b :: c :: rest =>
      let x := Byte.to_N a in
      let y := Byte.to_N b in
      let z := Byte.to_N c in
      String (b64_char (x / 4))
        (String (b64_char ((x mod 4) * 16 + y / 16))
           (String (b64_char ((y mod 16) * 4 + z / 64))
              (String (b64_char (z mod 64)) (urlsafe_b64encode rest))))
  end.

(** [s.rstrip(c)] for a one-character [c] *)
Fixpoint rstrip_char (c : ascii) (s : string) : string :=
  match s with
  | EmptyString => EmptyString
  | String d r =>
      match rstrip_char c r with
      | EmptyString => if Ascii.eqb d c then EmptyString else String d EmptyString
      | r' => String d r'
      end
  end.

(** [code_verifier.py]: [random] is what [os.urandom(86)] returned. *)
Definition code_verifier (random : list Byte.byte) : string :=
  rstrip_char pad_char (urlsafe_b64encode random).

(** [code_challenge.py]: [verifier] is the encoded argument; the hash
    function is a parameter. *)
Definition code_challenge (sha256 : list Byte.byte -> list Byte.byte)
           (verifier : list Byte.byte) : string :=
  rstrip_char pad_char (urlsafe_b64encode (sha256 verifier)).

(** * Vocabulary of the statements *)

(** ** For the flattener *)

(** The [for f in fields] loop of [f_iterate] on its own, [depth] frames
    being left for the calls it makes. *)
Fixpoint iterate_fields (depth : nat) (prefix : string) (l : list (string * json))
         (G : metrics) : walk :=
  match l with
  | [] => Filled G
  | (f, v) :: rest =>
      match v with
      | JDict _ =>
          and_on (f_iterate depth v (field_name prefix f) G)
                 (iterate_fields depth prefix rest)
      | _ => iterate_fields depth prefix rest (store_leaf (field_name prefix f) v G)
      end
  end.

(** The dict a walk leaves behind, however it ended. *)
Definition written (r : walk) : metrics :=
  match r with
  | Filled G | Broke _ G => G
  end.

(** The calls of [f_iterate] that the walk of a value nests: one for a dict,
    and those of the deepest dict among its fields (a list is not walked). *)
Fixpoint nesting (v : json) : nat :=
  match v with
  | JDict kvs =>
      S ((fix deepest (l : list (string * json)) : nat :=
            match l with
            | [] => O
            | (_, x) :: r => Nat.max (nesting x) (deepest r)
            end) kvs)
  | _ => O
  end.

(** The same for the fields of a dict. *)
Fixpoint deepest (l : list (string * json)) : nat :=
  match l with
  | [] => O
  | (_, x) :: r => Nat.max (nesting x) (deepest r)
  end.

(** A dict holding a dict holding a dict, [n] times over, around a leaf. *)
Fixpoint nested (n : nat) : json :=
  match n with
  | O => JDict [("leaf", JInt 1)]
  | S n' => JDict [("inner", nested n')]
  end.

(** Fields the flattener passes over: null, lists, and strings that are empty
    once the spaces around them are removed. *)
Definition unrecognized (v : json) : bool :=
  match v with
  | JNull | JList _ => true
  | JStr s => String.eqb (rstrip_space (lstrip_space s)) EmptyString
  | _ => false
  end.

(** Strings made of spaces only. *)
Fixpoint only_spaces (s : string) : bool :=
  match s with
  | EmptyString => true
  | String c r => Ascii.eqb c space && only_spaces r
  end.

(** White space as Python has it ([str.isspace], [str.strip()]): in one byte
    the codes 9 to 13 and 28 to 32; in two bytes U+0085 and U+00A0; in three
    bytes U+1680, U+2000 to U+200A, U+2028, U+2029, U+202F, U+205F and
    U+3000. *)
Definition py_isspace (c : ascii) : bool :=
  let n := nat_of_ascii c in
  ((9 <=? n) && (n <=? 13) || (28 <=? n) && (n <=? 32))%nat.

Definition py_isspace2 (a b : ascii) : bool :=
  let x := nat_of_ascii a in
  let y := nat_of_ascii b in
  ((x =? 194) && ((y =? 133) || (y =? 160)))%nat.

Definition py_isspace3 (a b c : ascii) : bool :=
  let x := nat_of_ascii a in
  let y := nat_of_ascii b in
  let z := nat_of_ascii c in
  ((x =? 225) && (y =? 154) && (z =? 128)
   || (x =? 226) && (y =? 128) &&
      ((128 <=? z) && (z <=? 138) || (z =? 168) || (z =? 169) || (z =? 175))
   || (x =? 226) && (y =? 129) && (z =? 159)
   || (x =? 227) && (y =? 128) && (z =? 128))%nat.

(** Strings made of white space only (the empty string among them). *)
Fixpoint whitespace_only (s : string) : bool :=
  match s with
  | EmptyString => true
  | String a r =>
      if py_isspace a then whitespace_only r
      else
        match r with
        | EmptyString => false
        | String b r' =>
            if py_isspace2 a b then whitespace_only r'
            else
              match r' with
              | EmptyString => false
              | String c r'' => py_isspace3 a b c && whitespace_only r''
              end
        end
  end.

Fixpoint spaces (n : nat) : string :=
  match n with
  | O => EmptyString
  | S n' => String space (spaces n')
  end.

Definition tab : string := String (ascii_of_nat 9) EmptyString.

(** The sanitizer, character by character. *)
Definition sanitize_char (c : ascii) : string :=
  if Ascii.eqb c "<" || Ascii.eqb c ">" then EmptyString
  else if Ascii.eqb c "," || Ascii.eqb c " " then "_"
  else String c EmptyString.

Fixpoint sanitize_by_char (s : string) : string :=
  match s with
  | EmptyString => EmptyString
  | String c r => sanitize_char c ++ sanitize_by_char r
  end.

(** Decimal digits. *)
Definition is_digit (c : ascii) : bool :=
  let n := nat_of_ascii c in ((48 <=? n) && (n <=? 57))%nat.

Fixpoint all_digits (s : string) : bool :=
  match s with
  | EmptyString => true
  | String c r => is_digit c && all_digits r
  end.

(** ** For the API routines *)

(** The response reports exactly one vehicle, with the id and state of [x]. *)
Definition reports_one_vehicle (obj : json) (x : vehicle) : Prop :=
  exists kvs count car,
    obj = JDict kvs /\
    dict_get "count" kvs = Some count /\ py_eq_one count = true /\
    dict_get "response" kvs = Some (JList [JDict car]) /\
    dict_get "id" car = Some (v_id x) /\ v_id x <> JNull /\
    dict_get "state" car = Some (v_state x) /\ v_state x <> JNull.

(** The log [l'] is the log [l] with more events on top. *)
Definition extends (l l' : list event) : Prop :=
  exists new, l' = (new ++ l)%list.

(** What a run of the listing loop with [retries] to spend adds to the log,
    from world [w] to world [w']: at most [retries] requests to the vehicle
    list; one token refresh for each of these requests that failed in
    transport, and no other; at most one sleep per request, each of
    [cfg_retry_sleep] seconds. *)
Definition trace_within (retries : nat) (w w' : World) : Prop :=
  (count is_attempt (w_log w') <= count is_attempt (w_log w) + retries)%nat /\
  (count is_refresh (w_log w') + count is_transport_failure (w_log w) =
   count is_transport_failure (w_log w') + count is_refresh (w_log w))%nat /\
  (count is_sleep (w_log w') + count is_attempt (w_log w) <=
   count is_attempt (w_log w') + count is_sleep (w_log w))%nat /\
  (count is_retry_sleep (w_log w') + count is_sleep (w_log w) =
   count is_sleep (w_log w') + count is_retry_sleep (w_log w))%nat.







(** A world with a readable access token, nothing locked, and the given
    replies to come. *)
Definition world_with (net : list reply) : World :=
  mkWorld {[ cfg_access_token_file := "token" ]} ∅ net [].

Definition no_repr : json -> string := fun _ => EmptyString.

(** One well-formed vehicle list. *)
Definition one_vehicle_reply : json :=
  JDict [("count", JInt 1);
         ("response", JList [JDict [("id", JInt 42); ("state", JStr "online")]])].

(** ** For the main loop and the web server *)

(** The keys of a dict, in its order. *)
Definition keys {V : Type} (m : list (string * V)) : list string := List.map fst m.

(** [response.drive_state.shift_state], read as a path in the payload. *)
Definition shift_state_of (resp : json) : option json :=
  match resp with
  | JDict kvs =>
      match dict_get "drive_state" kvs with
      | Some (JDict d) => dict_get "shift_state" d
      | _ => None
      end
  | _ => None
  end.

Definition drives (resp : json) : bool :=
  match shift_state_of resp with
  | Some v => is_str "D" v
  | None => false
  end.

(** The data file, if it is there, was written after the epoch. *)
Definition mtime_from_epoch (disk : Disk) : Prop :=
  match fv_mtime (disk cfg_vehicle_data_file) with
  | Some mtime => (0 <= mtime)%Q
  | None => True
  end.

(** A published snapshot has at least two entries, under distinct keys. *)
Definition snapshot_ok (g : Globals) : Prop :=
  match G_metrics_cur g with
  | Some m => (1 < List.length m)%nat /\ NoDup (keys m)
  | None => True
  end.

(** Sample payloads, disks and cycles. *)
Definition payload_parked : json :=
  JDict [("response",
          JDict [("state", JStr "online");
                 ("charge_state", JDict [("battery_level", JInt 67)])])].

Definition payload_driving : json :=
  JDict [("response",
          JDict [("state", JStr "online");
                 ("drive_state", JDict [("shift_state", JStr "D")])])].

Definition payload_asleep : json :=
  JDict [("response", JDict [("state", JStr "asleep")])].

Definition payload_bare : json :=
  JDict [("response", JDict [("state", JStr "online")])].

Definition no_disk : Disk := fun _ => mkFileView None None.

Definition disk_with (mtime : Q) (content : json) : Disk :=
  fun name =>
    if String.eqb name cfg_vehicle_data_file
    then mkFileView (Some mtime) (Some content)
    else mkFileView None None.

Definition car_online : option vehicle := Some (mkVehicle (JInt 42) (JStr "online")).

(** A number of frames for the examples: an interpreter starts with a
    recursion limit of 1000. *)
Definition default_frames : nat := 1000.

(** The loop after a first cycle that loads a payload written at 909. *)
Definition after_load (content : json) : Globals :=
  globals_of (poll_loop default_frames
                        [mkCycle 909 car_online (disk_with 909 content) 910 911]
                        (initial_globals no_disk 900)).

(** The value of an entry as a scrape is to show it: a string as it is, an
    integer as its decimal numeral (the integers stored are the 0 and 1 of a
    boolean). *)
Definition value_text (v : mval) : string :=
  match v with
  | MStr s => s
  | MInt z => NilZero.string_of_int (Z.to_int z)
  end.

(** One line of the scrape, name, space, value, and the whole body: a line
    per entry, each ended by a newline. *)
Definition metric_line (kv : string * mval) : string :=
  fst kv ++ " " ++ value_text (snd kv).

Fixpoint render (m : metrics) : string :=
  match m with
  | [] => EmptyString
  | kv :: rest => metric_line kv ++ newline ++ render rest
  end.

Definition plain_text : list (string * string) := [("Content-type", "text/plain")].

(** The loop leaves the published snapshot as it is while the handler runs:
    every read of the handler finds the one of [g]. *)
Definition steady (g : Globals) (later : list Globals) : Prop :=
  Forall (fun g' => G_metrics_cur g' = G_metrics_cur g) later.

(** The body of a scrape of [g], when it can be sent. *)
Definition scrape_body (g : Globals) : string :=
  match G_metrics_cur g with
  | Some m => render m
  | None => EmptyString
  end.

(** A payload with a boolean field. *)
Definition payload_charging : json :=
  JDict [("response",
          JDict [("state", JStr "online");
                 ("charge_state", JDict [("battery_level", JInt 67);
                                         ("charge_port_door_open", JBool true);
                                         ("fast_charger_present", JBool false)])])].

(** A payload with a name that holds a lone surrogate (U+D800), which
    [json.load] makes of an unpaired escape. *)
Definition lone_surrogate : string :=
  String (ascii_of_nat 237) (String (ascii_of_nat 160) (String (ascii_of_nat 128) EmptyString)).

Definition payload_surrogate : json :=
  JDict [("response",
          JDict [("state", JStr "online"); (lone_surrogate, JInt 1)])].

(** ** For the further properties *)

(** Does the character occur in the string? *)
Fixpoint has_char (c : ascii) (s : string) : bool :=
  match s with
  | EmptyString => false
  | String d r => Ascii.eqb d c || has_char c r
  end.

(** The fields of a tree that the flattener turns into an entry. *)
Fixpoint leaf_count (v : json) : nat :=
  match v with
  | JDict kvs =>
      (fix total (l : list (string * json)) : nat :=
         match l with
         | [] => O
         | (_, x) :: r => (leaf_count x + total r)%nat
         end) kvs
  | JNull | JList _ => O
  | JStr s => if only_spaces s then O else 1%nat
  | JBool _ | JInt _ | JFloat _ => 1%nat
  end.

(** A reply holding both tokens, a world in which the refresh token file
    cannot be written, and that world after the refresh has run into it. *)
Definition both_tokens : json :=
  JDict [("access_token", JStr "new"); ("refresh_token", JStr "next")].

Definition world_refresh_locked : World :=
  mkWorld {[ cfg_access_token_file := "old"; cfg_refresh_token_file := "kept" ]}
          {[ cfg_refresh_token_file ]} [NetBody (Some both_tokens)] [].

Definition world_after_exit : World :=
  mkWorld (<[ cfg_access_token_file := "new" ++ newline ]>
             {[ cfg_access_token_file := "old"; cfg_refresh_token_file := "kept" ]})
          {[ cfg_refresh_token_file ]} []
          [EvSave cfg_access_token_file; EvRequest POST token_url true].

(** Requests of the wake-up and of the fetch that failed in transport. *)
Definition is_wake_failure (e : event) : bool :=
  match e with
  | EvRequest POST url false => ends_with "/wake_up" url
  | _ => false
  end.

Definition is_fetch_failure (e : event) : bool :=
  match e with
  | EvRequest GET url false => ends_with "/vehicle_data" url
  | _ => false
  end.

(** The events a token refresh can log, those of the listing, and those of a
    retry loop whose requests are recognised by [p]. *)
Definition of_refresh (e : event) : bool :=
  is_refresh e || is_save cfg_access_token_file e || is_save cfg_refresh_token_file e.

Definition of_listing (e : event) : bool :=
  is_attempt e || is_retry_sleep e || of_refresh e.

Definition of_retry (p : event -> bool) (e : event) : bool :=
  p e || is_retry_sleep e || of_refresh e.

(** The events of a retry loop: at most [retries] requests, at most one more
    than those that failed in transport, one refresh per failed request, a
    sleep of the retry pause after a refresh at most. *)
Definition retry_trace (p pf : event -> bool) (retries : nat) (new : list event) : Prop :=
  (count p new <= retries)%nat /\
  (count p new <= count pf new + 1)%nat /\
  count is_refresh new = count pf new /\
  (count is_sleep new <= count pf new)%nat /\
  count is_retry_sleep new = count is_sleep new.

(** What a retry loop may have done between two worlds: the events [knew] of
    the reply that ended it, after the events [rnew] of its requests; the
    files it is to [keep], the token files apart, are as they were. *)
Definition retry_effect (p pf kev : event -> bool) (keep : string -> Prop)
           (retries : nat) (w w' : World) : Prop :=
  exists knew rnew,
    w_log w' = (knew ++ rnew ++ w_log w)%list /\
    forallb kev knew = true /\ (List.length knew <= 1)%nat /\
    forallb (of_retry p) rnew = true /\
    retry_trace p pf retries rnew /\
    (forall f, keep f -> f <> cfg_access_token_file -> f <> cfg_refresh_token_file ->
               w_files w' !! f = w_files w !! f).

(** What the fetch may have done to the data file: nothing, or it has
    returned after writing the text of one of the replies that were to come,
    one in which a response is found. *)
Definition saved_reply (body_text : json -> result string) (w : World)
           (o : outcome unit) : Prop :=
  w_files (world_of o) !! cfg_vehicle_data_file = w_files w !! cfg_vehicle_data_file \/
  exists parsed text,
    In (NetBody parsed) (w_net w) /\
    has_response (default JNull parsed) = Ok true /\
    body_text (default JNull parsed) = Ok text /\
    o = Done tt (world_of o) /\
    w_files (world_of o) !! cfg_vehicle_data_file = Some (text ++ newline).

(** A reply to the fetch whose response is null, a text for it, and the
    decoding of a body that is not in UTF-8. *)
Definition null_response : json := JDict [("response", JNull)].

Definition fixed_text : json -> result string := fun _ => Ok "{}".

Definition undecodable : json -> result string := fun _ => Raise UnicodeDecodeError.

(** The log [l'] is the log [l] with events of kind [k] on top. *)
Definition made_of (k : event -> bool) (l l' : list event) : Prop :=
  exists new, l' = (new ++ l)%list /\ forallb k new = true.

(** Did the listing of this cycle report the car online? *)
Definition seen_online (c : Cycle) : bool :=
  match c_vehicle c with
  | Some x => is_str "online" (v_state x)
  | None => false
  end.

Definition car_asleep : option vehicle := Some (mkVehicle (JInt 42) (JStr "asleep")).

(** The sum of the polling intervals of a run of cycles lies between the
    drive interval and the normal interval per cycle. *)
Definition intervals_within (total : Z) (cycles : nat) : Prop :=
  (cfg_drive_interval * Z.of_nat cycles <= total <= cfg_check_interval * Z.of_nat cycles)%Z.

Definition known_interval (f : Z) : Prop :=
  f = cfg_drive_interval \/ f = cfg_check_interval.

(** The characters of the encoding before the padding, and the padding. *)
Fixpoint b64_unpadded (data : list Byte.byte) : string :=
  match data with
  | [] => EmptyString
  | [a] =>
      let x := Byte.to_N a in
      String (b64_char (x / 4)) (String (b64_char ((x mod 4) * 16)) EmptyString)
  | [a; b] =>
      let x := Byte.to_N a in
      let y := Byte.to_N b in
      String (b64_char (x / 4))
        (String (b64_char ((x mod 4) * 16 + y / 16))
           (String (b64_char ((y mod 16) * 4)) EmptyString))
  | a :: b :: c :: rest =>
      let x := Byte.to_N a in
      let y := Byte.to_N b in
      let z := Byte.to_N c in
      String (b64_char (x / 4))
        (String (b64_char ((x mod 4) * 16 + y / 16))
           (String (b64_char ((y mod 16) * 4 + z / 64))
              (String (b64_char (z mod 64)) (b64_unpadded rest))))
  end.

Fixpoint b64_pad (data : list Byte.byte) : string :=
  match data with
  | [] => EmptyString
  | [_] => String pad_char (String pad_char EmptyString)
  | [_; _] => String pad_char EmptyString
  | _ :: _ :: _ :: rest => b64_pad rest
  end.

(** Every character of [s] is one of [allowed]. *)
Definition chars_from (allowed s : string) : Prop :=
  forall c, has_char c s = true -> has_char c allowed = true.

(** The unreserved characters a PKCE code verifier may be made of. *)
Definition pkce_unreserved : string :=
  "ABCDEFGHIJKLMNOPQRSTUVWXYZabcdefghijklmnopqrstuvwxyz0123456789-._~".

(** A stand-in for a hash function with 32 byte digests. *)
Definition zero_digest : list Byte.byte -> list Byte.byte :=
  fun _ => List.repeat Byte.x00 32.

(** The place of a character in a string (its length when it is not there):
    the inverse of [b64_char] on the alphabet. *)
Fixpoint index_of (c : ascii) (s : string) : N :=
  match s with
  | EmptyString => 0%N
  | String d r => if Ascii.eqb d c then 0%N else N.succ (index_of c r)
  end.

Definition b64_index (c : ascii) : N := index_of c urlsafe_alphabet.

(** A reply that makes the token refresh raise: a number or a boolean, or a
    list or a string in which both names are found. *)
Definition breaks_refresh (body : json) : bool :=
  match body with
  | JInt _ | JBool _ | JFloat _ => true
  | JStr s => contains "access_token" s && contains "refresh_token" s
  | JList l =>
      existsb (is_str "access_token") l && existsb (is_str "refresh_token") l
  | JNull | JDict _ => false
  end.

(** The dicts nested in the response of a payload, which the reload walks. *)
Definition response_nesting (obj : json) : nat :=
  match py_item obj "response" with
  | Ok resp => nesting resp
  | Raise _ => O
  end.

(** A data file the reload can take: unreadable or null, or an object whose
    response is missing, null, or an object whose drive state, if it has one,
    is an object. *)
Definition well_shaped (obj : json) : bool :=
  match obj with
  | JNull => true
  | JDict kvs =>
      match dict_get "response" kvs with
      | None | Some JNull => true
      | Some (JDict r) =>
          match dict_get "drive_state" r with
          | None | Some (JDict _) => true
          | Some _ => false
          end
      | Some _ => false
      end
  | _ => false
  end.

(** ** Induction over parsed JSON *)

Section JsonInd.
Variable P : json -> Prop.
Hypothesis HNull : P JNull.
Hypothesis HBool : forall b, P (JBool b).
Hypothesis HInt : forall z, P (JInt z).
Hypothesis HFloat : forall x, P (JFloat x).
Hypothesis HStr : forall s, P (JStr s).
Hypothesis HList : forall l, Forall P l -> P (JList l).
Hypothesis HDict : forall kvs, Forall (fun kv => P (snd kv)) kvs -> P (JDict kvs).

Fixpoint json_ind (v : json) : P v :=
  match v with
  | JNull => HNull
  | JBool b => HBool b
  | JInt z => HInt z
  | JFloat x => HFloat x
  | JStr s => HStr s
  | JList l =>
      HList l ((fix all (l : list json) : Forall P l :=
                  match l with
                  | [] => @List.Forall_nil _ P
                  | x :: r => @List.Forall_cons _ P x r (json_ind x) (all r)
                  end) l)
  | JDict kvs =>
      HDict kvs ((fix all (l : list (string * json)) : Forall (fun kv => P (snd kv)) l :=
                    match l with
                    | [] => @List.Forall_nil _ _
                    | kv :: r => @List.Forall_cons _ _ kv r (json_ind (snd kv)) (all r)
                    end) kvs)
  end.
End JsonInd.

(** * Properties *)

(** ** The flattener *)

Lemma f_iterate_dict (depth : nat) (kvs : list (string * json)) (prefix : string)
      (G : metrics) :
  f_iterate (S depth) (JDict kvs) prefix G = iterate_fields depth prefix kvs G.
Proof.
  revert G. induction kvs as [|[f v] rest IH]; intros G; [reflexivity|].
  cbn [iterate_fields].
  destruct v; try (rewrite <- IH; reflexivity).
  change (f_iterate (S depth) (JDict ((f, JDict kvs) :: rest)) prefix G)
    with (and_on (f_iterate depth (JDict kvs) (field_name prefix f) G)
                 (f_iterate (S depth) (JDict rest) prefix)).
  destruct (f_iterate depth (JDict kvs) (field_name prefix f) G); simpl;
    [apply IH | reflexivity].
Qed.

Lemma iterate_fields_app (depth : nat) (prefix : string) (l1 l2 : list (string * json))
      (G : metrics) :
  iterate_fields depth prefix (l1 ++ l2)%list G =
  and_on (iterate_fields depth prefix l1 G) (iterate_fields depth prefix l2).
Proof.
  revert G. induction l1 as [|[f v] rest IH]; intros G; [reflexivity|].
  simpl. destruct v; try apply IH.
  destruct (f_iterate depth (JDict kvs) (field_name prefix f) G); simpl;
    [apply IH | reflexivity].
Qed.

Lemma nesting_dict (kvs : list (string * json)) : nesting (JDict kvs) = S (deepest kvs).
Proof.
  reflexivity.
Qed.

(** With a frame for each nested dict the walk comes to its end. *)
Lemma f_iterate_within (v : json) :
  forall kvs, v = JDict kvs ->
  forall depth prefix G, (nesting v <= depth)%nat ->
  exists G', f_iterate depth v prefix G = Filled G'.
Proof.
  induction v using json_ind; intros kvs' Heq; try discriminate.
  injection Heq as ->. intros depth prefix G. rewrite nesting_dict.
  destruct depth as [|depth]; [lia|]. intros Hd. apply le_S_n in Hd.
  rewrite f_iterate_dict.
  revert G Hd. induction H as [|[f v] rest Hv _ IH]; intros G Hd; simpl in *.
  - eauto.
  - assert (Hrest : (deepest rest <= depth)%nat) by lia.
    destruct v; try (apply IH; exact Hrest).
    destruct (Hv kvs eq_refl depth (field_name prefix f) G) as [G1 ->]; [lia|].
    simpl. apply IH. exact Hrest.
Qed.

(** With fewer frames than nested dicts the walk ends in [RecursionError];
    no other exception can end it. *)
Lemma f_iterate_beyond (v : json) :
  forall kvs, v = JDict kvs ->
  forall depth prefix G, (depth < nesting v)%nat ->
  exists G', f_iterate depth v prefix G = Broke RecursionError G'.
Proof.
  induction v using json_ind; intros kvs' Heq; try discriminate.
  injection Heq as ->. intros depth prefix G. rewrite nesting_dict.
  destruct depth as [|depth]; [intros _; simpl; eauto|]. intros Hd.
  apply PeanoNat.lt_S_n in Hd.
  rewrite f_iterate_dict.
  revert G Hd. induction H as [|[f v] rest Hv _ IH]; intros G Hd; simpl in *.
  - lia.
  - destruct (Nat.max_spec (nesting v) (deepest rest)) as [[Hlt Hmax]|[Hle Hmax]];
      rewrite Hmax in Hd.
    + destruct v; try (apply IH; exact Hd).
      destruct (Nat.le_gt_cases (nesting (JDict kvs)) depth) as [Hin|Hout].
      * destruct (f_iterate_within (JDict kvs) kvs eq_refl depth (field_name prefix f) G Hin)
          as [G1 ->].
        simpl. apply IH. exact Hd.
      * destruct (Hv kvs eq_refl depth (field_name prefix f) G Hout) as [G1 ->].
        simpl. eauto.
    + destruct v; try (simpl in Hd; lia).
      destruct (Hv kvs eq_refl depth (field_name prefix f) G Hd) as [G1 ->].
      simpl. eauto.
Qed.

Lemma nested_nesting (n : nat) : nesting (nested n) = S n.
Proof. induction n as [|n IH]; [reflexivity|]. simpl in *. rewrite IH. reflexivity. Qed.

Lemma nested_breaks (depth : nat) (prefix : string) (G : metrics) :
  f_iterate depth (nested depth) prefix G = Broke RecursionError G.
Proof.
  revert prefix G. induction depth as [|depth IH]; intros prefix G; [reflexivity|].
  cbn [nested]. rewrite f_iterate_dict. cbn [iterate_fields].
  destruct depth as [|depth']; [reflexivity|].
  cbn [nested] in *. rewrite IH. reflexivity.
Qed.

Lemma length_zero_eqb (s : string) :
  (0 <? String.length s)%nat = negb (String.eqb s EmptyString).
Proof. destruct s; reflexivity. Qed.

Lemma unrecognized_store (name : string) (v : json) (G : metrics) :
  unrecognized v = true -> store_leaf name v G = G.
Proof.
  unfold store_leaf, leaf_entry, leaf_value.
  destruct v; simpl; try discriminate; try reflexivity.
  intros H. rewrite length_zero_eqb, H. reflexivity.
Qed.

Lemma rstrip_space_keeps (c : ascii) (r : string) :
  Ascii.eqb c space = false -> String.eqb (rstrip_space (String c r)) EmptyString = false.
Proof.
  intros Hc. simpl. destruct (rstrip_space r); [rewrite Hc|]; reflexivity.
Qed.

Lemma strip_empty (s : string) :
  String.eqb (rstrip_space (lstrip_space s)) EmptyString = only_spaces s.
Proof.
  induction s as [|c r IH]; [reflexivity|].
  cbn [lstrip_space only_spaces].
  destruct (Ascii.eqb c space) eqn:Hc; simpl; [exact IH|].
  apply (rstrip_space_keeps c r Hc).
Qed.

Lemma only_spaces_spaces (n : nat) : only_spaces (spaces n) = true.
Proof. induction n; simpl; [reflexivity | exact IHn]. Qed.

Lemma sanitize_by_char_ok (s : string) : sanitize s = sanitize_by_char s.
Proof.
  unfold sanitize. induction s as [|c r IH]; [reflexivity|].
  cbn [remove_char sanitize_by_char]. unfold sanitize_char.
  destruct (Ascii.eqb c "<") eqn:Hlt; [exact IH|].
  cbn [remove_char orb].
  destruct (Ascii.eqb c ">") eqn:Hgt; [exact IH|].
  cbn [replace_char].
  destruct (Ascii.eqb c ",") eqn:Hco; cbn [orb].
  - cbn [replace_char]. rewrite IH. reflexivity.
  - cbn [replace_char]. destruct (Ascii.eqb c " ") eqn:Hsp.
    + rewrite IH. reflexivity.
    + rewrite IH. reflexivity.
Qed.

Lemma digit_char_is_digit (x : N) : is_digit (digit_char (x mod 10)) = true.
Proof.
  assert (H : (x mod 10 < 10)%N) by (apply N.mod_lt; discriminate).
  remember (x mod 10)%N as d eqn:Hd. clear Hd.
  destruct d as [|p]; [reflexivity|].
  do 4 (destruct p as [p|p|]; try reflexivity; try (exfalso; lia)).
Qed.

Lemma digits6_shape (r : N) :
  String.length (digits6 r) = 6%nat /\ all_digits (digits6 r) = true.
Proof.
  split; [reflexivity|].
  unfold digits6. cbn [all_digits].
  rewrite !digit_char_is_digit. reflexivity.
Qed.

Lemma all_digits_uint (d : Decimal.uint) : all_digits (NilEmpty.string_of_uint d) = true.
Proof. induction d; simpl; auto. Qed.

Lemma pct_d_nonneg_digits (n : N) :
  all_digits (pct_d (Z.of_N n)) = true /\ pct_d (Z.of_N n) <> EmptyString.
Proof.
  unfold pct_d. destruct n as [|p]; [split; [reflexivity | discriminate]|].
  simpl. destruct (Pos.to_uint p) eqn:Hp; simpl;
    try (split; [try apply all_digits_uint; reflexivity | discriminate]).
Qed.

(** ["%f"] rounds to the nearest multiple of [10^-6]. *)
Lemma round_half_even_near (num den : N) :
  den <> 0%N ->
  let n := round_half_even num den in
  (2 * (n * den) <= 2 * num + den /\ 2 * num <= 2 * (n * den) + den)%N.
Proof.
  intros Hden. unfold round_half_even.
  pose proof (N.div_mod num den Hden) as Hdm.
  pose proof (N.mod_lt num den Hden) as Hlt.
  set (q := (num / den)%N) in *. set (r := (num mod den)%N) in *.
  destruct (2 * r <? den)%N eqn:H1; [apply N.ltb_lt in H1; simpl; nia|].
  apply N.ltb_ge in H1.
  destruct (den <? 2 * r)%N eqn:H2; [apply N.ltb_lt in H2; simpl; nia|].
  apply N.ltb_ge in H2.
  destruct (N.even q); simpl; nia.
Qed.

Lemma scaled6_near (m : N) (p : positive) :
  let n := scaled6 m (Zneg p) in
  (2 * (n * 2 ^ Npos p) <= 2 * (m * 1000000) + 2 ^ Npos p /\
   2 * (m * 1000000) <= 2 * (n * 2 ^ Npos p) + 2 ^ Npos p)%N.
Proof.
  apply round_half_even_near. apply N.pow_nonzero. discriminate.
Qed.

Lemma append_assoc3 (x y z : string) : (x ++ y) ++ z = x ++ y ++ z.
Proof. induction x as [|c r IH]; simpl; [reflexivity | rewrite IH; reflexivity]. Qed.

Lemma label_key (name x : string) :
  name ++ "{" ++ ("value=" ++ dquote ++ x ++ dquote) ++ "}" =
  name ++ "{value=" ++ dquote ++ x ++ dquote ++ "}".
Proof.
  unfold dquote. simpl. rewrite (append_assoc3 x). reflexivity.
Qed.

Lemma flatten_single_leaf (depth : nat) (prefix a : string) (v : json) :
  (forall kvs, v <> JDict kvs) ->
  f_iterate (S depth) (JDict [(a, v)]) prefix [] =
  Filled (match leaf_entry (field_name prefix a) v with
          | Some entry => [entry]
          | None => []
          end).
Proof.
  intros Hv. rewrite f_iterate_dict. unfold iterate_fields, store_leaf.
  destruct v; try (destruct (leaf_entry _ _) as [[m value]|]; reflexivity).
  exfalso. exact (Hv kvs eq_refl).
Qed.

Lemma f_iterate_step (depth : nat) (prefix a : string) (v : json)
      (rest : list (string * json)) (G : metrics) :
  f_iterate (S depth) (JDict ((a, v) :: rest)) prefix G =
  match v with
  | JDict _ =>
      and_on (f_iterate depth v (field_name prefix a) G)
             (f_iterate (S depth) (JDict rest) prefix)
  | _ => f_iterate (S depth) (JDict rest) prefix (store_leaf (field_name prefix a) v G)
  end.
Proof.
  rewrite !f_iterate_dict. cbn [iterate_fields].
  destruct v; try reflexivity.
  destruct (f_iterate depth (JDict kvs) (field_name prefix a) G) as [G'|e G']; cbn [and_on];
    [rewrite f_iterate_dict|]; reflexivity.
Qed.

Lemma only_spaces_whitespace (s : string) :
  only_spaces s = true -> whitespace_only s = true.
Proof.
  induction s as [|c r IH]; [reflexivity|].
  cbn [only_spaces]. intros H. apply andb_true_iff in H as [Hc Hr].
  apply Ascii.eqb_eq in Hc. subst c. simpl. exact (IH Hr).
Qed.

(** C1, as amended: a one-field object [{a: v}] flattened under any prefix,
    with a frame for the call.  A finite float gives its six-decimal
    fixed-point text (3.5 gives 3.500000), an infinity or a NaN the words inf,
    -inf, nan; an int gives its decimal text (7 gives 7); a boolean is stored
    as the integer 1 or 0, which the metrics line prints as 1 or 0; a string
    that is not made of white space only gives the value 1 under the key
    name{value=...} holding the string without the spaces around it,
    sanitized, the sanitizer dropping the two angle brackets and turning
    commas and spaces into underscores; a string of spaces only (or empty), a
    null and a list give no entry.  Nothing is said of a string of white space
    that is not all spaces.  In a larger tree the field is handled the same
    way wherever it stands: a nested dict is flattened under the extended
    prefix, and a leaf stores the entry above by dict assignment. *)
Theorem flatten_leaf_formats (depth : nat) (prefix a : string) :
  let name := field_name prefix a in
  let flat := fun v => f_iterate (S depth) (JDict [(a, v)]) prefix [] in
  (forall neg m e,
      flat (JFloat (FFinite neg m e)) = Filled [(name, MStr (fixed6 neg m e))] /\
      fixed6 neg m e =
        (if neg then "-" else EmptyString) ++ pct_d (Z.of_N (scaled6 m e / 1000000))
          ++ "." ++ digits6 (scaled6 m e mod 1000000) /\
      all_digits (pct_d (Z.of_N (scaled6 m e / 1000000))) = true /\
      String.length (digits6 (scaled6 m e mod 1000000)) = 6%nat /\
      all_digits (digits6 (scaled6 m e mod 1000000)) = true) /\
  flat (JFloat (FFinite false 7 (-1))) = Filled [(name, MStr "3.500000")] /\
  (forall neg,
      flat (JFloat (FInf neg)) = Filled [(name, MStr (if neg then "-inf" else "inf"))]) /\
  flat (JFloat FNan) = Filled [(name, MStr "nan")] /\
  (forall z, flat (JInt z) = Filled [(name, MStr (pct_d z))]) /\
  flat (JInt 7) = Filled [(name, MStr "7")] /\
  (forall b, flat (JBool b) = Filled [(name, MInt (if b then 1 else 0))] /\
             mval_text (MInt (if b then 1 else 0)) = if b then "1" else "0") /\
  (forall s,
      let t := rstrip_space (lstrip_space s) in
      (only_spaces s = true -> flat (JStr s) = Filled []) /\
      (whitespace_only s = false ->
       flat (JStr s) =
         Filled [(name ++ "{value=" ++ dquote ++ sanitize t ++ dquote ++ "}", MStr "1")]) /\
      sanitize t = sanitize_by_char t) /\
  flat JNull = Filled [] /\
  (forall l, flat (JList l) = Filled []) /\
  (forall v rest G,
      f_iterate (S depth) (JDict ((a, v) :: rest)) prefix G =
      match v with
      | JDict _ =>
          and_on (f_iterate depth v name G) (f_iterate (S depth) (JDict rest) prefix)
      | _ => f_iterate (S depth) (JDict rest) prefix (store_leaf name v G)
      end) /\
  (forall v G,
      match v with
      | JDict _ => True
      | _ =>
          match flat v with
          | Filled [(k, x)] => store_leaf name v G = dict_set k x G
          | Filled [] => store_leaf name v G = G
          | _ => False
          end
      end).
Proof.
  intros name flat. subst flat. subst name. cbv beta.
  set (name := field_name prefix a).
  assert (Hstore : forall v G,
             match v with
             | JDict _ => True
             | _ =>
                 match f_iterate (S depth) (JDict [(a, v)]) prefix [] with
                 | Filled [(k, x)] => store_leaf name v G = dict_set k x G
                 | Filled [] => store_leaf name v G = G
                 | _ => False
                 end
             end).
  { intros v G.
    destruct v; try exact I;
      rewrite flatten_single_leaf by discriminate;
      unfold store_leaf; fold name;
      destruct (leaf_entry name _) as [[key value]|]; reflexivity. }
  assert (Hstr : forall s,
             f_iterate (S depth) (JDict [(a, JStr s)]) prefix [] =
             Filled (if only_spaces s then []
                     else [(name ++ "{value=" ++ dquote
                                 ++ sanitize (rstrip_space (lstrip_space s)) ++ dquote ++ "}",
                            MStr "1")])).
  { intros s. rewrite flatten_single_leaf by discriminate.
    unfold leaf_entry, leaf_value.
    rewrite length_zero_eqb, strip_empty.
    destruct (only_spaces s); [reflexivity|].
    cbn [negb]. rewrite label_key. reflexivity. }
  repeat split; intros; try apply f_iterate_step; try apply Hstore;
    try (rewrite flatten_single_leaf by discriminate; reflexivity).
  - apply pct_d_nonneg_digits.
  - apply digits6_shape.
  - destruct b; reflexivity.
  - rewrite Hstr. match goal with H : only_spaces s = true |- _ => rewrite H end.
    reflexivity.
  - rewrite Hstr. destruct (only_spaces s) eqn:Hs; [|reflexivity].
    apply only_spaces_whitespace in Hs. congruence.
  - apply sanitize_by_char_ok.
Qed.

Lemma flatten_leaf_formats_witness :
  only_spaces "  " = true /\
  f_iterate 1 (JDict [("a", JStr "  ")]) "prefix" [] = Filled [] /\
  whitespace_only " <in,valid> " = false /\
  f_iterate 1 (JDict [("a", JStr " <in,valid> ")]) "prefix" [] =
    Filled [("prefix_a{value=" ++ dquote ++ "in_valid" ++ dquote ++ "}", MStr "1")].
Proof.
  destruct (flatten_leaf_formats 0 "prefix" "a") as (_ & _ & _ & _ & _ & _ & _ & Hs & _).
  split; [reflexivity|]. split; [exact (proj1 (Hs "  ") eq_refl)|].
  split; [reflexivity|]. exact (proj1 (proj2 (Hs " <in,valid> ")) eq_refl).
Defined.

(** C1 as stated fails on a float that is not finite: an infinity is
    printed as the word inf, which is no six-decimal text. *)
Lemma flatten_inf_counterexample :
  f_iterate 1 (JDict [("a", JFloat (FInf false))]) "prefix" [] =
    Filled [("prefix_a", MStr "inf")] /\
  has_char "." "inf" = false /\ all_digits "inf" = false.
Proof. repeat split. Qed.

(** The string of one tab is white space only, and gets an entry. *)
Lemma flatten_tab_entry :
  whitespace_only tab = true /\
  f_iterate 1 (JDict [("a", JStr tab)]) "prefix" [] =
    Filled [("prefix_a{value=" ++ dquote ++ tab ++ dquote ++ "}", MStr "1")].
Proof. split; reflexivity. Qed.

(** C9, as amended: on a dict that nests no more dicts than there are frames
    the flattener returns (no exception escapes); on one that nests more it
    ends in [RecursionError], and in no other exception; and a field whose
    value is a null, a list, or a string of spaces contributes nothing: the
    walk ends as that of the dict without the field does. *)
Theorem f_iterate_within_limit (depth : nat) (kvs : list (string * json))
        (prefix : string) (G : metrics) :
  ((nesting (JDict kvs) <= depth)%nat ->
   exists G', f_iterate depth (JDict kvs) prefix G = Filled G') /\
  ((depth < nesting (JDict kvs))%nat ->
   exists G', f_iterate depth (JDict kvs) prefix G = Broke RecursionError G') /\
  (forall before f after,
      f_iterate depth (JDict (before ++ (f, JNull) :: after)%list) prefix G =
      f_iterate depth (JDict (before ++ after)%list) prefix G) /\
  (forall before f l after,
      f_iterate depth (JDict (before ++ (f, JList l) :: after)%list) prefix G =
      f_iterate depth (JDict (before ++ after)%list) prefix G) /\
  (forall before f n after,
      f_iterate depth (JDict (before ++ (f, JStr (spaces n)) :: after)%list) prefix G =
      f_iterate depth (JDict (before ++ after)%list) prefix G).
Proof.
  split; [exact (f_iterate_within (JDict kvs) kvs eq_refl depth prefix G)|].
  split; [exact (f_iterate_beyond (JDict kvs) kvs eq_refl depth prefix G)|].
  assert (Hskip : forall before f v after,
             unrecognized v = true ->
             f_iterate depth (JDict (before ++ (f, v) :: after)%list) prefix G =
             f_iterate depth (JDict (before ++ after)%list) prefix G).
  { intros before f v after Hv. destruct depth as [|depth]; [reflexivity|].
    rewrite !f_iterate_dict, !iterate_fields_app.
    destruct (iterate_fields depth prefix before G) as [G1|e G1]; simpl; [|reflexivity].
    rewrite (unrecognized_store _ _ _ Hv).
    destruct v; try discriminate; reflexivity. }
  repeat split; intros; apply Hskip; try reflexivity.
  simpl. rewrite strip_empty. apply only_spaces_spaces.
Qed.

Lemma f_iterate_within_limit_witness :
  (nesting (nested 2) <= 3)%nat /\
  (exists G', f_iterate 3 (nested 2) "tesla" [] = Filled G') /\
  (2 < nesting (nested 2))%nat /\
  (exists G', f_iterate 2 (nested 2) "tesla" [] = Broke RecursionError G').
Proof.
  split; [simpl; lia|].
  split; [exact (proj1 (f_iterate_within_limit 3 [("inner", nested 1)] "tesla" [])
                       ltac:(simpl; lia))|].
  split; [simpl; lia|].
  exact (proj1 (proj2 (f_iterate_within_limit 2 [("inner", nested 1)] "tesla" []))
               ltac:(simpl; lia)).
Defined.

(** C9 as stated fails on a deep tree: a thousand dicts one in another, around
    a last one, are more than a thousand frames take. *)
Lemma f_iterate_deep_counterexample :
  nesting (nested default_frames) = S default_frames /\
  f_iterate default_frames (nested default_frames) cfg_metrics_prefix [] =
  Broke RecursionError [].
Proof. split; [apply nested_nesting | apply nested_breaks]. Qed.

(** The examples of the header of the script and of its specification. *)
Example pct_f_examples :
  pct_f (FFinite false 7 (-1)) = "3.500000" /\
  pct_f (FFinite false 2101298662075269 (-43)) = "238.890000" /\
  pct_f (FFinite false 3602879701896397 (-55)) = "0.100000" /\
  pct_f (FFinite true 0 0) = "-0.000000" /\
  pct_f (FFinite false 1 (-21)) = "0.000000" /\
  pct_f (FFinite false 1 (-7)) = "0.007812" /\
  pct_f (FFinite false 3 (-7)) = "0.023438" /\
  pct_d (-7) = "-7" /\ pct_d 0 = "0" /\ pct_d 67 = "67".
Proof. repeat split. Qed.

Example flatten_examples :
  f_iterate default_frames
            (JDict [("a", JFloat (FFinite false 7 (-1))); ("b", JInt 7);
                    ("c", JBool true); ("d", JStr "<invalid>"); ("e", JStr EmptyString);
                    ("f", JNull);
                    ("g", JDict [("h", JStr " 2023.6.9 8b27e21d9137 ")])])
            "prefix" [] =
  Filled [("prefix_a", MStr "3.500000"); ("prefix_b", MStr "7"); ("prefix_c", MInt 1);
          ("prefix_d{value=" ++ dquote ++ "invalid" ++ dquote ++ "}", MStr "1");
          ("prefix_g_h{value=" ++ dquote ++ "2023.6.9_8b27e21d9137" ++ dquote ++ "}",
           MStr "1")].
Proof. reflexivity. Qed.

(** ** Listing the vehicle *)

Lemma rbind_ok {A B} (r : result A) (k : A -> result B) (b : B) :
  rbind r k = Ok b -> exists a, r = Ok a /\ k a = Ok b.
Proof. destruct r as [a|e]; simpl; [eauto | discriminate]. Qed.

Lemma rand_true (a b : result bool) :
  (a and_then b) = Ok true -> a = Ok true /\ b = Ok true.
Proof.
  unfold rand. intros H. apply rbind_ok in H as [t [-> H]].
  destruct t; [auto | discriminate].
Qed.

Lemma py_item_ok (v : json) (k : string) (x : json) :
  py_item v k = Ok x -> exists kvs, v = JDict kvs /\ dict_get k kvs = Some x.
Proof.
  destruct v; simpl; try discriminate.
  destruct (dict_get k kvs) eqn:E; [|discriminate].
  intros [= <-]. eauto.
Qed.

Lemma is_none_false (v : json) : negb (is_none v) = true -> v <> JNull.
Proof. destruct v; simpl; congruence. Qed.

Lemma vehicle_of_response_shape (obj : json) (x : vehicle) :
  vehicle_of_response obj = Ok (Some x) -> reports_one_vehicle obj x.
Proof.
  unfold vehicle_of_response. intros H.
  apply rbind_ok in H as [ok [Hok H]].
  destruct ok; [|discriminate H].
  apply rand_true in Hok as [_ Hok].
  apply rand_true in Hok as [_ Hok].
  apply rand_true in Hok as [Hcount Hok].
  apply rand_true in Hok as [_ Hok].
  apply rand_true in Hok as [_ Hok].
  apply rand_true in Hok as [Hlen Hok].
  apply rand_true in Hok as [_ Hok].
  apply rand_true in Hok as [_ Hstate].
  apply rbind_ok in Hcount as [c [Ec Hcount]].
  apply rbind_ok in Hlen as [r [Er Hlen]].
  apply rbind_ok in Hlen as [n [En Hlen]].
  apply rbind_ok in Hstate as [r' [Er' Hstate]].
  rewrite Er in Er'. injection Er' as <-.
  apply rbind_ok in Hstate as [r0 [Er0 Hstate]].
  apply rbind_ok in Hstate as [st [Est Hstate]].
  apply rbind_ok in H as [r' [Er' H]].
  rewrite Er in Er'. injection Er' as <-.
  apply rbind_ok in H as [r0' [Er0' H]].
  rewrite Er0 in Er0'. injection Er0' as <-.
  apply rbind_ok in H as [id [Eid H]].
  apply rbind_ok in H as [st' [Est' H]].
  rewrite Est in Est'. injection Est' as <-.
  apply rbind_ok in H as [[] [Epct H]].
  injection H as <-.
  apply py_item_ok in Er as [kvs [-> Hresp]].
  apply py_item_ok in Ec as [kvs' [[= <-] Hc]].
  apply py_item_ok in Est as [car [-> Hst]].
  apply py_item_ok in Eid as [car' [[= <-] Hid]].
  destruct r as [| | | |s|l|d]; try discriminate Er0.
  - destruct s; discriminate Er0.
  - destruct l as [|r0 l]; [discriminate Er0|].
    injection Er0 as ->. simpl in En. injection En as <-.
    destruct l; [|discriminate Hlen].
    exists kvs, c, car. simpl.
    repeat split; try assumption.
    + injection Hcount as ->. reflexivity.
    + intros ->. discriminate Epct.
    + apply is_none_false. injection Hstate as ->. reflexivity.
Qed.

(** ** Traces of the API routines *)

Lemma count_cons (p : event -> bool) (e : event) (l : list event) :
  count p (e :: l) = ((if p e then 1 else 0) + count p l)%nat.
Proof. unfold count. simpl. destruct (p e); reflexivity. Qed.

(** Evaluate the event tests on the concrete events in sight, then count. *)
Ltac known_test p :=
  lazymatch p with
  | is_attempt => idtac
  | is_transport_failure => idtac
  | is_refresh => idtac
  | is_sleep => idtac
  | is_retry_sleep => idtac
  end.

Ltac eval_tests :=
  repeat match goal with
         | |- context [if ?p ?e then _ else _] =>
             known_test p;
             let v := eval vm_compute in (p e) in
             change (p e) with v; cbv iota
         | H : context [if ?p ?e then _ else _] |- _ =>
             known_test p;
             let v := eval vm_compute in (p e) in
             change (p e) with v in H; cbv iota in H
         end.

Ltac tally :=
  cbn [world_of w_log log_event] in *; rewrite ?count_cons in *; eval_tests; lia.

(** Case analysis on the innermost scrutinee of the goal. *)
Ltac inner_destruct :=
  match goal with
  | |- context [match ?e with _ => _ end] =>
      lazymatch e with
      | context [match _ with _ => _ end] => fail
      | _ => destruct e eqn:?
      end
  end.

Lemma count_app (p : event -> bool) (l1 l2 : list event) :
  count p (l1 ++ l2)%list = (count p l1 + count p l2)%nat.
Proof. unfold count. rewrite List.filter_app, List.length_app. reflexivity. Qed.

Lemma count_le (p q : event -> bool) (l : list event) :
  (forall e, p e = true -> q e = true) -> (count p l <= count q l)%nat.
Proof.
  intros Hpq. induction l as [|e l IH]; [reflexivity|].
  rewrite !count_cons. destruct (p e) eqn:E; [rewrite (Hpq e E)|]; lia.
Qed.

Lemma extends_refl (l : list event) : extends l l.
Proof. exists []. reflexivity. Qed.

Lemma extends_cons (e : event) (l l' : list event) :
  extends l l' -> extends l (e :: l').
Proof. intros [new ->]. exists (e :: new). reflexivity. Qed.

Lemma extends_trans (l1 l2 l3 : list event) :
  extends l1 l2 -> extends l2 l3 -> extends l1 l3.
Proof.
  intros [n1 ->] [n2 ->]. exists (n2 ++ n1)%list. rewrite app_assoc. reflexivity.
Qed.

Ltac grows :=
  cbn [world_of w_log log_event];
  repeat apply extends_cons;
  first [apply extends_refl | assumption].

Section ApiFacts.

Variable py_repr : json -> string.

(** One refresh: exactly one POST to the token endpoint, no request to the
    vehicle list, no sleep, and one reply consumed. *)
Lemma refresh_trace (w : World) :
  let w' := world_of (f_update_access_token py_repr w) in
  count is_refresh (w_log w') = S (count is_refresh (w_log w)) /\
  count is_attempt (w_log w') = count is_attempt (w_log w) /\
  count is_transport_failure (w_log w') = count is_transport_failure (w_log w) /\
  count is_sleep (w_log w') = count is_sleep (w_log w) /\
  count is_retry_sleep (w_log w') = count is_retry_sleep (w_log w) /\
  w_net w' = tail (w_net w).
Proof.
  destruct w as [files locked net log].
  unfold f_update_access_token, bind, f_get_token, urlopen, lift, ret, f_save_data.
  simpl.
  repeat (inner_destruct; simpl);
    repeat split; try reflexivity; tally.
Qed.

(** The loop of [f_get_vehicle_id], whatever the network answers and
    however it ends. *)
Lemma loop_trace (retries : nat) :
  forall w : World,
    trace_within retries w (world_of (f_get_vehicle_id_loop py_repr retries w)).
Proof.
  induction retries as [|n IH]; intros w; [unfold trace_within; simpl; lia|].
  assert (Hfail : forall w1 : World,
             count is_attempt (w_log w1) = S (count is_attempt (w_log w)) ->
             count is_transport_failure (w_log w1) =
               S (count is_transport_failure (w_log w)) ->
             count is_refresh (w_log w1) = count is_refresh (w_log w) ->
             count is_sleep (w_log w1) = count is_sleep (w_log w) ->
             count is_retry_sleep (w_log w1) = count is_retry_sleep (w_log w) ->
             trace_within (S n) w (world_of
               (bind (bind (f_update_access_token py_repr) (fun _ => ret None))
                  (fun found : option vehicle =>
                     match found with
                     | Some x => ret (Some x)
                     | None => bind (sleep cfg_retry_sleep)
                                 (fun _ => f_get_vehicle_id_loop py_repr n)
                     end) w1))).
  { intros w1 Ha Hf Hr Hs Hrs.
    pose proof (refresh_trace w1) as Hw. unfold bind at 1 2.
    destruct (f_update_access_token py_repr w1) as [[] w2|e w2|w2];
      cbv zeta in Hw; unfold ret; cbv beta iota;
      try (unfold trace_within; tally).
    unfold bind, sleep.
    pose proof (IH (log_event (EvSleep cfg_retry_sleep) w2)) as Hn.
    unfold trace_within in *. tally. }
  cbn [f_get_vehicle_id_loop]. unfold bind at 1. unfold f_get_token.
  destruct (w_files w !! cfg_access_token_file) as [token|];
    [|unfold trace_within, ret; tally].
  unfold bind at 1. unfold urlopen.
  destruct (w_net w) as [|[| |parsed] rest].
  - apply Hfail; tally.
  - apply Hfail; tally.
  - unfold trace_within. tally.
  - unfold bind at 1. unfold lift.
    destruct (vehicle_of_response (default JNull parsed)) as [[x|]|e];
      try (unfold trace_within, ret; tally).
    unfold bind, sleep.
    match goal with
    | |- context [f_get_vehicle_id_loop py_repr n ?w2] => pose proof (IH w2) as Hn
    end.
    unfold trace_within in *. tally.
Qed.

Lemma refresh_extends (w : World) :
  extends (w_log w) (w_log (world_of (f_update_access_token py_repr w))).
Proof.
  destruct w as [files locked net log].
  unfold f_update_access_token, bind, f_get_token, urlopen, lift, ret, f_save_data.
  simpl.
  repeat (inner_destruct; simpl); grows.
Qed.




(** A vehicle returned by the loop was accepted from one of the replies. *)
Lemma loop_found (retries : nat) :
  forall (w w' : World) (x : vehicle),
    f_get_vehicle_id_loop py_repr retries w = Done (Some x) w' ->
    exists parsed,
      In (NetBody parsed) (w_net w) /\
      vehicle_of_response (default JNull parsed) = Ok (Some x).
Proof.
  induction retries as [|n IH]; intros w w' x; [discriminate|].
  cbn [f_get_vehicle_id_loop]. unfold bind at 1. unfold f_get_token.
  destruct (w_files w !! cfg_access_token_file) as [token|]; [|discriminate].
  unfold bind at 1. unfold urlopen.
  assert (Hfail : forall w1 : World,
             (forall r, In r (w_net w1) -> In r (w_net w)) ->
             bind (bind (f_update_access_token py_repr) (fun _ => ret None))
               (fun found : option vehicle =>
                  match found with
                  | Some x => ret (Some x)
                  | None => bind (sleep cfg_retry_sleep)
                              (fun _ => f_get_vehicle_id_loop py_repr n)
                  end) w1 = Done (Some x) w' ->
             exists parsed,
               In (NetBody parsed) (w_net w) /\
               vehicle_of_response (default JNull parsed) = Ok (Some x)).
  { intros w1 Hsub. unfold bind at 1 2.
    pose proof (refresh_trace w1) as Hw.
    destruct (f_update_access_token py_repr w1) as [[] w2|e w2|w2];
      try discriminate.
    cbv zeta in Hw. cbn [world_of] in Hw.
    destruct Hw as (_ & _ & _ & _ & _ & Hnet).
    unfold ret, bind, sleep. cbv beta iota. intros Hrun.
    apply IH in Hrun as [parsed [Hin Hok]].
    exists parsed. split; [|exact Hok].
    apply Hsub. simpl in Hin. rewrite Hnet in Hin.
    destruct (w_net w1); [destruct Hin | right; exact Hin]. }
  destruct (w_net w) as [|[| |parsed] rest] eqn:Enet.
  - apply Hfail. simpl. rewrite Enet. auto.
  - apply Hfail. simpl. intros r Hr. right. exact Hr.
  - discriminate.
  - unfold bind at 1. unfold lift.
    destruct (vehicle_of_response (default JNull parsed)) as [[y|]|e] eqn:Ev;
      try discriminate.
    + unfold ret. intros [= <- _]. exists parsed. split; [left; reflexivity | exact Ev].
    + unfold bind, sleep. cbv beta iota. intros Hrun.
      apply IH in Hrun as [parsed' [Hin Hok]].
      exists parsed'. split; [right; exact Hin | exact Hok].
Qed.

(** The token files change only on a reply that is an object holding both
    tokens. *)
Lemma refresh_persists_only_both (w : World) :
  w_files (world_of (f_update_access_token py_repr w)) <> w_files w ->
  exists kvs a r rest,
    w_net w = NetBody (Some (JDict kvs)) :: rest /\
    dict_get "access_token" kvs = Some a /\
    dict_get "refresh_token" kvs = Some r.
Proof.
  destruct w as [files locked net log].
  unfold f_update_access_token, bind, f_get_token, urlopen, lift, ret, f_save_data,
    rand, rbind, py_in, py_item, dict_has.
  simpl.
  repeat (inner_destruct; simpl); intros Hne;
    try (exfalso; apply Hne; reflexivity);
    match goal with
    | H : default JNull ?parsed = JDict _ |- _ =>
        destruct parsed as [v|]; simpl in H; [subst v | discriminate H]
    end;
    eauto 10.
Qed.


(** A reply that parses to a number or a boolean makes the refresh raise
    [TypeError] at ["access_token" in obj]; so does a string or a list that
    contains both names, at [obj["access_token"]].  The token files are as
    they were. *)
Lemma refresh_raises (files : gmap string string) (locked : gset string)
      (rest : list reply) (log : list event) (body : json) :
  match body with
  | JInt _ | JBool _ | JFloat _ => True
  | JStr s => contains "access_token" s && contains "refresh_token" s = true
  | JList l =>
      existsb (is_str "access_token") l && existsb (is_str "refresh_token") l = true
  | _ => False
  end ->
  f_update_access_token py_repr (mkWorld files locked (NetBody (Some body) :: rest) log) =
  Raised TypeError (mkWorld files locked rest (EvRequest POST token_url true :: log)).
Proof.
  unfold f_update_access_token, bind, f_get_token, urlopen, lift, ret, rand, rbind.
  simpl.
  destruct (files !! cfg_refresh_token_file); destruct body; simpl;
    try contradiction; try reflexivity;
    intros [-> ->]%andb_true_iff; reflexivity.
Qed.




End ApiFacts.




(** A reply that parses to a number makes the listing raise, not return. *)
Lemma listing_raises_on_number :
  exists w', f_get_vehicle_id no_repr (world_with [NetBody (Some (JInt 5))]) =
             Raised TypeError w'.
Proof. eexists. vm_compute. reflexivity. Qed.



(** C6: a vehicle record returned by the listing was taken from a reply that
    parsed to an object whose count equals 1 and whose response is a list of
    exactly one vehicle, the record holding that vehicle's id and state, both
    present and not null.  (An attempt whose reply is not of this shape
    returns no record: [vehicle_of_response_shape].) *)
Theorem listing_accepts_one_vehicle
        (py_repr : json -> string) (retries : nat) (w w' : World) (x : vehicle) :
  f_get_vehicle_id_loop py_repr retries w = Done (Some x) w' ->
  exists obj kvs count car,
    In (NetBody (Some obj)) (w_net w) /\
    vehicle_of_response obj = Ok (Some x) /\
    obj = JDict kvs /\
    dict_get "count" kvs = Some count /\ py_eq_one count = true /\
    dict_get "response" kvs = Some (JList [JDict car]) /\
    dict_get "id" car = Some (v_id x) /\ v_id x <> JNull /\
    dict_get "state" car = Some (v_state x) /\ v_state x <> JNull.
Proof.
  intros Hrun. apply loop_found in Hrun as [parsed [Hin Hok]].
  pose proof (vehicle_of_response_shape _ _ Hok) as (kvs & count & car & Hobj & Hrest).
  destruct parsed as [obj|]; [|discriminate Hobj]. simpl in Hobj, Hok.
  exists obj, kvs, count, car. auto.
Qed.

Lemma listing_accepts_witness :
  exists obj kvs count car,
    In (NetBody (Some obj)) [NetFail; NetFail; NetBody (Some one_vehicle_reply)] /\
    vehicle_of_response obj = Ok (Some (mkVehicle (JInt 42) (JStr "online"))) /\
    obj = JDict kvs /\
    dict_get "count" kvs = Some count /\ py_eq_one count = true /\
    dict_get "response" kvs = Some (JList [JDict car]) /\
    dict_get "id" car = Some (JInt 42) /\ JInt 42 <> JNull /\
    dict_get "state" car = Some (JStr "online") /\ JStr "online" <> JNull.
Proof.
  eapply (listing_accepts_one_vehicle no_repr cfg_api_retries
            (world_with [NetFail; NetFail; NetBody (Some one_vehicle_reply)])).
  vm_compute. reflexivity.
Defined.

(** C7 fails on a reply that is well-formed JSON but not an object: the body
    [5] makes the refresh routine raise [TypeError] to its caller (the token
    files are left as they were). *)
Theorem refresh_raises_on_number
        (py_repr : json -> string) (files : gmap string string)
        (locked : gset string) (rest : list reply) (log : list event) :
  f_update_access_token py_repr
    (mkWorld files locked (NetBody (Some (JInt 5)) :: rest) log) =
  Raised TypeError (mkWorld files locked rest (EvRequest POST token_url true :: log)).
Proof. apply refresh_raises. exact I. Qed.

(** ** Keys of the flattened dict *)

Lemma dict_set_keys_in {V : Type} (k : string) (v : V) (m : list (string * V)) (x : string) :
  In x (keys (dict_set k v m)) <-> x = k \/ In x (keys m).
Proof.
  induction m as [|[k' v'] rest IH]; simpl.
  - intuition congruence.
  - destruct (String.eqb k' k) eqn:E; simpl.
    + apply String.eqb_eq in E. subst k'. intuition congruence.
    + rewrite IH. intuition congruence.
Qed.

Lemma dict_set_nodup {V : Type} (k : string) (v : V) (m : list (string * V)) :
  NoDup (keys m) -> NoDup (keys (dict_set k v m)).
Proof.
  induction m as [|[k' v'] rest IH]; simpl; intros Hnd.
  - apply NoDup_singleton.
  - destruct (String.eqb k' k) eqn:E; simpl; [exact Hnd|].
    apply NoDup_cons in Hnd as [Hnotin Hnd].
    apply NoDup_cons. split; [|apply IH; exact Hnd].
    intros Hin. apply list_elem_of_In in Hin.
    apply (dict_set_keys_in k v rest k') in Hin as [->|Hin].
    + rewrite String.eqb_refl in E. discriminate.
    + apply Hnotin. apply list_elem_of_In. exact Hin.
Qed.

Lemma store_leaf_keys (name : string) (v : json) (G : metrics) :
  (NoDup (keys G) -> NoDup (keys (store_leaf name v G))) /\
  (forall k, In k (keys G) -> In k (keys (store_leaf name v G))).
Proof.
  unfold store_leaf. destruct (leaf_entry name v) as [[m value]|]; [|auto].
  split; [apply dict_set_nodup|].
  intros k Hk. apply dict_set_keys_in. right. exact Hk.
Qed.

Lemma store_leaf_adds (name : string) (v : json) (G : metrics) (k : string) (x : mval) :
  leaf_entry name v = Some (k, x) -> In k (keys (store_leaf name v G)).
Proof.
  unfold store_leaf. intros ->. apply dict_set_keys_in. left. reflexivity.
Qed.

Lemma and_on_filled (r : walk) (k : metrics -> walk) (G' : metrics) :
  and_on r k = Filled G' -> exists G1, r = Filled G1 /\ k G1 = Filled G'.
Proof. destruct r as [G1|e G1]; simpl; [eauto | discriminate]. Qed.

(** The flattener only adds or overwrites entries, and keeps the keys
    distinct, also when an exception cuts it short. *)
Lemma f_iterate_keys_aux (v : json) :
  forall kvs, v = JDict kvs ->
  forall depth prefix G,
    (NoDup (keys G) -> NoDup (keys (written (f_iterate depth v prefix G)))) /\
    (forall k, In k (keys G) -> In k (keys (written (f_iterate depth v prefix G)))).
Proof.
  induction v using json_ind; intros kvs' Heq; try discriminate.
  injection Heq as ->. intros depth prefix G.
  destruct depth as [|depth]; [simpl; auto|].
  rewrite f_iterate_dict.
  revert G. induction H as [|[f v] rest Hv _ IH]; intros G; simpl in *.
  - auto.
  - destruct v;
      try (match goal with
           | |- context [store_leaf ?n ?x G] =>
               destruct (store_leaf_keys n x G) as [Hnd0 Hin0];
               destruct (IH (store_leaf n x G)) as [Hnd Hin]
           end; split; auto).
    destruct (Hv kvs eq_refl depth (field_name prefix f) G) as [Hnd1 Hin1].
    destruct (f_iterate depth (JDict kvs) (field_name prefix f) G) as [G1|e G1];
      simpl in *; [|auto].
    destruct (IH G1) as [Hnd Hin]. split; auto.
Qed.

Lemma f_iterate_keys (depth : nat) (kvs : list (string * json)) (prefix : string)
      (G : metrics) :
  (NoDup (keys G) -> NoDup (keys (written (f_iterate depth (JDict kvs) prefix G)))) /\
  (forall k, In k (keys G) -> In k (keys (written (f_iterate depth (JDict kvs) prefix G)))).
Proof. exact (f_iterate_keys_aux (JDict kvs) kvs eq_refl depth prefix G). Qed.

Lemma iterate_fields_keys (depth : nat) (kvs : list (string * json)) (prefix : string)
      (G G' : metrics) :
  iterate_fields depth prefix kvs G = Filled G' ->
  (NoDup (keys G) -> NoDup (keys G')) /\
  (forall k, In k (keys G) -> In k (keys G')).
Proof.
  intros Hrun. pose proof (f_iterate_keys (S depth) kvs prefix G) as H.
  rewrite f_iterate_dict, Hrun in H. exact H.
Qed.

(** A leaf field of the dict has its key in the result. *)
Lemma iterate_fields_leaf (depth : nat) (prefix f : string) (v : json) (k : string)
      (x : mval) :
  forall (kvs : list (string * json)) (G G' : metrics),
    dict_get f kvs = Some v ->
    leaf_entry (field_name prefix f) v = Some (k, x) ->
    (forall d, v <> JDict d) ->
    iterate_fields depth prefix kvs G = Filled G' ->
    In k (keys G').
Proof.
  intros kvs G G' Hget Hleaf Hnd. revert G.
  induction kvs as [|[f' v'] rest IH]; intros G; simpl in *; [discriminate|].
  destruct (String.eqb f' f) eqn:E.
  - apply String.eqb_eq in E. subst f'. injection Hget as ->.
    assert (Hrest : forall G1, iterate_fields depth prefix rest G1 = Filled G' ->
                               In k (keys G1) -> In k (keys G')).
    { intros G1 Hrun. apply iterate_fields_keys in Hrun as [_ Hin]. apply Hin. }
    destruct v; try (intros Hrun; apply (Hrest _ Hrun);
                     apply (store_leaf_adds _ _ _ _ _ Hleaf)).
    exfalso. exact (Hnd kvs eq_refl).
  - destruct v'; try (apply IH; exact Hget).
    intros Hrun. apply and_on_filled in Hrun as [G1 [_ Hrun]]. exact (IH Hget G1 Hrun).
Qed.

(** A key produced inside a nested dict is in the result. *)
Lemma iterate_fields_nested (depth : nat) (prefix f : string) (d : list (string * json))
      (k : string) :
  forall (kvs : list (string * json)) (G G' : metrics),
    dict_get f kvs = Some (JDict d) ->
    (forall G0 G1, f_iterate depth (JDict d) (field_name prefix f) G0 = Filled G1 ->
                   In k (keys G1)) ->
    iterate_fields depth prefix kvs G = Filled G' ->
    In k (keys G').
Proof.
  intros kvs G G' Hget Hd. revert G.
  induction kvs as [|[f' v'] rest IH]; intros G; simpl in *; [discriminate|].
  destruct (String.eqb f' f) eqn:E.
  - apply String.eqb_eq in E. subst f'. injection Hget as ->.
    intros Hrun. apply and_on_filled in Hrun as [G1 [Hnested Hrun]].
    apply Hd in Hnested.
    apply iterate_fields_keys in Hrun as [_ Hin]. apply Hin. exact Hnested.
  - destruct v'; try (apply IH; exact Hget).
    intros Hrun. apply and_on_filled in Hrun as [G1 [_ Hrun]]. exact (IH Hget G1 Hrun).
Qed.

(** ** The main loop *)

Lemma Qgtb_lt (a b : Q) : Qgtb a b = true <-> (b < a)%Q.
Proof.
  unfold Qgtb. rewrite negb_true_iff.
  split.
  - intros H. apply Qnot_le_lt. intros Hle.
    apply Qle_bool_iff in Hle. congruence.
  - intros H. destruct (Qle_bool a b) eqn:E; [|reflexivity].
    apply Qle_bool_iff in E. exfalso. exact (Qlt_not_le _ _ H E).
Qed.

Lemma Qgtb_le (a b : Q) : Qgtb a b = false <-> (a <= b)%Q.
Proof.
  unfold Qgtb. rewrite negb_false_iff. apply Qle_bool_iff.
Qed.

Lemma is_str_eq (s : string) (v : json) : is_str s v = true -> v = JStr s.
Proof.
  destruct v; simpl; try discriminate.
  intros H. apply String.eqb_eq in H. congruence.
Qed.

Lemma shift_state_is_D_drives (resp : json) (b : bool) :
  shift_state_is_D resp = Ok b -> b = drives resp.
Proof.
  unfold shift_state_is_D, drives, shift_state_of, rand, rbind, py_in, py_item, dict_has.
  destruct resp as [| | | | s | l | kvs]; simpl; try discriminate.
  - destruct (contains "drive_state" s); [discriminate | intros [= <-]; reflexivity].
  - destruct (existsb (is_str "drive_state") l);
      [discriminate | intros [= <-]; reflexivity].
  - destruct (dict_get "drive_state" kvs) as [d|]; [|intros [= <-]; reflexivity].
    destruct d as [| | | | s | l | d]; simpl; try discriminate.
    + destruct (contains "shift_state" s); [discriminate | intros [= <-]; reflexivity].
    + destruct (existsb (is_str "shift_state") l);
        [discriminate | intros [= <-]; reflexivity].
    + destruct (dict_get "shift_state" d) as [sh|]; [|intros [= <-]; reflexivity].
      destruct (negb (is_none sh)) eqn:E; simpl.
      * intros [= <-]. reflexivity.
      * intros [= <-]. destruct sh; try discriminate E. reflexivity.
Qed.

Lemma drives_shift_state_is_D (resp : json) :
  drives resp = true -> shift_state_is_D resp = Ok true.
Proof.
  unfold shift_state_is_D, drives, shift_state_of, rand, rbind, py_in, py_item, dict_has.
  destruct resp as [| | | | s | l | kvs]; simpl; try discriminate.
  destruct (dict_get "drive_state" kvs) as [d|]; [|discriminate].
  destruct d as [| | | | s | l | d]; simpl; try discriminate.
  destruct (dict_get "shift_state" d) as [sh|]; [|discriminate].
  intros H. rewrite H. apply is_str_eq in H. subst sh. reflexivity.
Qed.

(** The payload test passes only on an object whose [response] is an object
    with [state] equal to ["online"]. *)
Lemma payload_online_shape (obj : json) :
  payload_online obj = Ok true ->
  exists kvs r,
    obj = JDict kvs /\ dict_get "response" kvs = Some (JDict r) /\
    dict_get "state" r = Some (JStr "online").
Proof.
  unfold payload_online. intros H.
  apply rand_true in H as [_ H].
  apply rand_true in H as [_ H].
  apply rand_true in H as [_ H].
  apply rand_true in H as [_ H].
  apply rand_true in H as [_ H].
  apply rbind_ok in H as [r [Er H]].
  apply rbind_ok in H as [st [Est H]].
  apply py_item_ok in Er as [kvs [-> Hr]].
  apply py_item_ok in Est as [r' [-> Hst]].
  injection H as H. apply is_str_eq in H. subst st. eauto.
Qed.

Lemma two_distinct_length {A : Type} (a b : A) (l : list A) :
  In a l -> In b l -> a <> b -> (1 < List.length l)%nat.
Proof.
  destruct l as [|x [|y l]]; simpl; intros Ha Hb Hne; [tauto | | lia].
  destruct Ha as [Ha|[]]. destruct Hb as [Hb|[]]. congruence.
Qed.

(** An online payload in drive is never too small to publish: its state and
    its shift state give two different entries. *)
Lemma driving_payload_size (frames : nat) (r : list (string * json)) (new : metrics) :
  dict_get "state" r = Some (JStr "online") ->
  drives (JDict r) = true ->
  f_iterate frames (JDict r) cfg_metrics_prefix [] = Filled new ->
  (1 < List.length new)%nat.
Proof.
  intros Hstate Hdrive. destruct frames as [|depth]; [discriminate|].
  rewrite f_iterate_dict. intros Hrun.
  unfold drives, shift_state_of in Hdrive.
  destruct (dict_get "drive_state" r) as [d|] eqn:Ed; [|discriminate].
  destruct d as [| | | | | |d]; try discriminate.
  destruct (dict_get "shift_state" d) as [sh|] eqn:Esh; [|discriminate].
  apply is_str_eq in Hdrive. subst sh.
  assert (H1 : In ("tesla_state{value=" ++ dquote ++ "online" ++ dquote ++ "}") (keys new)).
  { eapply (iterate_fields_leaf depth cfg_metrics_prefix "state" (JStr "online"));
      [exact Hstate | reflexivity | discriminate | exact Hrun]. }
  assert (H2 : In ("tesla_drive_state_shift_state{value=" ++ dquote ++ "D" ++ dquote ++ "}")
                  (keys new)).
  { eapply (iterate_fields_nested depth cfg_metrics_prefix "drive_state" d);
      [exact Ed | | exact Hrun].
    intros G0 G1 Hd. destruct depth as [|depth']; [discriminate Hd|].
    rewrite f_iterate_dict in Hd.
    eapply (iterate_fields_leaf depth' (field_name cfg_metrics_prefix "drive_state")
              "shift_state" (JStr "D"));
      [exact Esh | reflexivity | discriminate | exact Hd]. }
  unfold keys in H1, H2.
  pose proof (two_distinct_length _ _ _ H1 H2) as Hlen.
  rewrite length_map in Hlen. apply Hlen. discriminate.
Qed.

(** What the reload does to the globals, case by case. *)
Lemma poll_reload_inv (frames : nat) (age : Q) (obj : json) (g : Globals) :
  (exists resp new,
      payload_online obj = Ok true /\
      py_item obj "response" = Ok resp /\
      f_iterate frames resp cfg_metrics_prefix [] = Filled new /\
      (1 < List.length new)%nat /\
      ((exists e, shift_state_is_D resp = Raise e /\
                  poll_reload frames age obj g = Crashed e (publish new age g)) \/
       (exists b, shift_state_is_D resp = Ok b /\
                  poll_reload frames age obj g =
                  Completed (set_poll_freq
                               (if b then cfg_drive_interval else cfg_check_interval)
                               (publish new age g))))) \/
  (G_metrics_cur (globals_of (poll_reload frames age obj g)) = G_metrics_cur g /\
   G_last_load (globals_of (poll_reload frames age obj g)) = G_last_load g /\
   poll_freq (globals_of (poll_reload frames age obj g)) = poll_freq g).
Proof.
  unfold poll_reload.
  destruct (payload_online obj) as [[|]|e] eqn:Eon; [|right; auto|right; auto].
  destruct (py_item obj "response") as [resp|e] eqn:Eresp; [|right; auto].
  destruct (f_iterate frames resp cfg_metrics_prefix []) as [new|e new] eqn:Erun;
    [|right; auto].
  destruct (1 <? List.length new)%nat eqn:Elen; [|right; auto].
  apply Nat.ltb_lt in Elen.
  left. exists resp, new. repeat split; try assumption.
  destruct (shift_state_is_D resp) as [b|e]; [right | left; eauto].
  exists b. split; [reflexivity|]. destruct b; reflexivity.
Qed.

Lemma poll_reload_ok (frames : nat) (age : Q) (obj : json) (g : Globals) :
  snapshot_ok g -> snapshot_ok (globals_of (poll_reload frames age obj g)).
Proof.
  intros Hok.
  destruct (poll_reload_inv frames age obj g)
    as [(resp & new & Hon & Hresp & Hrun & Hlen & Hend)|(Hcur & _)].
  - assert (Hnew : snapshot_ok (publish new age g)).
    { unfold snapshot_ok. simpl. split; [exact Hlen|].
      apply payload_online_shape in Hon as (kvs & r & -> & Hr & _).
      simpl in Hresp. rewrite Hr in Hresp. injection Hresp as <-.
      pose proof (f_iterate_keys frames r cfg_metrics_prefix []) as [Hnd _].
      rewrite Hrun in Hnd. apply Hnd. constructor. }
    destruct Hend as [(e & _ & ->)|(b & _ & ->)]; exact Hnew.
  - unfold snapshot_ok in *. rewrite Hcur. exact Hok.
Qed.

Lemma stale_check_ok (age now : Q) (g : Globals) :
  snapshot_ok g -> snapshot_ok (stale_check age now g).
Proof.
  unfold stale_check, snapshot_ok.
  destruct (G_metrics_cur g) eqn:E; [|rewrite E; auto].
  destruct (Qgtb (now - age) (inject_Z cfg_stale_thres)); simpl; [auto | rewrite E; auto].
Qed.

Lemma poll_cycle_ok (frames : nat) (c : Cycle) (g : Globals) :
  snapshot_ok g -> snapshot_ok (globals_of (poll_cycle frames c g)).
Proof.
  intros Hok. unfold poll_cycle, poll_tail, reload_if_newer.
  set (g0 := loop_head (c_now c) (c_vehicle c) g).
  assert (H0 : snapshot_ok g0) by exact Hok.
  destruct (Qgtb (f_get_file_age (c_disk c) cfg_vehicle_data_file) (G_last_load g0)).
  - pose proof (poll_reload_ok frames (f_get_file_age (c_disk c) cfg_vehicle_data_file)
                  (f_load_json (c_disk c) cfg_vehicle_data_file) g0 H0) as H1.
    destruct (poll_reload _ _ _ g0) as [g1|e g1]; simpl in *; [|exact H1].
    exact (stale_check_ok _ _ _ H1).
  - simpl. exact (stale_check_ok _ _ _ H0).
Qed.

Lemma poll_loop_ok (frames : nat) (cycles : list Cycle) :
  forall g, snapshot_ok g -> snapshot_ok (globals_of (poll_loop frames cycles g)).
Proof.
  induction cycles as [|c rest IH]; intros g Hok; simpl; [exact Hok|].
  pose proof (poll_cycle_ok frames c g Hok) as H1.
  destruct (poll_cycle frames c g) as [g1|e g1]; simpl in *;
    [apply IH; exact H1 | exact H1].
Qed.

(** C3: the reload either leaves the published snapshot and the recorded load
    age as they were, or replaces the snapshot by the freshly flattened
    entries, which are more than one, and records the file age, which is
    later than the one recorded before.  So in every state the loop reaches,
    a published snapshot has at least two entries. *)
Theorem publish_guard (frames : nat) :
  (forall (age : Q) (obj : json) (g : Globals),
      let g' := globals_of (poll_reload frames age obj g) in
      (G_metrics_cur g' = G_metrics_cur g /\ G_last_load g' = G_last_load g) \/
      (exists resp new,
          py_item obj "response" = Ok resp /\
          f_iterate frames resp cfg_metrics_prefix [] = Filled new /\
          (1 < List.length new)%nat /\
          G_metrics_cur g' = Some new /\ G_last_load g' = age)) /\
  (forall (disk : Disk) (g : Globals),
      let g' := globals_of (reload_if_newer frames disk g) in
      (G_metrics_cur g' = G_metrics_cur g /\ G_last_load g' = G_last_load g) \/
      (exists new,
          (1 < List.length new)%nat /\
          G_metrics_cur g' = Some new /\
          G_last_load g' = f_get_file_age disk cfg_vehicle_data_file /\
          (G_last_load g < G_last_load g')%Q)) /\
  (forall (cycles : list Cycle) (disk : Disk) (start : Q),
      match G_metrics_cur (globals_of (poll_loop frames cycles
                                         (initial_globals disk start))) with
      | Some m => (1 < List.length m)%nat
      | None => True
      end).
Proof.
  assert (Hreload : forall (age : Q) (obj : json) (g : Globals),
             let g' := globals_of (poll_reload frames age obj g) in
             (G_metrics_cur g' = G_metrics_cur g /\ G_last_load g' = G_last_load g) \/
             (exists resp new,
                 py_item obj "response" = Ok resp /\
                 f_iterate frames resp cfg_metrics_prefix [] = Filled new /\
                 (1 < List.length new)%nat /\
                 G_metrics_cur g' = Some new /\ G_last_load g' = age)).
  { intros age obj g g'. subst g'.
    destruct (poll_reload_inv frames age obj g)
      as [(resp & new & Hon & Hresp & Hrun & Hlen & Hend)|(Hcur & Hload & _)];
      [right | left; auto].
    exists resp, new.
    destruct Hend as [(e & _ & ->)|(b & _ & ->)]; simpl; auto. }
  split; [exact Hreload|]. split.
  - intros disk g. unfold reload_if_newer.
    destruct (Qgtb (f_get_file_age disk cfg_vehicle_data_file) (G_last_load g)) eqn:Enew;
      [|left; auto].
    apply Qgtb_lt in Enew.
    destruct (Hreload (f_get_file_age disk cfg_vehicle_data_file)
                (f_load_json disk cfg_vehicle_data_file) g)
      as [Hsame|(resp & new & _ & _ & Hlen & Hcur & Hload)]; [left; exact Hsame|].
    right. exists new. cbv zeta. rewrite Hload. auto.
  - intros cycles disk start.
    pose proof (poll_loop_ok frames cycles (initial_globals disk start) I) as Hok.
    unfold snapshot_ok in Hok.
    destruct (G_metrics_cur _); [apply Hok | exact I].
Qed.

(** C4 as stated fails when the file age read in the cycle is not the age at
    which the published snapshot was acquired: a snapshot acquired at 909 is
    still published at 1000, 91 seconds later, because the data file was
    rewritten at 990 with a payload that was not loaded. *)
Lemma stale_check_counterexample :
  let cycle := mkCycle 999 car_online (disk_with 990 payload_asleep) 1000 1001 in
  let g := after_load payload_parked in
  let g' := globals_of (poll_cycle default_frames cycle g) in
  G_last_load g = 909%Q /\
  G_metrics_cur g <> None /\
  Qgtb (c_stale_now cycle - G_last_load g) (inject_Z cfg_stale_thres) = true /\
  G_last_load g' = 909%Q /\
  G_metrics_cur g' = G_metrics_cur g.
Proof. vm_compute. repeat split; discriminate. Qed.

(** C4, as amended: in a cycle whose reload raises nothing, the staleness
    check compares the clock with the age of the data file as read in that
    cycle, which is the acquisition age of the snapshot when the file was
    just loaded or has not changed since.  Whatever the reload left published
    is cleared when the clock minus that age exceeds [cfg_stale_thres], and
    kept, with everything else, when it does not; with the default 90
    seconds, a file age of [now - 91] clears the snapshot and one of
    [now - 89] keeps it. *)
Theorem stale_check_by_file_age (frames : nat) (disk : Disk) (now : Q) (g g1 : Globals) :
  reload_if_newer frames disk g = Completed g1 ->
  let age := f_get_file_age disk cfg_vehicle_data_file in
  poll_tail frames disk now g = Completed (stale_check age now g1) /\
  ((inject_Z cfg_stale_thres < now - age)%Q ->
   G_metrics_cur (stale_check age now g1) = None) /\
  ((now - age <= inject_Z cfg_stale_thres)%Q -> stale_check age now g1 = g1) /\
  (forall g2, G_metrics_cur (stale_check (now - 91) now g2) = None) /\
  (forall g2, stale_check (now - 89) now g2 = g2).
Proof.
  intros Hreload age. unfold poll_tail. rewrite Hreload. fold age.
  split; [reflexivity|].
  assert (Hclear : forall a g2, (inject_Z cfg_stale_thres < now - a)%Q ->
                                G_metrics_cur (stale_check a now g2) = None).
  { intros a g2 Hlt. unfold stale_check.
    destruct (G_metrics_cur g2) eqn:E; [|exact E].
    apply Qgtb_lt in Hlt. rewrite Hlt. reflexivity. }
  assert (Hkeep : forall a g2, (now - a <= inject_Z cfg_stale_thres)%Q ->
                               stale_check a now g2 = g2).
  { intros a g2 Hle. unfold stale_check.
    destruct (G_metrics_cur g2); [|reflexivity].
    apply Qgtb_le in Hle. rewrite Hle. reflexivity. }
  repeat split.
  - apply Hclear.
  - apply Hkeep.
  - intros g2. apply Hclear. unfold cfg_stale_thres, inject_Z. lra.
  - intros g2. apply Hkeep. unfold cfg_stale_thres, inject_Z. lra.
Qed.

Lemma stale_check_witness :
  poll_tail default_frames (disk_with 909 payload_parked) 1000 (after_load payload_parked) =
  Completed (stale_check 909 1000 (after_load payload_parked)) /\
  G_metrics_cur (stale_check 909 1000 (after_load payload_parked)) = None.
Proof.
  destruct (stale_check_by_file_age default_frames (disk_with 909 payload_parked) 1000
              (after_load payload_parked) (after_load payload_parked))
    as (Htail & Hclear & _).
  - vm_compute. reflexivity.
  - split; [exact Htail|]. apply Hclear. vm_compute. reflexivity.
Defined.

(** C5 as stated fails for a payload that is parsed but not published: after
    a payload in drive has set the interval to 25 seconds, a newer payload
    without [drive_state] (a single entry, so not published), or one whose
    state is not online, leaves the interval at 25. *)
Lemma interval_counterexample :
  let g := after_load payload_driving in
  let bare := mkCycle 949 car_online (disk_with 950 payload_bare) 951 952 in
  let asleep := mkCycle 949 car_online (disk_with 950 payload_asleep) 951 952 in
  poll_freq g = cfg_drive_interval /\
  shift_state_of (JDict [("state", JStr "online")]) = None /\
  (exists g', poll_cycle default_frames bare g = Completed g' /\
              poll_freq g' = cfg_drive_interval) /\
  (exists g', poll_cycle default_frames asleep g = Completed g' /\
              poll_freq g' = cfg_drive_interval) /\
  cfg_drive_interval <> cfg_check_interval.
Proof.
  cbv zeta. split; [vm_compute; reflexivity|].
  split; [reflexivity|].
  split; [eexists; split; vm_compute; reflexivity|].
  split; [eexists; split; vm_compute; reflexivity|].
  discriminate.
Qed.

(** C5, as amended: a reload that runs to its end either publishes the
    payload (its state is online and it flattens to more than one entry) and
    then selects the drive interval if [response.drive_state.shift_state] is
    ["D"] and the normal interval for any other value or a missing field, or
    it publishes nothing and leaves the interval as it was.  An accepted
    payload in drive that nests no more dicts than the walk has frames is
    always published, and the reload runs to its end. *)
Theorem interval_selection (frames : nat) (age : Q) (obj : json) (g : Globals) :
  (forall g',
      poll_reload frames age obj g = Completed g' ->
      (exists resp new,
          payload_online obj = Ok true /\
          py_item obj "response" = Ok resp /\
          f_iterate frames resp cfg_metrics_prefix [] = Filled new /\
          (1 < List.length new)%nat /\
          G_metrics_cur g' = Some new /\
          poll_freq g' = if drives resp then cfg_drive_interval else cfg_check_interval) \/
      (G_metrics_cur g' = G_metrics_cur g /\ poll_freq g' = poll_freq g)) /\
  (forall resp,
      payload_online obj = Ok true ->
      py_item obj "response" = Ok resp ->
      drives resp = true ->
      (nesting resp <= frames)%nat ->
      exists new,
        f_iterate frames resp cfg_metrics_prefix [] = Filled new /\
        poll_reload frames age obj g =
        Completed (set_poll_freq cfg_drive_interval (publish new age g))).
Proof.
  split.
  - intros g' Hrun.
    destruct (poll_reload_inv frames age obj g)
      as [(resp & new & Hon & Hresp & Hflat & Hlen & Hend)|(Hcur & _ & Hfreq)].
    + left. exists resp, new.
      destruct Hend as [(e & _ & Hcrash)|(b & Hb & Hdone)]; [congruence|].
      rewrite Hdone in Hrun. injection Hrun as <-.
      apply shift_state_is_D_drives in Hb. subst b.
      repeat split; assumption.
    + right. rewrite Hrun in Hcur, Hfreq. auto.
  - intros resp Hon Hresp Hdrive Hdepth.
    apply payload_online_shape in Hon as Hshape.
    destruct Hshape as (kvs & r & -> & Hr & Hstate).
    simpl in Hresp. rewrite Hr in Hresp. injection Hresp as <-.
    destruct (f_iterate_within (JDict r) r eq_refl frames cfg_metrics_prefix [] Hdepth)
      as [new Hflat].
    exists new. split; [exact Hflat|].
    pose proof (driving_payload_size frames r new Hstate Hdrive Hflat) as Hlen.
    unfold poll_reload. rewrite Hon. simpl. rewrite Hr, Hflat.
    apply Nat.ltb_lt in Hlen. rewrite Hlen.
    rewrite (drives_shift_state_is_D _ Hdrive). reflexivity.
Qed.

Lemma interval_selection_witness :
  exists new,
    f_iterate default_frames
      (JDict [("state", JStr "online");
              ("drive_state", JDict [("shift_state", JStr "D")])])
      cfg_metrics_prefix [] = Filled new /\
    poll_reload default_frames 909 payload_driving (initial_globals no_disk 900) =
    Completed (set_poll_freq cfg_drive_interval
                 (publish new 909 (initial_globals no_disk 900))).
Proof.
  apply (proj2 (interval_selection default_frames 909 payload_driving
                  (initial_globals no_disk 900)));
    try reflexivity.
  vm_compute. lia.
Defined.

(** The recorded load age is a file age of some cycle, or the one of line
    499: with file times after the epoch it is never below -1. *)
Lemma last_load_of_cycle (frames : nat) (c : Cycle) (g : Globals) :
  G_last_load (globals_of (poll_cycle frames c g)) = G_last_load g \/
  G_last_load (globals_of (poll_cycle frames c g)) =
    f_get_file_age (c_disk c) cfg_vehicle_data_file.
Proof.
  unfold poll_cycle, poll_tail, reload_if_newer.
  set (g0 := loop_head (c_now c) (c_vehicle c) g).
  set (age := f_get_file_age (c_disk c) cfg_vehicle_data_file).
  assert (Hstale : forall g1, G_last_load (stale_check age (c_stale_now c) g1) =
                              G_last_load g1).
  { intros g1. unfold stale_check. destruct (G_metrics_cur g1); [|reflexivity].
    destruct (Qgtb _ _); reflexivity. }
  destruct (Qgtb age (G_last_load g0)).
  - destruct (poll_reload_inv frames age (f_load_json (c_disk c) cfg_vehicle_data_file) g0)
      as [(resp & new & _ & _ & _ & _ & Hend)|(_ & Hload & _)].
    + right. destruct Hend as [(e & _ & ->)|(b & _ & ->)]; [reflexivity|].
      simpl. rewrite Hstale. reflexivity.
    + left. destruct (poll_reload _ _ _ g0) as [g1|e g1]; simpl in *;
        [rewrite Hstale|]; exact Hload.
  - left. simpl. rewrite Hstale. reflexivity.
Qed.

Lemma last_load_bound (frames : nat) (cycles : list Cycle) :
  forall g : Globals,
    Forall (fun c => mtime_from_epoch (c_disk c)) cycles ->
    (-1 <= G_last_load g)%Q ->
    (-1 <= G_last_load (globals_of (poll_loop frames cycles g)))%Q.
Proof.
  induction cycles as [|c rest IH]; intros g Hdisks Hg; [exact Hg|].
  apply Forall_cons in Hdisks as [Hc Hrest].
  assert (H1 : (-1 <= G_last_load (globals_of (poll_cycle frames c g)))%Q).
  { destruct (last_load_of_cycle frames c g) as [->| ->]; [exact Hg|].
    unfold f_get_file_age, mtime_from_epoch in *.
    destruct (fv_mtime (c_disk c cfg_vehicle_data_file)); lra. }
  simpl. destruct (poll_cycle frames c g) as [g1|e g1]; simpl in *;
    [apply IH; assumption | exact H1].
Qed.

(** C10: when [os.stat] of the data file fails the file age is -1; with a
    recorded load age that is not below -1 (no file time is) nothing is
    reloaded, and with a clock later than 89 seconds after the epoch the
    staleness check clears whatever snapshot is published, however recently
    it was acquired; the other globals are as they were. *)
Theorem stat_failure_clears (frames : nat) (disk : Disk) (now : Q) (g : Globals) :
  fv_mtime (disk cfg_vehicle_data_file) = None ->
  (-1 <= G_last_load g)%Q ->
  (inject_Z cfg_stale_thres - 1 < now)%Q ->
  f_get_file_age disk cfg_vehicle_data_file = (-1)%Q /\
  reload_if_newer frames disk g = Completed g /\
  poll_tail frames disk now g = Completed (clear_cur g) /\
  G_metrics_cur (clear_cur g) = None /\
  G_last_load (clear_cur g) = G_last_load g /\
  poll_freq (clear_cur g) = poll_freq g.
Proof.
  intros Hstat Hload Hnow.
  assert (Hage : f_get_file_age disk cfg_vehicle_data_file = (-1)%Q).
  { unfold f_get_file_age. rewrite Hstat. reflexivity. }
  assert (Hreload : reload_if_newer frames disk g = Completed g).
  { unfold reload_if_newer. rewrite Hage.
    apply Qgtb_le in Hload. rewrite Hload. reflexivity. }
  repeat split; try assumption.
  unfold poll_tail. rewrite Hreload, Hage. f_equal.
  unfold stale_check.
  destruct g as [cur new load loop online freq start]. simpl in *.
  destruct cur; [|reflexivity].
  assert (Hlt : (inject_Z cfg_stale_thres < now - -1)%Q) by lra.
  apply Qgtb_lt in Hlt. rewrite Hlt. reflexivity.
Qed.

Lemma stat_failure_witness :
  poll_tail default_frames no_disk 910 (after_load payload_parked) =
  Completed (clear_cur (after_load payload_parked)) /\
  G_metrics_cur (after_load payload_parked) <> None /\
  G_last_load (after_load payload_parked) = 909%Q.
Proof.
  destruct (stat_failure_clears default_frames no_disk 910 (after_load payload_parked))
    as (_ & _ & Htail & _).
  - reflexivity.
  - vm_compute. discriminate.
  - vm_compute. reflexivity.
  - split; [exact Htail|]. vm_compute. split; [discriminate | reflexivity].
Defined.

(** ** The metrics endpoint *)

Lemma dict_get_app_notin {V : Type} (k : string) (pre l : list (string * V)) :
  ~ In k (keys pre) -> dict_get k (pre ++ l)%list = dict_get k l.
Proof.
  induction pre as [|[k' v'] pre IH]; simpl; intros Hnotin; [reflexivity|].
  destruct (String.eqb k' k) eqn:E.
  - apply String.eqb_eq in E. exfalso. apply Hnotin. left. exact E.
  - apply IH. intros Hin. apply Hnotin. right. exact Hin.
Qed.

Lemma mval_text_value (v : mval) : mval_text v = value_text v.
Proof. destruct v; reflexivity. Qed.

Lemma last_in {A : Type} (l : list A) (d : A) : In (List.last l d) (d :: l).
Proof.
  induction l as [|x l IH]; [left; reflexivity|].
  destruct l as [|y l]; [right; left; reflexivity|].
  change (List.last (x :: y :: l) d) with (List.last (y :: l) d).
  destruct IH as [IH|IH]; [left; exact IH | right; right; exact IH].
Qed.

Lemma seen_steady (g : Globals) (later : list Globals) (i : nat) :
  steady g later -> G_metrics_cur (seen i g later) = G_metrics_cur g.
Proof.
  intros Hs.
  assert (Hall : forall g', In g' (g :: later) -> G_metrics_cur g' = G_metrics_cur g).
  { intros g' [<-|Hin]; [reflexivity|].
    unfold steady in Hs. rewrite List.Forall_forall in Hs. exact (Hs g' Hin). }
  unfold seen.
  destruct (nth_in_or_default i (g :: later) (List.last later g)) as [Hin | Hd]; [|rewrite Hd].
  - exact (Hall _ Hin).
  - apply Hall. apply last_in.
Qed.

Lemma metrics_lines_render (g : Globals) (later : list Globals) (rest : metrics) :
  forall (pre : metrics) (i : nat),
    steady g later ->
    G_metrics_cur g = Some (pre ++ rest)%list ->
    NoDup (keys (pre ++ rest)%list) ->
    metrics_lines (keys rest) i g later = Ok (render rest).
Proof.
  induction rest as [|[k v] rest IH]; intros pre i Hs Hcur Hnd; [reflexivity|].
  cbn [keys List.map fst metrics_lines].
  rewrite (seen_steady g later i Hs), Hcur.
  rewrite dict_get_app_notin.
  - simpl. rewrite String.eqb_refl.
    fold (keys rest). rewrite (IH (pre ++ [(k, v)])%list (S i) Hs).
    + simpl. unfold metric_line. simpl.
      rewrite mval_text_value, !append_assoc3. reflexivity.
    + rewrite <- app_assoc. exact Hcur.
    + rewrite <- app_assoc. exact Hnd.
  - unfold keys in *. rewrite map_app in Hnd. simpl in Hnd.
    apply NoDup_app in Hnd as (_ & Hdisj & _).
    intros Hin. apply list_elem_of_In in Hin.
    apply (Hdisj k Hin). left.
Qed.

Lemma append_empty_r (s : string) : s ++ EmptyString = s.
Proof. induction s as [|c r IH]; simpl; [reflexivity | rewrite IH; reflexivity]. Qed.

(** The body is the lines joined by newlines, with a last newline. *)
Lemma render_joined (m : metrics) :
  render m =
  match m with
  | [] => EmptyString
  | _ => String.concat newline (List.map metric_line m) ++ newline
  end.
Proof.
  induction m as [|kv [|kv' rest] IH]; [reflexivity| |].
  - reflexivity.
  - change (render (kv :: kv' :: rest))
      with (metric_line kv ++ newline ++ render (kv' :: rest)).
    rewrite IH.
    change (String.concat newline (List.map metric_line (kv :: kv' :: rest)))
      with (metric_line kv ++ newline
              ++ String.concat newline (List.map metric_line (kv' :: rest))).
    rewrite !append_assoc3. reflexivity.
Qed.

(** A scrape that finds the same snapshot at each of its reads, a dict whose
    text can be encoded. *)
Lemma do_GET_metrics (now : Q) (g : Globals) (later : list Globals) :
  steady g later ->
  match G_metrics_cur g with
  | Some m => NoDup (keys m)
  | None => True
  end ->
  has_surrogate (scrape_body g) = false ->
  do_GET "/metrics" now g later = Ok (mkResponse 200 plain_text (scrape_body g)).
Proof.
  intros Hs Hdict Henc. unfold do_GET, scrape_body in *. simpl.
  rewrite (seen_steady g later 1 Hs).
  destruct (G_metrics_cur g) as [m|] eqn:Ecur; [|reflexivity].
  pose proof (metrics_lines_render g later m [] 2 Hs Ecur Hdict) as Hlines.
  fold (keys m). rewrite Hlines. simpl. rewrite Henc. reflexivity.
Qed.

(** With nothing published the scrape is empty, whatever the loop does in the
    meantime. *)
Lemma do_GET_nothing (now : Q) (g : Globals) (later : list Globals) :
  G_metrics_cur g = None ->
  do_GET "/metrics" now g later = Ok (mkResponse 200 plain_text EmptyString).
Proof. intros Hcur. unfold do_GET. simpl. rewrite Hcur. reflexivity. Qed.

(** C8 as stated fails on the last line: the body is not the lines joined by
    newlines, a newline follows the last one too. *)
Lemma metrics_final_newline_counterexample :
  let g := after_load payload_parked in
  exists m r,
    G_metrics_cur g = Some m /\
    do_GET "/metrics" 1000 g [] = Ok r /\
    String.concat newline (List.map metric_line m) =
      "tesla_state{value=" ++ dquote ++ "online" ++ dquote ++ "} 1" ++ newline
        ++ "tesla_charge_state_battery_level 67" /\
    body r = String.concat newline (List.map metric_line m) ++ newline /\
    body r <> String.concat newline (List.map metric_line m).
Proof.
  cbv zeta. eexists. eexists.
  split; [vm_compute; reflexivity|].
  split; [vm_compute; reflexivity|].
  split; [vm_compute; reflexivity|].
  split; [vm_compute; reflexivity|].
  vm_compute. discriminate.
Qed.

(** A name with a lone surrogate is published like any other, and the scrape
    then dies in [str.encode], the body unsent. *)
Lemma metrics_surrogate_raises :
  do_GET "/metrics" 1000 (after_load payload_surrogate) [] = Raise UnicodeEncodeError.
Proof. vm_compute. reflexivity. Qed.

(** A snapshot cleared or replaced while the scrape is handled: the handler
    dies on [None.keys()] when the loop clears it between lines 474 and 475,
    on [None[m]] when it clears it later, and on a missing key when another
    snapshot is published; the body is unsent. *)
Lemma metrics_rebound_raises :
  let g := after_load payload_parked in
  do_GET "/metrics" 1000 g [clear_cur g] = Raise AttributeError /\
  do_GET "/metrics" 1000 g [g; clear_cur g] = Raise TypeError /\
  do_GET "/metrics" 1000 g [g; after_load payload_driving] = Raise KeyError.
Proof. cbv zeta. repeat split; vm_compute; reflexivity. Qed.

(** C8, as amended: GET /metrics answers 200 with a plain-text body: one
    line, name, space, value, newline, per entry of the published snapshot,
    in its order (the entries' lines joined by newlines, and a final
    newline); the empty body when nothing is published.  This holds of a
    scrape during which the loop leaves the published snapshot alone and
    whose text can be encoded, in every state whose published dict has
    distinct keys (as every Python dict has), and so in every state the loop
    reaches; with nothing published it holds whatever the loop does. *)
Theorem metrics_endpoint :
  (forall (now : Q) (g : Globals) (later : list Globals),
      steady g later ->
      match G_metrics_cur g with
      | Some m => NoDup (keys m)
      | None => True
      end ->
      has_surrogate (scrape_body g) = false ->
      do_GET "/metrics" now g later = Ok (mkResponse 200 plain_text (scrape_body g))) /\
  (forall (frames : nat) (cycles : list Cycle) (disk : Disk) (start now : Q)
          (later : list Globals),
      let g := globals_of (poll_loop frames cycles (initial_globals disk start)) in
      steady g later ->
      has_surrogate (scrape_body g) = false ->
      do_GET "/metrics" now g later = Ok (mkResponse 200 plain_text (scrape_body g))) /\
  (forall (now : Q) (g : Globals) (later : list Globals),
      G_metrics_cur g = None ->
      do_GET "/metrics" now g later = Ok (mkResponse 200 plain_text EmptyString)) /\
  (forall g,
      scrape_body g =
      match G_metrics_cur g with
      | None | Some [] => EmptyString
      | Some m => String.concat newline (List.map metric_line m) ++ newline
      end) /\
  (forall name s, metric_line (name, MStr s) = name ++ " " ++ s) /\
  (forall name, metric_line (name, MInt 1) = name ++ " 1" /\
                metric_line (name, MInt 0) = name ++ " 0").
Proof.
  split; [exact do_GET_metrics|].
  split; [|split; [exact do_GET_nothing|]].
  - intros frames cycles disk start now later g Hs Henc.
    apply do_GET_metrics; [exact Hs | | exact Henc].
    pose proof (poll_loop_ok frames cycles (initial_globals disk start) I) as Hok.
    fold g in Hok. unfold snapshot_ok in Hok.
    destruct (G_metrics_cur g); [apply Hok | exact I].
  - split; [|split].
    + intros g. unfold scrape_body.
      destruct (G_metrics_cur g) as [m|]; [|reflexivity].
      rewrite render_joined. destruct m; reflexivity.
    + intros name s. reflexivity.
    + intros name. split; reflexivity.
Qed.

Lemma metrics_endpoint_witness :
  do_GET "/metrics" 1000 (after_load payload_charging)
         [loop_head 1000 car_online (after_load payload_charging)] =
  Ok (mkResponse 200 plain_text
        ("tesla_state{value=" ++ dquote ++ "online" ++ dquote ++ "} 1" ++ newline
           ++ "tesla_charge_state_battery_level 67" ++ newline
           ++ "tesla_charge_state_charge_port_door_open 1" ++ newline
           ++ "tesla_charge_state_fast_charger_present 0" ++ newline)).
Proof.
  apply (proj1 (proj2 metrics_endpoint) default_frames
               [mkCycle 909 car_online (disk_with 909 payload_charging) 910 911]
               no_disk 900%Q 1000%Q
               [loop_head 1000 car_online (after_load payload_charging)]).
  - repeat constructor.
  - vm_compute. reflexivity.
Defined.

(** * Further properties *)

(** ** The flattener: labels, prefixes, sizes, collisions *)

Lemma has_char_append (c : ascii) (a b : string) :
  has_char c (a ++ b) = has_char c a || has_char c b.
Proof.
  induction a as [|d r IH]; simpl; [reflexivity|].
  rewrite IH. apply orb_assoc.
Qed.

Lemma sanitize_by_char_clean (c : ascii) (s : string) :
  In c ["<"; ">"; ","; " "]%char -> has_char c (sanitize_by_char s) = false.
Proof.
  intros Hc. induction s as [|d r IH]; [reflexivity|].
  cbn [sanitize_by_char]. rewrite has_char_append, IH, orb_false_r.
  unfold sanitize_char.
  destruct (Ascii.eqb d "<") eqn:E1; [reflexivity|].
  destruct (Ascii.eqb d ">") eqn:E2; [reflexivity|].
  destruct (Ascii.eqb d ",") eqn:E3; cbn [orb].
  - simpl in Hc. destruct Hc as [<-|[<-|[<-|[<-|[]]]]]; reflexivity.
  - destruct (Ascii.eqb d " ") eqn:E4.
    + simpl in Hc. destruct Hc as [<-|[<-|[<-|[<-|[]]]]]; reflexivity.
    + simpl. rewrite orb_false_r.
      simpl in Hc. destruct Hc as [<-|[<-|[<-|[<-|[]]]]]; assumption.
Qed.

Lemma sanitize_by_char_fixed (s : string) :
  has_char "<" s = false -> has_char ">" s = false ->
  has_char "," s = false -> has_char " " s = false ->
  sanitize_by_char s = s.
Proof.
  induction s as [|d r IH]; [reflexivity|].
  cbn [has_char]. intros H1 H2 H3 H4.
  apply orb_false_iff in H1 as [E1 H1]. apply orb_false_iff in H2 as [E2 H2].
  apply orb_false_iff in H3 as [E3 H3]. apply orb_false_iff in H4 as [E4 H4].
  cbn [sanitize_by_char]. unfold sanitize_char.
  rewrite E1, E2, E3, E4. simpl. rewrite IH by assumption. reflexivity.
Qed.

(** X1: the label value the flattener writes (lines 161-162) holds no angle
    bracket, no comma and no space, whatever the string; sanitizing twice
    changes nothing more; and a string without these four characters is kept
    as it is, double quotes and backslashes included. *)
Theorem sanitize_clean (s : string) :
  has_char "<" (sanitize s) = false /\
  has_char ">" (sanitize s) = false /\
  has_char "," (sanitize s) = false /\
  has_char " " (sanitize s) = false /\
  sanitize (sanitize s) = sanitize s /\
  (has_char "<" s || has_char ">" s || has_char "," s || has_char " " s = false ->
   sanitize s = s).
Proof.
  rewrite !sanitize_by_char_ok.
  assert (H : forall c, In c ["<"; ">"; ","; " "]%char ->
                        has_char c (sanitize_by_char s) = false).
  { intros c Hc. apply sanitize_by_char_clean. exact Hc. }
  assert (H1 := H "<"%char). assert (H2 := H ">"%char).
  assert (H3 := H ","%char). assert (H4 := H " "%char).
  simpl in H1, H2, H3, H4.
  repeat split; auto 6.
  - apply sanitize_by_char_fixed; auto 6.
  - intros Hs. apply orb_false_iff in Hs as [Hs E4].
    apply orb_false_iff in Hs as [Hs E3]. apply orb_false_iff in Hs as [E1 E2].
    apply sanitize_by_char_fixed; assumption.
Qed.

Lemma sanitize_clean_witness :
  sanitize ("a" ++ dquote ++ "b") = "a" ++ dquote ++ "b".
Proof.
  apply (sanitize_clean ("a" ++ dquote ++ "b")). reflexivity.
Defined.

Lemma prefix_append (a b : string) : String.prefix a (a ++ b) = true.
Proof.
  induction a as [|c r IH]; simpl; [destruct b; reflexivity|].
  destruct (ascii_dec c c) as [_|Hne]; [exact IH | contradiction].
Qed.

Lemma prefix_trans (a b c : string) :
  String.prefix a b = true -> String.prefix b c = true -> String.prefix a c = true.
Proof.
  revert b c. induction a as [|x a IH]; intros b c Hab Hbc; [destruct c; reflexivity|].
  destruct b as [|y b]; [discriminate Hab|].
  destruct c as [|z c]; [discriminate Hbc|].
  simpl in *.
  destruct (ascii_dec x y) as [->|]; [|discriminate Hab].
  destruct (ascii_dec y z) as [->|]; [|discriminate Hbc].
  destruct (ascii_dec z z) as [_|Hne]; [|contradiction].
  exact (IH b c Hab Hbc).
Qed.

Lemma leaf_entry_key (name : string) (v : json) (k : string) (x : mval) :
  leaf_entry name v = Some (k, x) -> String.prefix name k = true.
Proof.
  unfold leaf_entry. destruct (leaf_value v) as [[value|] [label|]]; try discriminate.
  - intros [= <- _]. apply prefix_append.
  - intros [= <- _]. rewrite <- (append_empty_r name) at 2. apply prefix_append.
Qed.

Lemma field_name_prefix (prefix f : string) :
  prefix <> EmptyString ->
  String.prefix (prefix ++ "_") (field_name prefix f) = true.
Proof.
  intros Hne. unfold field_name.
  destruct (String.eqb prefix EmptyString) eqn:E.
  - apply String.eqb_eq in E. contradiction.
  - rewrite <- append_assoc3. apply prefix_append.
Qed.

Lemma field_name_nonempty (prefix f : string) :
  prefix <> EmptyString -> field_name prefix f <> EmptyString.
Proof.
  intros Hne. unfold field_name.
  destruct (String.eqb prefix EmptyString) eqn:E.
  - apply String.eqb_eq in E. contradiction.
  - destruct prefix; [contradiction | discriminate].
Qed.

Lemma store_leaf_keys_from (name : string) (v : json) (G : metrics) (k : string) :
  In k (keys (store_leaf name v G)) ->
  In k (keys G) \/ String.prefix name k = true.
Proof.
  unfold store_leaf. destruct (leaf_entry name v) as [[m value]|] eqn:E; [|auto].
  intros Hin. apply dict_set_keys_in in Hin as [->|Hin]; [right | left; exact Hin].
  exact (leaf_entry_key _ _ _ _ E).
Qed.

Lemma f_iterate_prefixed_aux (v : json) :
  forall kvs, v = JDict kvs ->
  forall depth prefix G G',
    prefix <> EmptyString ->
    f_iterate depth v prefix G = Filled G' ->
    forall k, In k (keys G') ->
              In k (keys G) \/ String.prefix (prefix ++ "_") k = true.
Proof.
  induction v using json_ind; intros kvs' Heq; try discriminate.
  injection Heq as ->. intros depth prefix G G' Hne.
  destruct depth as [|depth]; [discriminate|].
  rewrite f_iterate_dict.
  revert G. induction H as [|[f v] rest Hv _ IH]; intros G; simpl in *.
  - intros [= <-]. auto.
  - assert (Hleaf : forall x,
               iterate_fields depth prefix rest (store_leaf (field_name prefix f) x G) =
                 Filled G' ->
               forall k, In k (keys G') ->
                         In k (keys G) \/ String.prefix (prefix ++ "_") k = true).
    { intros x Hrun k Hk. destruct (IH _ Hrun k Hk) as [Hin|Hp]; [|right; exact Hp].
      apply store_leaf_keys_from in Hin as [Hin|Hp]; [left; exact Hin | right].
      exact (prefix_trans _ _ _ (field_name_prefix prefix f Hne) Hp). }
    destruct v; try apply Hleaf.
    intros Hrun k Hk. apply and_on_filled in Hrun as [G1 [Hnested Hrun]].
    destruct (IH _ Hrun k Hk) as [Hin|Hp]; [|right; exact Hp].
    destruct (Hv kvs eq_refl _ _ _ _ (field_name_nonempty prefix f Hne) Hnested k Hin)
      as [Hin0|Hp]; [left; exact Hin0 | right].
    apply (prefix_trans _ (field_name prefix f ++ "_")); [|exact Hp].
    apply (prefix_trans _ (field_name prefix f));
      [apply field_name_prefix; exact Hne | apply prefix_append].
Qed.

(** X2: under a prefix that is not empty, every key the flattener adds starts
    with the prefix and an underscore, at every depth of the tree: all the
    metrics of a snapshot carry the configured prefix. *)
Theorem flatten_keys_prefixed
        (depth : nat) (kvs : list (string * json)) (prefix : string) (G G' : metrics)
        (k : string) :
  prefix <> EmptyString ->
  f_iterate depth (JDict kvs) prefix G = Filled G' ->
  In k (keys G') ->
  In k (keys G) \/ String.prefix (prefix ++ "_") k = true.
Proof.
  intros Hne Hrun.
  exact (f_iterate_prefixed_aux (JDict kvs) kvs eq_refl depth prefix G G' Hne Hrun k).
Qed.

Lemma flatten_keys_prefixed_witness :
  In "tesla_charge_state_battery_level" ([] : list string) \/
  String.prefix "tesla_" "tesla_charge_state_battery_level" = true.
Proof.
  apply (flatten_keys_prefixed default_frames
           [("state", JStr "online"); ("charge_state", JDict [("battery_level", JInt 67)])]
           cfg_metrics_prefix []
           [("tesla_state{value=" ++ dquote ++ "online" ++ dquote ++ "}", MStr "1");
            ("tesla_charge_state_battery_level", MStr "67")]).
  - discriminate.
  - reflexivity.
  - simpl. right. left. reflexivity.
Defined.

Lemma dict_set_length {V : Type} (k : string) (v : V) (m : list (string * V)) :
  List.length (dict_set k v m) =
  if dict_has k m then List.length m else S (List.length m).
Proof.
  unfold dict_has. induction m as [|[k' v'] rest IH]; simpl; [reflexivity|].
  destruct (String.eqb k' k); simpl; [reflexivity|].
  rewrite IH. destruct (dict_get k rest); reflexivity.
Qed.

Lemma leaf_entry_count (name : string) (v : json) :
  (forall d, v <> JDict d) ->
  leaf_count v = match leaf_entry name v with Some _ => 1%nat | None => O end.
Proof.
  intros Hnd. unfold leaf_entry, leaf_value.
  destruct v; simpl; try reflexivity.
  - rewrite length_zero_eqb, strip_empty. destruct (only_spaces s); reflexivity.
  - exfalso. exact (Hnd kvs eq_refl).
Qed.

Lemma store_leaf_length (name : string) (v : json) (G : metrics) :
  (forall d, v <> JDict d) ->
  (List.length G <= List.length (store_leaf name v G) <= List.length G + leaf_count v)%nat.
Proof.
  intros Hnd. rewrite (leaf_entry_count name v Hnd).
  unfold store_leaf. destruct (leaf_entry name v) as [[m value]|]; [|lia].
  rewrite dict_set_length. destruct (dict_has m G); lia.
Qed.

Lemma leaf_count_cons (f : string) (v : json) (rest : list (string * json)) :
  leaf_count (JDict ((f, v) :: rest)) = (leaf_count v + leaf_count (JDict rest))%nat.
Proof. reflexivity. Qed.

Lemma f_iterate_size_aux (v : json) :
  forall kvs, v = JDict kvs ->
  forall depth prefix G G',
    f_iterate depth v prefix G = Filled G' ->
    (List.length G <= List.length G' <= List.length G + leaf_count v)%nat.
Proof.
  induction v using json_ind; intros kvs' Heq; try discriminate.
  injection Heq as ->. intros depth prefix G G'.
  destruct depth as [|depth]; [discriminate|].
  rewrite f_iterate_dict.
  revert G. induction H as [|[f v] rest Hv _ IH]; intros G.
  - intros [= <-]. simpl. lia.
  - rewrite leaf_count_cons. cbn [iterate_fields]. simpl in Hv.
    assert (Hleaf : forall x,
               (forall d, x <> JDict d) ->
               iterate_fields depth prefix rest (store_leaf (field_name prefix f) x G) =
                 Filled G' ->
               (List.length G <= List.length G' <=
                List.length G + (leaf_count x + leaf_count (JDict rest)))%nat).
    { intros x Hnd Hrun. apply IH in Hrun.
      pose proof (store_leaf_length (field_name prefix f) x G Hnd). lia. }
    destruct v; try (apply Hleaf; discriminate).
    intros Hrun. apply and_on_filled in Hrun as [G1 [Hnested Hrun]].
    apply (Hv kvs eq_refl) in Hnested. apply IH in Hrun. lia.
Qed.

(** X3: the flattener never removes an entry, and it adds at most one entry
    for each field of the tree that is a number, a boolean or a string not
    made of spaces only (fewer when two fields give the same key). *)
Theorem flatten_size
        (depth : nat) (kvs : list (string * json)) (prefix : string) (G G' : metrics) :
  f_iterate depth (JDict kvs) prefix G = Filled G' ->
  (List.length G <= List.length G' <= List.length G + leaf_count (JDict kvs))%nat.
Proof. exact (f_iterate_size_aux (JDict kvs) kvs eq_refl depth prefix G G'). Qed.

Lemma flatten_size_witness :
  f_iterate default_frames (JDict [("a_b", JInt 1); ("a", JDict [("b", JInt 2)])]) "p" [] =
    Filled [("p_a_b", MStr "2")] /\
  (List.length (@nil (string * mval)) <= List.length [("p_a_b", MStr "2")] <=
   List.length (@nil (string * mval)) +
   leaf_count (JDict [("a_b", JInt 1); ("a", JDict [("b", JInt 2)])]))%nat.
Proof.
  split; [reflexivity|].
  exact (flatten_size default_frames [("a_b", JInt 1); ("a", JDict [("b", JInt 2)])] "p" []
           [("p_a_b", MStr "2")] eq_refl).
Defined.

Lemma dict_get_set_same {V : Type} (k : string) (v : V) (m : list (string * V)) :
  dict_get k (dict_set k v m) = Some v.
Proof.
  induction m as [|[k' v'] rest IH]; simpl; [rewrite String.eqb_refl; reflexivity|].
  destruct (String.eqb k' k) eqn:E; simpl; rewrite E; [reflexivity | exact IH].
Qed.

Lemma dict_get_set_other {V : Type} (k k' : string) (v : V) (m : list (string * V)) :
  k' <> k -> dict_get k' (dict_set k v m) = dict_get k' m.
Proof.
  intros Hne. induction m as [|[k0 v0] rest IH]; simpl.
  - destruct (String.eqb k k') eqn:E; [|reflexivity].
    apply String.eqb_eq in E. congruence.
  - destruct (String.eqb k0 k) eqn:E; simpl.
    + apply String.eqb_eq in E. subst k0.
      destruct (String.eqb k k') eqn:E'; [|reflexivity].
      apply String.eqb_eq in E'. congruence.
    + rewrite IH. reflexivity.
Qed.

Lemma dict_set_keys {V : Type} (k : string) (v : V) (m : list (string * V)) :
  keys (dict_set k v m) = if dict_has k m then keys m else (keys m ++ [k])%list.
Proof.
  unfold dict_has, keys. induction m as [|[k' v'] rest IH]; simpl; [reflexivity|].
  destruct (String.eqb k' k) eqn:E; simpl; [reflexivity|].
  rewrite IH. destruct (dict_get k rest); reflexivity.
Qed.

(** X4: when the last field of a dict is a leaf with an entry, the flattened
    result holds that entry's value under its key, whatever the fields before
    it stored there: the last write to a key wins.  The key keeps the place
    it had if an earlier field produced it and is appended otherwise, and no
    other key changes its value. *)
Theorem flatten_last_write
        (depth : nat) (kvs : list (string * json)) (f : string) (v : json)
        (prefix : string) (G G' : metrics) (k : string) (x : mval) :
  (forall d, v <> JDict d) ->
  leaf_entry (field_name prefix f) v = Some (k, x) ->
  f_iterate depth (JDict (kvs ++ [(f, v)])%list) prefix G = Filled G' ->
  dict_get k G' = Some x /\
  exists G1,
    f_iterate depth (JDict kvs) prefix G = Filled G1 /\
    keys G' = (if dict_has k G1 then keys G1 else (keys G1 ++ [k])%list) /\
    (forall k', k' <> k -> dict_get k' G' = dict_get k' G1).
Proof.
  intros Hnd Hleaf. destruct depth as [|depth]; [discriminate|].
  rewrite !f_iterate_dict, iterate_fields_app.
  intros Hrun. apply and_on_filled in Hrun as [G1 [Hfirst Hlast]].
  assert (Hstore : G' = dict_set k x G1).
  { cbn [iterate_fields] in Hlast. unfold store_leaf in Hlast. rewrite Hleaf in Hlast.
    destruct v; try (injection Hlast as <-; reflexivity).
    exfalso. exact (Hnd kvs0 eq_refl). }
  subst G'. split; [apply dict_get_set_same|].
  exists G1. split; [exact Hfirst|]. split; [apply dict_set_keys|].
  intros k' Hne. apply dict_get_set_other. exact Hne.
Qed.

Lemma flatten_last_write_witness :
  dict_get "tesla_a_b" [("tesla_a_b", MStr "1"); ("tesla_c", MStr "3")] = Some (MStr "1") /\
  exists G1,
    f_iterate default_frames (JDict [("a", JDict [("b", JInt 2)]); ("c", JInt 3)])
              "tesla" [] = Filled G1 /\
    keys [("tesla_a_b", MStr "1"); ("tesla_c", MStr "3")] =
      (if dict_has "tesla_a_b" G1 then keys G1 else (keys G1 ++ ["tesla_a_b"])%list) /\
    (forall k', k' <> "tesla_a_b" ->
                dict_get k' [("tesla_a_b", MStr "1"); ("tesla_c", MStr "3")] = dict_get k' G1).
Proof.
  apply (flatten_last_write default_frames [("a", JDict [("b", JInt 2)]); ("c", JInt 3)]
           "a_b" (JInt 1) "tesla" []).
  - discriminate.
  - reflexivity.
  - reflexivity.
Defined.

(** ** The token files *)








Lemma token_files_differ : cfg_access_token_file <> cfg_refresh_token_file.
Proof. discriminate. Qed.

(** X6: the refresh is not atomic.  It ends the process only on a reply that
    is an object holding both tokens, when a token file cannot be opened for
    writing: either the access token file, and then nothing was written, or
    the refresh token file, and then the access token has already been
    replaced while the refresh token is still the old one. *)
Theorem refresh_exit (py_repr : json -> string) (w w' : World) :
  f_update_access_token py_repr w = Exited w' ->
  exists kvs a r rest,
    w_net w = NetBody (Some (JDict kvs)) :: rest /\
    dict_get "access_token" kvs = Some a /\
    dict_get "refresh_token" kvs = Some r /\
    (((cfg_access_token_file ∈ w_locked w) /\ w_files w' = w_files w) \/
     ((cfg_access_token_file ∉ w_locked w) /\
      (cfg_refresh_token_file ∈ w_locked w) /\
      w_files w' = <[cfg_access_token_file := pct_s py_repr a ++ newline]> (w_files w) /\
      w_files w' !! cfg_refresh_token_file = w_files w !! cfg_refresh_token_file)).
Proof.
  destruct w as [files locked net log].
  unfold f_update_access_token, bind, f_get_token, urlopen, lift, ret, f_save_data,
    rand, rbind, py_in, py_item, dict_has.
  simpl.
  repeat (inner_destruct; simpl); intros Hexit; try discriminate Hexit;
    injection Hexit as <-;
    match goal with
    | H : default JNull ?parsed = JDict _ |- _ =>
        destruct parsed as [v|]; simpl in H; [subst v | discriminate H]
    end;
    do 4 eexists; (split; [reflexivity|]); (split; [eassumption|]);
    (split; [eassumption|]); simpl;
    first [ left; split; [assumption | reflexivity]
          | right; split; [assumption|]; split; [assumption|]; split; [reflexivity|];
            rewrite lookup_insert_ne by exact token_files_differ; assumption ].
Qed.

Lemma refresh_exit_witness :
  exists kvs a r rest,
    w_net world_refresh_locked = NetBody (Some (JDict kvs)) :: rest /\
    dict_get "access_token" kvs = Some a /\
    dict_get "refresh_token" kvs = Some r /\
    (((cfg_access_token_file ∈ w_locked world_refresh_locked) /\
      w_files world_after_exit = w_files world_refresh_locked) \/
     ((cfg_access_token_file ∉ w_locked world_refresh_locked) /\
      (cfg_refresh_token_file ∈ w_locked world_refresh_locked) /\
      w_files world_after_exit =
        <[cfg_access_token_file := pct_s no_repr a ++ newline]>
          (w_files world_refresh_locked) /\
      w_files world_after_exit !! cfg_refresh_token_file =
        w_files world_refresh_locked !! cfg_refresh_token_file)).
Proof.
  apply (refresh_exit no_repr world_refresh_locked world_after_exit).
  vm_compute. reflexivity.
Defined.



(** ** The listing, beyond its retries *)

Lemma dict_has_get {V : Type} (k : string) (m : list (string * V)) (v : V) :
  dict_get k m = Some v -> dict_has k m = true.
Proof. unfold dict_has. intros ->. reflexivity. Qed.





(** Without a reply that holds both tokens, the refresh leaves the files as
    they were. *)
Lemma refresh_keeps_files (py_repr : json -> string) (w : World) :
  (forall kvs rest,
      w_net w = NetBody (Some (JDict kvs)) :: rest ->
      dict_has "access_token" kvs && dict_has "refresh_token" kvs = false) ->
  w_files (world_of (f_update_access_token py_repr w)) = w_files w.
Proof.
  intros Hnone.
  destruct (decide (w_files (world_of (f_update_access_token py_repr w)) = w_files w))
    as [Heq|Hne]; [exact Heq|].
  apply refresh_persists_only_both in Hne as (kvs & a & r & rest & Hnet & Ha & Hr).
  specialize (Hnone kvs rest Hnet).
  rewrite (dict_has_get _ _ _ Ha), (dict_has_get _ _ _ Hr) in Hnone. discriminate.
Qed.

Lemma listing_keeps_files (py_repr : json -> string) (retries : nat) :
  forall w : World,
    (forall kvs,
        In (NetBody (Some (JDict kvs))) (w_net w) ->
        dict_has "access_token" kvs && dict_has "refresh_token" kvs = false) ->
    w_files (world_of (f_get_vehicle_id_loop py_repr retries w)) = w_files w.
Proof.
  induction retries as [|n IH]; intros w Hnone; [reflexivity|].
  cbn [f_get_vehicle_id_loop]. unfold bind at 1. unfold f_get_token.
  destruct (w_files w !! cfg_access_token_file) as [token|]; [|reflexivity].
  unfold bind at 1. unfold urlopen.
  assert (Hfail : forall w1 : World,
             w_files w1 = w_files w ->
             (forall r, In r (w_net w1) -> In r (w_net w)) ->
             w_files (world_of
               (bind (bind (f_update_access_token py_repr) (fun _ => ret None))
                  (fun found : option vehicle =>
                     match found with
                     | Some x => ret (Some x)
                     | None => bind (sleep cfg_retry_sleep)
                                 (fun _ => f_get_vehicle_id_loop py_repr n)
                     end) w1)) = w_files w).
  { intros w1 Hfiles Hsub. unfold bind at 1 2.
    assert (Hkeep : w_files (world_of (f_update_access_token py_repr w1)) = w_files w1).
    { apply refresh_keeps_files. intros kvs rest Hnet. apply Hnone. apply Hsub.
      rewrite Hnet. left. reflexivity. }
    pose proof (refresh_trace py_repr w1) as Hw. cbv zeta in Hw.
    destruct Hw as (_ & _ & _ & _ & _ & Hnet).
    destruct (f_update_access_token py_repr w1) as [[] w2|e w2|w2];
      cbn [world_of] in Hkeep, Hnet; unfold ret; cbv beta iota;
      try (cbn [world_of]; congruence).
    unfold bind, sleep. rewrite IH; [cbn [w_files log_event]; congruence|].
    intros kvs Hin. apply Hnone. apply Hsub. cbn [w_net log_event] in Hin.
    rewrite Hnet in Hin. destruct (w_net w1); [destruct Hin | right; exact Hin]. }
  destruct (w_net w) as [|[| |parsed] rest] eqn:Enet.
  - apply Hfail; [reflexivity|]. simpl. rewrite Enet. auto.
  - apply Hfail; [reflexivity|]. simpl. intros r Hr. right. exact Hr.
  - reflexivity.
  - unfold bind at 1. unfold lift.
    destruct (vehicle_of_response (default JNull parsed)) as [[x|]|e];
      try reflexivity.
    unfold bind, sleep. cbv beta iota. rewrite IH; [reflexivity|].
    intros kvs Hin. apply Hnone. right. exact Hin.
Qed.

(** X9: the listing never writes a token file by itself: however it ends, the
    files are as they were unless one of the replies is an object holding
    both an access token and a refresh token. *)
Theorem listing_leaves_tokens
        (py_repr : json -> string) (retries : nat) (w : World) :
  (forall kvs,
      In (NetBody (Some (JDict kvs))) (w_net w) ->
      dict_has "access_token" kvs && dict_has "refresh_token" kvs = false) ->
  w_files (world_of (f_get_vehicle_id_loop py_repr retries w)) = w_files w.
Proof. apply listing_keeps_files. Qed.

Lemma listing_leaves_tokens_witness :
  w_files (world_of (f_get_vehicle_id no_repr
                       (world_with [NetFail; NetBody (Some (JDict [("error", JStr "no")]))]))) =
  w_files (world_with [NetFail; NetBody (Some (JDict [("error", JStr "no")]))]).
Proof.
  apply (listing_leaves_tokens no_repr cfg_api_retries
           (world_with [NetFail; NetBody (Some (JDict [("error", JStr "no")]))])).
  intros kvs [H|[H|[]]]; [discriminate H|].
  injection H as <-. reflexivity.
Defined.

(** ** Waking the car and fetching its data *)

Lemma ends_with_refl (s : string) : ends_with s s = true.
Proof. destruct s; cbn [ends_with]; rewrite String.eqb_refl; reflexivity. Qed.

Lemma ends_with_app (pre suffix : string) : ends_with suffix (pre ++ suffix) = true.
Proof.
  induction pre as [|c pre IH]; [apply ends_with_refl|].
  change (String c pre ++ suffix) with (String c (pre ++ suffix)).
  cbn [ends_with]. rewrite IH. destruct (String.eqb _ _); reflexivity.
Qed.

Lemma wake_url_ends (id : string) : ends_with "/wake_up" (wake_url id) = true.
Proof.
  unfold wake_url. rewrite <- !append_assoc3. apply ends_with_app.
Qed.

Lemma data_url_ends (id : string) : ends_with "/vehicle_data" (data_url id) = true.
Proof.
  unfold data_url. rewrite <- !append_assoc3. apply ends_with_app.
Qed.

Lemma wake_url_not_token (id : string) : String.eqb (wake_url id) token_url = false.
Proof.
  destruct (String.eqb (wake_url id) token_url) eqn:E; [|reflexivity].
  apply String.eqb_eq in E. pose proof (wake_url_ends id) as H.
  rewrite E in H. vm_compute in H. discriminate H.
Qed.

Lemma data_url_not_listing (id : string) : String.eqb (data_url id) vehicles_url = false.
Proof.
  destruct (String.eqb (data_url id) vehicles_url) eqn:E; [|reflexivity].
  apply String.eqb_eq in E. pose proof (data_url_ends id) as H.
  rewrite E in H. vm_compute in H. discriminate H.
Qed.

Lemma of_refresh_cases (e : event) :
  of_refresh e = true ->
  (exists b, e = EvRequest POST token_url b) \/
  e = EvSave cfg_access_token_file \/ e = EvSave cfg_refresh_token_file.
Proof.
  unfold of_refresh. destruct e as [[|] url b|secs|f]; cbn [is_refresh is_save orb];
    try discriminate.
  - rewrite !orb_false_r. intros E. apply String.eqb_eq in E. subst url. eauto.
  - intros E. apply orb_true_iff in E as [E|E]; apply String.eqb_eq in E; subst f; auto.
Qed.

Lemma count_none (k p : event -> bool) (l : list event) :
  forallb k l = true -> (forall e, k e = true -> p e = false) -> count p l = O.
Proof.
  intros Hall Hkp. induction l as [|e l IH]; [reflexivity|].
  cbn [forallb] in Hall. apply andb_true_iff in Hall as [He Hl].
  rewrite count_cons, (Hkp e He), (IH Hl). reflexivity.
Qed.

Lemma forallb_weaken (k k' : event -> bool) (l : list event) :
  forallb k l = true -> (forall e, k e = true -> k' e = true) -> forallb k' l = true.
Proof.
  intros Hall Hkk. apply forallb_forall. intros e He.
  apply Hkk. revert e He. apply forallb_forall. exact Hall.
Qed.

(** What a refresh event is not. *)
Lemma of_refresh_other (e : event) :
  of_refresh e = true ->
  is_attempt e = false /\ is_sleep e = false /\ is_retry_sleep e = false /\
  is_wake e = false /\ is_wake_failure e = false /\
  is_fetch e = false /\ is_fetch_failure e = false /\
  is_save cfg_vehicle_data_file e = false.
Proof.
  intros H. apply of_refresh_cases in H as [[b ->]|[->| ->]];
    repeat split; try reflexivity; destruct b; reflexivity.
Qed.

(** The newest events of a log, when the goal displays them. *)
Ltac give_new :=
  cbn [world_of w_log log_event];
  lazymatch goal with
  | |- exists new, ?a :: ?b :: ?c :: ?l = (new ++ ?l)%list /\ _ => exists [a; b; c]
  | |- exists new, ?a :: ?b :: ?l = (new ++ ?l)%list /\ _ => exists [a; b]
  | |- exists new, ?a :: ?l = (new ++ ?l)%list /\ _ => exists [a]
  | |- exists new, ?l = (new ++ ?l)%list /\ _ => exists []
  end;
  split; [reflexivity|].

Section RefreshEvents.

Variable py_repr : json -> string.

Lemma refresh_events (w : World) :
  exists new,
    w_log (world_of (f_update_access_token py_repr w)) = (new ++ w_log w)%list /\
    forallb of_refresh new = true /\ count is_refresh new = 1%nat.
Proof.
  destruct w as [files locked net log].
  unfold f_update_access_token, bind, f_get_token, urlopen, lift, ret, f_save_data.
  simpl.
  repeat (inner_destruct; simpl); give_new; split; reflexivity.
Qed.

Lemma refresh_files_other (w : World) (f : string) :
  f <> cfg_access_token_file -> f <> cfg_refresh_token_file ->
  w_files (world_of (f_update_access_token py_repr w)) !! f = w_files w !! f.
Proof.
  intros Ha Hr.
  assert (Ha' : cfg_access_token_file <> f) by congruence.
  assert (Hr' : cfg_refresh_token_file <> f) by congruence.
  destruct w as [files locked net log].
  unfold f_update_access_token, bind, f_get_token, urlopen, lift, ret, f_save_data.
  cbn [w_files w_locked w_net w_log log_event].
  repeat (inner_destruct; cbn [world_of w_files w_locked w_net w_log log_event]);
    rewrite ?lookup_insert_ne by assumption; reflexivity.
Qed.

End RefreshEvents.

(** The retry loop that [f_wake_vehicle] and [f_get_vehicle_data] share: the
    two differ in the request and in what they do with a reply that arrived
    ([k]). *)
Section Retry.

Variable py_repr : json -> string.
Variable id : json.
Variable m : http_method.
Variable mkurl : string -> string.
Variable k : json -> io unit.
Variable loop : nat -> io unit.
Variables p pf kev : event -> bool.
Variable keep : string -> Prop.

Hypothesis loop_O : forall w, loop O w = Done tt w.
Hypothesis loop_S : forall n w,
  loop (S n) w =
  (run _token <- f_get_token cfg_access_token_file;
   run idtext <- lift (pct_d_json id);
   run resp <- urlopen m (mkurl idtext);
   match resp with
   | None =>
       run _ <- f_update_access_token py_repr;
       run _ <- sleep cfg_retry_sleep;
       loop n
   | Some obj => k obj
   end) w.
Hypothesis p_request : forall s b, p (EvRequest m (mkurl s) b) = true.
Hypothesis pf_request : forall s b, pf (EvRequest m (mkurl s) b) = negb b.
Hypothesis request_not_refresh : forall s b, is_refresh (EvRequest m (mkurl s) b) = false.
Hypothesis p_of_refresh : forall e, of_refresh e = true -> p e = false.
Hypothesis pf_p : forall e, pf e = true -> p e = true.
Hypothesis p_sleep : forall secs, p (EvSleep secs) = false.
Hypothesis k_events : forall obj w,
  exists knew,
    w_log (world_of (k obj w)) = (knew ++ w_log w)%list /\
    forallb kev knew = true /\ (List.length knew <= 1)%nat.
Hypothesis k_keep : forall obj w f,
  keep f -> w_files (world_of (k obj w)) !! f = w_files w !! f.

Lemma pf_false (e : event) : p e = false -> pf e = false.
Proof.
  intros Hp. destruct (pf e) eqn:E; [|reflexivity].
  apply pf_p in E. congruence.
Qed.

Lemma of_refresh_retry (e : event) : of_refresh e = true -> of_retry p e = true.
Proof. intros H. unfold of_retry. rewrite H. apply orb_true_r. Qed.

Lemma request_retry (s : string) (b : bool) : of_retry p (EvRequest m (mkurl s) b) = true.
Proof. unfold of_retry. rewrite p_request. reflexivity. Qed.

Lemma sleep_retry : of_retry p (EvSleep cfg_retry_sleep) = true.
Proof. unfold of_retry. rewrite p_sleep. reflexivity. Qed.

Lemma request_not_sleep (s : string) (b : bool) :
  is_sleep (EvRequest m (mkurl s) b) = false /\
  is_retry_sleep (EvRequest m (mkurl s) b) = false.
Proof. split; reflexivity. Qed.

Lemma retry_events (retries : nat) :
  forall w : World,
    retry_effect p pf kev keep retries w (world_of (loop retries w)).
Proof.
  induction retries as [|n IH]; intros w.
  { rewrite loop_O. exists [], []. unfold retry_trace.
    repeat split; try reflexivity; cbn; lia. }
  rewrite loop_S.
  assert (Hbody : forall token : option string,
             retry_effect p pf kev keep (S n) w (world_of
                 ((fun _token : option string =>
                     run idtext <- lift (pct_d_json id);
                     run resp <- urlopen m (mkurl idtext);
                     match resp with
                     | None =>
                         run _ <- f_update_access_token py_repr;
                         run _ <- sleep cfg_retry_sleep;
                         loop n
                     | Some obj => k obj
                     end) token w))).
  { intros _. cbv beta. unfold bind at 1. unfold lift.
    case_eq (pct_d_json id); [intros s _ | intros e _].
    2:{ exists [], []. unfold retry_trace. repeat split; try reflexivity; cbn; lia. }
    assert (Hfail : forall w1 : World,
               w_log w1 = EvRequest m (mkurl s) false :: w_log w ->
               w_files w1 = w_files w ->
               retry_effect p pf kev keep (S n) w (world_of
                   ((run _ <- f_update_access_token py_repr;
                     run _ <- sleep cfg_retry_sleep; loop n) w1))).
    { intros w1 Hlog Hfiles.
      destruct (refresh_events py_repr w1) as (rn & Hrn & Hall & Hone).
      pose proof (refresh_files_other py_repr w1) as Hrf.
      pose proof (count_none of_refresh p rn Hall p_of_refresh) as Hp0.
      assert (Hpf0 : count pf rn = O).
      { apply (count_none of_refresh); [exact Hall|].
        intros e He. apply pf_false, p_of_refresh, He. }
      assert (Hs0 : count is_sleep rn = O).
      { apply (count_none of_refresh); [exact Hall|].
        intros e He. apply of_refresh_other in He. tauto. }
      assert (Hrs0 : count is_retry_sleep rn = O).
      { apply (count_none of_refresh); [exact Hall|].
        intros e He. apply of_refresh_other in He. tauto. }
      assert (Hrn_retry : forallb (of_retry p) rn = true).
      { apply (forallb_weaken of_refresh); [exact Hall | exact of_refresh_retry]. }
      pose proof (request_not_sleep s false) as [Hq1 Hq2].
      unfold bind at 1.
      destruct (f_update_access_token py_repr w1) as [[] w2|e w2|w2];
        cbn [world_of] in Hrn, Hrf.
      - unfold bind, sleep.
        destruct (IH (log_event (EvSleep cfg_retry_sleep) w2))
          as (kn & rn' & Hl & Hk1 & Hk2 & Hr1 & Hr2 & Hf2).
        exists kn, (rn' ++ EvSleep cfg_retry_sleep :: rn ++ [EvRequest m (mkurl s) false])%list.
        split; [|split; [exact Hk1|split; [exact Hk2|split; [|split]]]].
        + rewrite Hl. cbn [w_log log_event]. rewrite Hrn, Hlog.
          repeat (rewrite <- app_assoc; cbn [app]). reflexivity.
        + rewrite forallb_app. cbn [forallb]. rewrite forallb_app. cbn [forallb].
          rewrite Hr1, Hrn_retry, sleep_retry, request_retry. reflexivity.
        + unfold retry_trace in *.
          repeat (rewrite count_app || rewrite count_cons).
          rewrite Hp0, Hpf0, Hs0, Hrs0, Hone, Hq1, Hq2.
          rewrite p_request, pf_request, request_not_refresh, p_sleep.
          rewrite (pf_false _ (p_sleep cfg_retry_sleep)).
          cbn [negb is_sleep is_retry_sleep is_refresh count List.filter List.length].
          change ((cfg_retry_sleep =? cfg_retry_sleep)%Z) with true. cbv iota.
          lia.
        + intros f Hk Ha Hr. rewrite (Hf2 f Hk Ha Hr). cbn [w_files log_event].
          rewrite (Hrf f Ha Hr). rewrite Hfiles. reflexivity.
      - exists [], (rn ++ [EvRequest m (mkurl s) false])%list.
        split; [|split; [reflexivity|split; [cbn; lia|split; [|split]]]].
        + cbn [world_of]. rewrite Hrn, Hlog.
          repeat (rewrite <- app_assoc; cbn [app]). reflexivity.
        + rewrite forallb_app. cbn [forallb].
          rewrite Hrn_retry, request_retry. reflexivity.
        + unfold retry_trace.
          repeat (rewrite count_app || rewrite count_cons).
          rewrite Hp0, Hpf0, Hs0, Hrs0, Hone, Hq1, Hq2.
          rewrite p_request, pf_request, request_not_refresh.
          cbn [negb count List.filter List.length]. lia.
        + intros f Hk Ha Hr. cbn [world_of]. rewrite (Hrf f Ha Hr), Hfiles. reflexivity.
      - exists [], (rn ++ [EvRequest m (mkurl s) false])%list.
        split; [|split; [reflexivity|split; [cbn; lia|split; [|split]]]].
        + cbn [world_of]. rewrite Hrn, Hlog.
          repeat (rewrite <- app_assoc; cbn [app]). reflexivity.
        + rewrite forallb_app. cbn [forallb].
          rewrite Hrn_retry, request_retry. reflexivity.
        + unfold retry_trace.
          repeat (rewrite count_app || rewrite count_cons).
          rewrite Hp0, Hpf0, Hs0, Hrs0, Hone, Hq1, Hq2.
          rewrite p_request, pf_request, request_not_refresh.
          cbn [negb count List.filter List.length]. lia.
        + intros f Hk Ha Hr. cbn [world_of]. rewrite (Hrf f Ha Hr), Hfiles. reflexivity. }
    unfold bind at 1. unfold urlopen.
    destruct (w_net w) as [|[| |parsed] rest]; cbv beta iota.
    - apply Hfail; reflexivity.
    - apply Hfail; reflexivity.
    - pose proof (request_not_sleep s true) as [Hq1 Hq2].
      exists [], [EvRequest m (mkurl s) true].
      split; [reflexivity|]. split; [reflexivity|]. split; [cbn; lia|].
      split; [|split].
      + cbn [forallb]. rewrite request_retry. reflexivity.
      + unfold retry_trace. repeat rewrite count_cons.
        rewrite Hq1, Hq2, p_request, pf_request, request_not_refresh.
        cbn [negb count List.filter List.length]. lia.
      + intros f Hk Ha Hr. reflexivity.
    - match goal with
      | |- context [k ?obj ?w1] =>
          destruct (k_events obj w1) as (kn & Hl & Hk1 & Hk2);
          pose proof (k_keep obj w1) as Hkf
      end.
      pose proof (request_not_sleep s true) as [Hq1 Hq2].
      exists kn, [EvRequest m (mkurl s) true].
      split; [|split; [exact Hk1|split; [exact Hk2|split; [|split]]]].
      + rewrite Hl. reflexivity.
      + cbn [forallb]. rewrite request_retry. reflexivity.
      + unfold retry_trace. repeat rewrite count_cons.
        rewrite Hq1, Hq2, p_request, pf_request, request_not_refresh.
        cbn [negb count List.filter List.length]. lia.
      + intros f Hk Ha Hr. rewrite (Hkf f Hk). reflexivity. }
  unfold bind at 1. unfold f_get_token.
  destruct (w_files w !! cfg_access_token_file) as [token|].
  - exact (Hbody (Some (rstrip_newline (universal_newlines token)))).
  - exact (Hbody None).
Qed.

End Retry.

Lemma count_length (p : event -> bool) (l : list event) : (count p l <= List.length l)%nat.
Proof.
  induction l as [|e l IH]; [reflexivity|].
  rewrite count_cons. cbn [List.length]. destruct (p e); lia.
Qed.

Lemma of_wake_other (e : event) :
  of_retry is_wake e = true ->
  is_attempt e = false /\ is_fetch e = false /\ is_save cfg_vehicle_data_file e = false.
Proof.
  unfold of_retry. destruct (of_refresh e) eqn:R.
  { intros _. apply of_refresh_other in R. tauto. }
  rewrite orb_false_r.
  destruct e as [[|] url b|secs|f]; cbn; intros H; try discriminate H;
    repeat split; reflexivity.
Qed.

Lemma data_suffix_not_listing (url : string) :
  ends_with "/vehicle_data" url = true -> String.eqb url vehicles_url = false.
Proof.
  intros H. destruct (String.eqb url vehicles_url) eqn:E; [|reflexivity].
  apply String.eqb_eq in E. subst url. vm_compute in H. discriminate H.
Qed.

Lemma of_fetch_other (e : event) :
  of_retry is_fetch e = true ->
  is_attempt e = false /\ is_wake e = false /\ is_save cfg_vehicle_data_file e = false.
Proof.
  unfold of_retry. destruct (of_refresh e) eqn:R.
  { intros _. apply of_refresh_other in R. tauto. }
  rewrite orb_false_r.
  destruct e as [[|] url b|secs|f]; cbn; intros H; try discriminate H;
    repeat split; try reflexivity.
  rewrite orb_false_r in H. apply data_suffix_not_listing, H.
Qed.

Lemma save_other (e : event) :
  is_save cfg_vehicle_data_file e = true ->
  is_attempt e = false /\ is_wake e = false /\ is_fetch e = false /\
  is_fetch_failure e = false /\ is_refresh e = false /\ is_sleep e = false /\
  is_retry_sleep e = false.
Proof.
  destruct e as [[|] url b|secs|f]; cbn; intros H; try discriminate H;
    repeat split; reflexivity.
Qed.

Lemma failure_is_wake (e : event) : is_wake_failure e = true -> is_wake e = true.
Proof.
  destruct e as [[|] url [|]|secs|f]; cbn; intros H;
    first [discriminate H | exact H].
Qed.

Lemma failure_is_fetch (e : event) : is_fetch_failure e = true -> is_fetch e = true.
Proof.
  destruct e as [[|] url [|]|secs|f]; cbn; intros H;
    first [discriminate H | exact H].
Qed.

Lemma wake_effect (py_repr : json -> string) (id : json) (retries : nat) (w : World) :
  retry_effect is_wake is_wake_failure (fun _ => false) (fun _ => True) retries w
               (world_of (f_wake_vehicle_loop py_repr id retries w)).
Proof.
  apply (retry_events py_repr id POST wake_url (fun obj => lift (wake_report obj))
                      (f_wake_vehicle_loop py_repr id)).
  - reflexivity.
  - reflexivity.
  - intros s b. apply wake_url_ends.
  - intros s [|]; [reflexivity | apply wake_url_ends].
  - intros s b. apply wake_url_not_token.
  - intros e He. apply of_refresh_other in He. tauto.
  - exact failure_is_wake.
  - reflexivity.
  - intros obj w0. exists []. unfold lift.
    destruct (wake_report obj); repeat split; cbn; lia.
  - intros obj w0 f _. unfold lift. destruct (wake_report obj); reflexivity.
Qed.

Lemma fetch_effect (py_repr : json -> string) (body_text : json -> result string)
      (id : json) (retries : nat) (w : World) :
  retry_effect is_fetch is_fetch_failure (is_save cfg_vehicle_data_file)
               (fun f => f <> cfg_vehicle_data_file) retries w
               (world_of (f_get_vehicle_data_loop py_repr body_text id retries w)).
Proof.
  apply (retry_events py_repr id GET data_url
           (fun obj => run ok <- lift (has_response obj);
                       if ok then
                         run text <- lift (body_text obj);
                         f_save_data cfg_vehicle_data_file text
                       else ret tt)
           (f_get_vehicle_data_loop py_repr body_text id)).
  - reflexivity.
  - reflexivity.
  - intros s b. apply data_url_ends.
  - intros s [|]; [reflexivity | apply data_url_ends].
  - reflexivity.
  - intros e He. apply of_refresh_other in He. tauto.
  - exact failure_is_fetch.
  - reflexivity.
  - intros obj w0. unfold bind, lift, f_save_data, ret.
    destruct (has_response obj) as [[|]|e];
      [destruct (body_text obj) as [text|e];
       [destruct (decide _); [|destruct (has_surrogate text)]|]|..];
      give_new; split; solve [reflexivity | cbn; lia].
  - intros obj w0 f Hf. unfold bind, lift, f_save_data, ret.
    destruct (has_response obj) as [[|]|e];
      [destruct (body_text obj) as [text|e];
       [destruct (decide _); [|destruct (has_surrogate text)]|]|..];
      cbn [world_of w_files]; try reflexivity.
    apply lookup_insert_ne. congruence.
Qed.

Lemma wake_events (py_repr : json -> string) (id : json) (retries : nat) (w : World) :
  exists new,
    w_log (world_of (f_wake_vehicle_loop py_repr id retries w)) = (new ++ w_log w)%list /\
    (count is_wake new <= retries)%nat /\
    (count is_wake new <= count is_wake_failure new + 1)%nat /\
    count is_refresh new = count is_wake_failure new /\
    (count is_sleep new <= count is_wake_failure new)%nat /\
    count is_attempt new = O /\ count is_fetch new = O /\
    count (is_save cfg_vehicle_data_file) new = O /\
    (forall f, f <> cfg_access_token_file -> f <> cfg_refresh_token_file ->
               w_files (world_of (f_wake_vehicle_loop py_repr id retries w)) !! f =
               w_files w !! f) /\
    count is_retry_sleep new = count is_sleep new.
Proof.
  destruct (wake_effect py_repr id retries w)
    as (kn & rn & Hl & Hk1 & _ & Hr1 & (H1 & H2 & H3 & H4 & H5) & Hf).
  assert (kn = []) as -> by (destruct kn; [reflexivity | discriminate Hk1]).
  exists rn. split; [exact Hl|].
  repeat split; try assumption.
  - apply (count_none (of_retry is_wake)); [exact Hr1|].
    intros e He. apply of_wake_other in He. tauto.
  - apply (count_none (of_retry is_wake)); [exact Hr1|].
    intros e He. apply of_wake_other in He. tauto.
  - apply (count_none (of_retry is_wake)); [exact Hr1|].
    intros e He. apply of_wake_other in He. tauto.
  - intros f Ha Hr. apply Hf; [exact I | exact Ha | exact Hr].
Qed.

Lemma fetch_events (py_repr : json -> string) (body_text : json -> result string)
      (id : json) (retries : nat) (w : World) :
  exists new,
    w_log (world_of (f_get_vehicle_data_loop py_repr body_text id retries w))
    = (new ++ w_log w)%list /\
    (count is_fetch new <= retries)%nat /\
    (count is_fetch new <= count is_fetch_failure new + 1)%nat /\
    count is_refresh new = count is_fetch_failure new /\
    (count is_sleep new <= count is_fetch_failure new)%nat /\
    (count (is_save cfg_vehicle_data_file) new <= 1)%nat /\
    count is_attempt new = O /\ count is_wake new = O /\
    (forall f, f <> cfg_vehicle_data_file ->
               f <> cfg_access_token_file -> f <> cfg_refresh_token_file ->
               w_files (world_of (f_get_vehicle_data_loop py_repr body_text id retries w)) !! f =
               w_files w !! f) /\
    count is_retry_sleep new = count is_sleep new.
Proof.
  destruct (fetch_effect py_repr body_text id retries w)
    as (kn & rn & Hl & Hk1 & Hk2 & Hr1 & (H1 & H2 & H3 & H4 & H5) & Hf).
  assert (Hk : forall p, (forall e, is_save cfg_vehicle_data_file e = true -> p e = false) ->
                         count p kn = O).
  { intros p Hp. apply (count_none (is_save cfg_vehicle_data_file)); assumption. }
  assert (Hr : forall p, (forall e, of_retry is_fetch e = true -> p e = false) ->
                         count p rn = O).
  { intros p Hp. apply (count_none (of_retry is_fetch)); assumption. }
  exists (kn ++ rn)%list. split; [rewrite Hl, app_assoc; reflexivity|].
  repeat rewrite count_app.
  rewrite (Hk is_fetch), (Hk is_fetch_failure), (Hk is_refresh), (Hk is_sleep),
    (Hk is_retry_sleep),
    (Hk is_attempt), (Hk is_wake), (Hr is_attempt), (Hr is_wake),
    (Hr (is_save cfg_vehicle_data_file));
    try (intros e He; apply save_other in He; tauto);
    try (intros e He; apply of_fetch_other in He; tauto).
  pose proof (count_length (is_save cfg_vehicle_data_file) kn) as Hlen.
  repeat split; try assumption; try lia.
Qed.



Lemma in_tail {A : Type} (x : A) (l : list A) : In x (tail l) -> In x l.
Proof. destruct l; [exact id | right; assumption]. Qed.

Lemma fetch_saved (py_repr : json -> string) (body_text : json -> result string)
      (id : json) (retries : nat) :
  forall w : World,
    saved_reply body_text w (f_get_vehicle_data_loop py_repr body_text id retries w).
Proof.
  induction retries as [|n IH]; intros w; [left; reflexivity|].
  cbn [f_get_vehicle_data_loop].
  assert (Hbody : forall token : option string,
             saved_reply body_text w
               ((fun _token : option string =>
                   run idtext <- lift (pct_d_json id);
                   run resp <- urlopen GET (data_url idtext);
                   match resp with
                   | None =>
                       run _ <- f_update_access_token py_repr;
                       run _ <- sleep cfg_retry_sleep;
                       f_get_vehicle_data_loop py_repr body_text id n
                   | Some obj =>
                       run ok <- lift (has_response obj);
                       if ok then
                         run text <- lift (body_text obj);
                         f_save_data cfg_vehicle_data_file text
                       else ret tt
                   end) token w)).
  { intros _. cbv beta. unfold bind at 1. unfold lift at 1.
    destruct (pct_d_json id) as [s|e]; [|left; reflexivity].
    assert (Hfail : forall w1 : World,
               w_files w1 = w_files w ->
               (forall r, In r (w_net w1) -> In r (w_net w)) ->
               saved_reply body_text w
                 ((run _ <- f_update_access_token py_repr;
                   run _ <- sleep cfg_retry_sleep;
                   f_get_vehicle_data_loop py_repr body_text id n) w1)).
    { intros w1 Hfiles Hsub.
      pose proof (refresh_files_other py_repr w1 cfg_vehicle_data_file) as Hrf.
      pose proof (refresh_trace py_repr w1) as Hnet. cbv zeta in Hnet.
      destruct Hnet as (_ & _ & _ & _ & _ & Hnet).
      unfold bind at 1.
      destruct (f_update_access_token py_repr w1) as [[] w2|e w2|w2];
        cbn [world_of] in Hrf, Hnet;
        try (left; cbn [world_of]; rewrite Hrf, Hfiles by discriminate; reflexivity).
      unfold bind, sleep.
      destruct (IH (log_event (EvSleep cfg_retry_sleep) w2))
        as [Hsame|(parsed & text & Hin & Hresp & Htext & Hdone & Hfile)].
      - left. rewrite Hsame. cbn [w_files log_event].
        rewrite Hrf, Hfiles by discriminate. reflexivity.
      - right. exists parsed, text. repeat split; try assumption.
        apply Hsub. apply in_tail. rewrite <- Hnet. exact Hin. }
    unfold bind at 1. unfold urlopen.
    destruct (w_net w) as [|[| |parsed] rest] eqn:Enet.
    - apply Hfail; [reflexivity|]. cbn [w_net log_event]. rewrite Enet. auto.
    - apply Hfail; [reflexivity|]. cbn [w_net]. intros r Hr. right. exact Hr.
    - left. reflexivity.
    - unfold bind, lift.
      destruct (has_response (default JNull parsed)) as [[|]|e] eqn:Eresp;
        [|left; reflexivity..].
      destruct (body_text (default JNull parsed)) as [text|e] eqn:Etext;
        [|left; reflexivity].
      unfold f_save_data. cbn [w_locked w_files].
      destruct (decide (cfg_vehicle_data_file ∈ w_locked w)); [left; reflexivity|].
      destruct (has_surrogate text); [left; reflexivity|].
      right. exists parsed, text. cbn [world_of w_files].
      split; [rewrite Enet; left; reflexivity|].
      split; [exact Eresp|]. split; [exact Etext|]. split; [reflexivity|].
      apply lookup_insert_eq. }
  unfold bind at 1. unfold f_get_token.
  destruct (w_files w !! cfg_access_token_file) as [token|].
  - exact (Hbody (Some (rstrip_newline (universal_newlines token)))).
  - exact (Hbody None).
Qed.

(** X12: a fetch changes the data file only by writing the text of a reply,
    followed by a newline: one of the replies that were to come, in which a
    response is found (the reply is an object with a response field, null or
    not, or a list or a string in which the word occurs) and whose body
    decodes; the fetch has then returned normally. *)
Theorem fetch_saves_reply (py_repr : json -> string) (body_text : json -> result string)
        (id : json) (retries : nat) (w : World) :
  w_files (world_of (f_get_vehicle_data_loop py_repr body_text id retries w))
    !! cfg_vehicle_data_file <> w_files w !! cfg_vehicle_data_file ->
  exists parsed text,
    In (NetBody parsed) (w_net w) /\
    has_response (default JNull parsed) = Ok true /\
    body_text (default JNull parsed) = Ok text /\
    f_get_vehicle_data_loop py_repr body_text id retries w =
      Done tt (world_of (f_get_vehicle_data_loop py_repr body_text id retries w)) /\
    w_files (world_of (f_get_vehicle_data_loop py_repr body_text id retries w))
      !! cfg_vehicle_data_file = Some (text ++ newline).
Proof.
  intros Hne.
  destruct (fetch_saved py_repr body_text id retries w) as [Hsame|H];
    [contradiction | exact H].
Qed.

Lemma fetch_saves_reply_witness :
  exists parsed text,
    In (NetBody parsed) (w_net (world_with [NetFail; NetFail; NetBody (Some null_response)])) /\
    has_response (default JNull parsed) = Ok true /\
    fixed_text (default JNull parsed) = Ok text /\
    f_get_vehicle_data no_repr fixed_text (JInt 42)
      (world_with [NetFail; NetFail; NetBody (Some null_response)]) =
      Done tt (world_of (f_get_vehicle_data no_repr fixed_text (JInt 42)
                 (world_with [NetFail; NetFail; NetBody (Some null_response)]))) /\
    w_files (world_of (f_get_vehicle_data no_repr fixed_text (JInt 42)
                 (world_with [NetFail; NetFail; NetBody (Some null_response)])))
      !! cfg_vehicle_data_file = Some (text ++ newline).
Proof.
  apply (fetch_saves_reply no_repr fixed_text (JInt 42) cfg_api_retries
           (world_with [NetFail; NetFail; NetBody (Some null_response)])).
  vm_compute. discriminate.
Defined.

(** X13: the first reply that arrives ends the fetch, whatever it holds.
    With an id that [%d] formats and a first reply in which a response is
    found, the fetch sends one request and decodes the body; a body that
    does not decode makes it raise, the data file untouched; otherwise it
    saves the text and a newline to the data file, and returns.  When the
    data file cannot be opened the process exits instead, and a text that
    cannot be encoded makes the write raise.  The access token file need not
    be readable. *)
Theorem fetch_first_reply (py_repr : json -> string) (body_text : json -> result string)
        (id : json) (retries : nat) (w : World) (s : string) (parsed : option json)
        (rest : list reply) :
  pct_d_json id = Ok s ->
  w_net w = NetBody parsed :: rest ->
  has_response (default JNull parsed) = Ok true ->
  let asked := mkWorld (w_files w) (w_locked w) rest
                       (EvRequest GET (data_url s) true :: w_log w) in
  f_get_vehicle_data_loop py_repr body_text id (S retries) w =
  match body_text (default JNull parsed) with
  | Raise e => Raised e asked
  | Ok text =>
      if decide (cfg_vehicle_data_file ∈ w_locked w) then Exited asked
      else if has_surrogate text then Raised UnicodeEncodeError asked
      else Done tt (mkWorld (<[cfg_vehicle_data_file := text ++ newline]> (w_files w))
                            (w_locked w) rest
                            (EvSave cfg_vehicle_data_file
                               :: EvRequest GET (data_url s) true :: w_log w))
  end.
Proof.
  intros Hid Hnet Hresp asked. subst asked.
  cbn [f_get_vehicle_data_loop]. unfold bind at 1. unfold f_get_token.
  assert (Hbody :
            (run idtext <- lift (pct_d_json id);
             run resp <- urlopen GET (data_url idtext);
             match resp with
             | None =>
                 run _ <- f_update_access_token py_repr;
                 run _ <- sleep cfg_retry_sleep;
                 f_get_vehicle_data_loop py_repr body_text id retries
             | Some obj =>
                 run ok <- lift (has_response obj);
                 if ok then
                   run text <- lift (body_text obj);
                   f_save_data cfg_vehicle_data_file text
                 else ret tt
             end) w =
            match body_text (default JNull parsed) with
            | Raise e =>
                Raised e (mkWorld (w_files w) (w_locked w) rest
                                  (EvRequest GET (data_url s) true :: w_log w))
            | Ok text =>
                if decide (cfg_vehicle_data_file ∈ w_locked w)
                then Exited (mkWorld (w_files w) (w_locked w) rest
                                     (EvRequest GET (data_url s) true :: w_log w))
                else if has_surrogate text
                then Raised UnicodeEncodeError
                            (mkWorld (w_files w) (w_locked w) rest
                                     (EvRequest GET (data_url s) true :: w_log w))
                else Done tt (mkWorld (<[cfg_vehicle_data_file := text ++ newline]>
                                         (w_files w))
                                      (w_locked w) rest
                                      (EvSave cfg_vehicle_data_file
                                         :: EvRequest GET (data_url s) true :: w_log w))
            end).
  { unfold bind at 1. unfold lift at 1. rewrite Hid.
    unfold bind at 1. unfold urlopen. rewrite Hnet.
    unfold bind, lift. rewrite Hresp.
    destruct (body_text (default JNull parsed)) as [text|e]; [|reflexivity].
    unfold f_save_data. cbn [w_locked w_files w_net w_log].
    destruct (decide (cfg_vehicle_data_file ∈ w_locked w)); [reflexivity|].
    destruct (has_surrogate text); reflexivity. }
  destruct (w_files w !! cfg_access_token_file); exact Hbody.
Qed.

Lemma fetch_first_reply_witness :
  f_get_vehicle_data no_repr fixed_text (JInt 42)
    (mkWorld ∅ ∅ [NetBody (Some null_response)] []) =
  Done tt (mkWorld (<[cfg_vehicle_data_file := "{}" ++ newline]> ∅) ∅ []
                   [EvSave cfg_vehicle_data_file;
                    EvRequest GET (data_url "42") true]) /\
  f_get_vehicle_data no_repr undecodable (JInt 42)
    (mkWorld ∅ ∅ [NetBody (Some null_response)] []) =
  Raised UnicodeDecodeError (mkWorld ∅ ∅ [] [EvRequest GET (data_url "42") true]).
Proof.
  split.
  - etransitivity.
    + apply (fetch_first_reply no_repr fixed_text (JInt 42) 2
               (mkWorld ∅ ∅ [NetBody (Some null_response)] []) "42"
               (Some null_response) []); reflexivity.
    + vm_compute. reflexivity.
  - etransitivity.
    + apply (fetch_first_reply no_repr undecodable (JInt 42) 2
               (mkWorld ∅ ∅ [NetBody (Some null_response)] []) "42"
               (Some null_response) []); reflexivity.
    + reflexivity.
Defined.

(** X14: the first reply that arrives ends the wake-up, whatever it holds:
    with an id that [%d] formats, one request is sent, no token is
    refreshed, nothing sleeps, and no file is written; the routine returns,
    or raises when the reply cannot be reported. *)
Theorem wake_first_reply (py_repr : json -> string) (id : json)
        (retries : nat) (w : World) (s : string) (parsed : option json)
        (rest : list reply) :
  pct_d_json id = Ok s ->
  w_net w = NetBody parsed :: rest ->
  f_wake_vehicle_loop py_repr id (S retries) w =
  lift (wake_report (default JNull parsed))
       (mkWorld (w_files w) (w_locked w) rest
                (EvRequest POST (wake_url s) true :: w_log w)).
Proof.
  intros Hid Hnet.
  cbn [f_wake_vehicle_loop]. unfold bind at 1. unfold f_get_token.
  assert (Hbody :
            (run idtext <- lift (pct_d_json id);
             run resp <- urlopen POST (wake_url idtext);
             match resp with
             | None =>
                 run _ <- f_update_access_token py_repr;
                 run _ <- sleep cfg_retry_sleep;
                 f_wake_vehicle_loop py_repr id retries
             | Some obj => lift (wake_report obj)
             end) w =
            lift (wake_report (default JNull parsed))
                 (mkWorld (w_files w) (w_locked w) rest
                          (EvRequest POST (wake_url s) true :: w_log w))).
  { unfold bind at 1. unfold lift at 1. rewrite Hid.
    unfold bind at 1. unfold urlopen. rewrite Hnet. reflexivity. }
  destruct (w_files w !! cfg_access_token_file); exact Hbody.
Qed.

Lemma wake_first_reply_witness :
  f_wake_vehicle no_repr (JInt 42)
    (mkWorld ∅ ∅ [NetBody (Some (JDict [("error", JStr "vehicle unavailable")]))] []) =
  Done tt (mkWorld ∅ ∅ [] [EvRequest POST (wake_url "42") true]).
Proof.
  apply (wake_first_reply no_repr (JInt 42) 2
           (mkWorld ∅ ∅ [NetBody (Some (JDict [("error", JStr "vehicle unavailable")]))] [])
           "42" (Some (JDict [("error", JStr "vehicle unavailable")])) []); reflexivity.
Defined.

(** ** The first half of a cycle *)

Lemma made_refl (k : event -> bool) (l : list event) : made_of k l l.
Proof. exists []. split; reflexivity. Qed.

Lemma made_cons (k : event -> bool) (e : event) (l l' : list event) :
  k e = true -> made_of k l l' -> made_of k l (e :: l').
Proof.
  intros He (new & -> & Hall). exists (e :: new). split; [reflexivity|].
  cbn [forallb]. rewrite He, Hall. reflexivity.
Qed.

Lemma made_trans (k : event -> bool) (l1 l2 l3 : list event) :
  made_of k l1 l2 -> made_of k l2 l3 -> made_of k l1 l3.
Proof.
  intros (n1 & -> & H1) (n2 & -> & H2). exists (n2 ++ n1)%list.
  split; [apply app_assoc|]. rewrite forallb_app, H1, H2. reflexivity.
Qed.

Lemma refresh_made_listing (py_repr : json -> string) (w : World) :
  made_of of_listing (w_log w) (w_log (world_of (f_update_access_token py_repr w))).
Proof.
  destruct (refresh_events py_repr w) as (new & Hnew & Hall & _).
  exists new. split; [exact Hnew|].
  apply (forallb_weaken of_refresh); [exact Hall|].
  intros e He. unfold of_listing. rewrite He. apply orb_true_r.
Qed.

Lemma listing_events (py_repr : json -> string) (retries : nat) :
  forall w : World,
    made_of of_listing (w_log w)
            (w_log (world_of (f_get_vehicle_id_loop py_repr retries w))).
Proof.
  induction retries as [|n IH]; intros w; [apply made_refl|].
  assert (Hfail : forall w1 : World,
             made_of of_listing (w_log w) (w_log w1) ->
             made_of of_listing (w_log w) (w_log (world_of
               (bind (bind (f_update_access_token py_repr) (fun _ => ret None))
                  (fun found : option vehicle =>
                     match found with
                     | Some x => ret (Some x)
                     | None => bind (sleep cfg_retry_sleep)
                                 (fun _ => f_get_vehicle_id_loop py_repr n)
                     end) w1)))).
  { intros w1 H1.
    pose proof (refresh_made_listing py_repr w1) as Hw. unfold bind at 1 2.
    destruct (f_update_access_token py_repr w1) as [[] w2|e w2|w2];
      cbn [world_of] in Hw; unfold ret; cbv beta iota;
      try (cbn [world_of]; eapply made_trans; eassumption).
    unfold bind, sleep.
    eapply made_trans; [|apply IH].
    cbn [w_log log_event]. apply made_cons; [reflexivity|].
    eapply made_trans; eassumption. }
  cbn [f_get_vehicle_id_loop]. unfold bind at 1. unfold f_get_token.
  destruct (w_files w !! cfg_access_token_file) as [token|];
    [|apply made_refl].
  unfold bind at 1. unfold urlopen.
  destruct (w_net w) as [|[| |parsed] rest].
  - apply Hfail. apply made_cons; [reflexivity | apply made_refl].
  - apply Hfail. apply made_cons; [reflexivity | apply made_refl].
  - apply made_cons; [reflexivity | apply made_refl].
  - unfold bind at 1. unfold lift.
    destruct (vehicle_of_response (default JNull parsed)) as [[x|]|e];
      try (apply made_cons; [reflexivity | apply made_refl]).
    unfold bind, sleep. cbv beta iota.
    eapply made_trans; [|apply IH].
    cbn [w_log log_event].
    apply made_cons; [reflexivity|]. apply made_cons; [reflexivity | apply made_refl].
Qed.

Lemma of_listing_other (e : event) :
  of_listing e = true ->
  is_fetch e = false /\ is_wake e = false /\ is_save cfg_vehicle_data_file e = false.
Proof.
  unfold of_listing. destruct (of_refresh e) eqn:R.
  { intros _. apply of_refresh_other in R. tauto. }
  rewrite orb_false_r.
  destruct e as [[|] url b|secs|f]; cbn; intros H; try discriminate H;
    repeat split; try reflexivity.
  rewrite orb_false_r in H. apply String.eqb_eq in H. subst url. reflexivity.
Qed.

Lemma failure_is_attempt (e : event) : is_transport_failure e = true -> is_attempt e = true.
Proof.
  destruct e as [[|] url [|]|secs|f]; cbn; intros H;
    first [discriminate H | exact H].
Qed.

(** What the listing adds to the log, in numbers. *)
Lemma listing_counts (py_repr : json -> string) (retries : nat) (w : World) :
  exists new,
    w_log (world_of (f_get_vehicle_id_loop py_repr retries w)) = (new ++ w_log w)%list /\
    (count is_attempt new <= retries)%nat /\
    (count is_refresh new <= count is_attempt new)%nat /\
    (count is_sleep new <= count is_attempt new)%nat /\
    count is_retry_sleep new = count is_sleep new /\
    count is_fetch new = O /\ count is_wake new = O /\
    count (is_save cfg_vehicle_data_file) new = O.
Proof.
  destruct (listing_events py_repr retries w) as (new & Hnew & Hall).
  pose proof (loop_trace py_repr retries w) as Ht. unfold trace_within in Ht.
  rewrite Hnew in Ht. repeat rewrite count_app in Ht.
  pose proof (count_le is_transport_failure is_attempt new failure_is_attempt) as Hle.
  exists new. split; [exact Hnew|].
  repeat split; try lia;
    apply (count_none of_listing); try exact Hall;
    intros e He; apply of_listing_other in He; tauto.
Qed.

(** X15: the first half of a cycle, in requests.  It never asks for the data
    and wakes the car in the same cycle; it wakes the car only when the clock
    is more than [cfg_sleep_allowed] seconds past the time the car was last
    seen online; it sends at most [cfg_api_retries] requests of each kind,
    refreshes the token and pauses at most twice that often, each pause being
    the retry pause, and saves the data file at most once. *)
Theorem head_requests (py_repr : json -> string) (body_text : json -> result string)
        (now : Q) (g : Globals) (w : World) :
  exists new,
    w_log (world_of (poll_head py_repr body_text now g w)) = (new ++ w_log w)%list /\
    (count is_fetch new = O \/ count is_wake new = O) /\
    (count is_wake new <> O -> (inject_Z cfg_sleep_allowed < now - G_last_online g)%Q) /\
    (count is_attempt new <= cfg_api_retries)%nat /\
    (count is_fetch new <= cfg_api_retries)%nat /\
    (count is_wake new <= cfg_api_retries)%nat /\
    (count is_refresh new <= 2 * cfg_api_retries)%nat /\
    (count is_sleep new <= 2 * cfg_api_retries)%nat /\
    count is_retry_sleep new = count is_sleep new /\
    (count (is_save cfg_vehicle_data_file) new <= 1)%nat.
Proof.
  unfold poll_head, f_get_vehicle_id, f_get_vehicle_data, f_wake_vehicle.
  unfold bind at 1.
  destruct (listing_counts py_repr cfg_api_retries w)
    as (ln & Hln & L1 & L2 & L3 & L4 & L5 & L6 & L7).
  assert (Hlisting :
            exists new,
              w_log (world_of (f_get_vehicle_id_loop py_repr cfg_api_retries w))
              = (new ++ w_log w)%list /\
              (count is_fetch new = O \/ count is_wake new = O) /\
              (count is_wake new <> O ->
               (inject_Z cfg_sleep_allowed < now - G_last_online g)%Q) /\
              (count is_attempt new <= cfg_api_retries)%nat /\
              (count is_fetch new <= cfg_api_retries)%nat /\
              (count is_wake new <= cfg_api_retries)%nat /\
              (count is_refresh new <= 2 * cfg_api_retries)%nat /\
              (count is_sleep new <= 2 * cfg_api_retries)%nat /\
              count is_retry_sleep new = count is_sleep new /\
              (count (is_save cfg_vehicle_data_file) new <= 1)%nat).
  { exists ln. split; [exact Hln|]. repeat split; lia. }
  destruct (f_get_vehicle_id_loop py_repr cfg_api_retries w) as [[x|] w1|e w1|w1];
    cbn [world_of] in Hln, Hlisting; try exact Hlisting.
  destruct (is_str "online" (v_state x)) eqn:Eonline.
  - destruct (fetch_events py_repr body_text (v_id x) cfg_api_retries w1)
      as (fn & Hfn & F1 & F2 & F3 & F4 & F5 & F6 & F7 & _ & F9).
    pose proof (count_le is_fetch_failure is_fetch fn failure_is_fetch) as Hle.
    exists (fn ++ ln)%list. split.
    + unfold bind, ret.
      destruct (f_get_vehicle_data_loop py_repr body_text (v_id x) cfg_api_retries w1)
        as [[] w2|e w2|w2]; cbn [world_of] in Hfn |- *;
        rewrite Hfn, Hln; apply app_assoc.
    + repeat rewrite count_app. repeat split; lia.
  - destruct (wake_due now (Some x) g) eqn:Ewake; [|exact Hlisting].
    destruct (wake_events py_repr (v_id x) cfg_api_retries w1)
      as (wn & Hwn & W1 & W2 & W3 & W4 & W5 & W6 & W7 & _ & W9).
    pose proof (count_le is_wake_failure is_wake wn failure_is_wake) as Hle.
    exists (wn ++ ln)%list. split.
    + unfold bind, ret.
      destruct (f_wake_vehicle_loop py_repr (v_id x) cfg_api_retries w1)
        as [[] w2|e w2|w2]; cbn [world_of] in Hwn |- *;
        rewrite Hwn, Hln; apply app_assoc.
    + repeat rewrite count_app. repeat split; try lia.
      intros _. unfold wake_due in Ewake.
        apply andb_true_iff in Ewake as [_ Ewake]. apply Qgtb_lt. exact Ewake.
Qed.

(** ** The loop: schedule, wake-up guard, reloads, heartbeat *)

Lemma poll_reload_rest (frames : nat) (age : Q) (obj : json) (g : Globals) :
  G_last_loop (globals_of (poll_reload frames age obj g)) = G_last_loop g /\
  G_last_online (globals_of (poll_reload frames age obj g)) = G_last_online g /\
  cycle_start (globals_of (poll_reload frames age obj g)) = cycle_start g /\
  (poll_freq (globals_of (poll_reload frames age obj g)) = poll_freq g \/
   known_interval (poll_freq (globals_of (poll_reload frames age obj g)))).
Proof.
  unfold poll_reload, known_interval.
  destruct (payload_online obj) as [[|]|e]; try (cbn; tauto).
  destruct (py_item obj "response") as [resp|e]; try (cbn; tauto).
  destruct (f_iterate frames resp cfg_metrics_prefix []) as [new|e new]; try (cbn; tauto).
  destruct (1 <? List.length new)%nat; try (cbn; tauto).
  destruct (shift_state_is_D resp) as [[|]|e]; cbn; tauto.
Qed.

Lemma stale_check_rest (age now : Q) (g : Globals) :
  G_last_loop (stale_check age now g) = G_last_loop g /\
  G_last_online (stale_check age now g) = G_last_online g /\
  cycle_start (stale_check age now g) = cycle_start g /\
  poll_freq (stale_check age now g) = poll_freq g /\
  G_last_load (stale_check age now g) = G_last_load g /\
  (G_metrics_cur (stale_check age now g) = G_metrics_cur g \/
   G_metrics_cur (stale_check age now g) = None).
Proof.
  unfold stale_check. destruct (G_metrics_cur g) eqn:E; [|tauto].
  destruct (Qgtb _ _); cbn; tauto.
Qed.

(** One cycle, field by field. *)
Lemma poll_cycle_fields (frames : nat) (c : Cycle) (g : Globals) :
  G_last_loop (globals_of (poll_cycle frames c g)) = c_now c /\
  G_last_online (globals_of (poll_cycle frames c g)) =
    (if seen_online c then c_now c else G_last_online g) /\
  (poll_freq (globals_of (poll_cycle frames c g)) = poll_freq g \/
   known_interval (poll_freq (globals_of (poll_cycle frames c g)))) /\
  (forall g', poll_cycle frames c g = Completed g' ->
              cycle_start g' = (cycle_start g + inject_Z (poll_freq g'))%Q).
Proof.
  unfold poll_cycle, poll_tail, reload_if_newer, seen_online.
  set (g0 := loop_head (c_now c) (c_vehicle c) g).
  set (age := f_get_file_age (c_disk c) cfg_vehicle_data_file).
  assert (H0 : G_last_loop g0 = c_now c /\
               G_last_online g0 =
                 (if match c_vehicle c with
                     | Some x => is_str "online" (v_state x)
                     | None => false
                     end then c_now c else G_last_online g) /\
               poll_freq g0 = poll_freq g /\ cycle_start g0 = cycle_start g).
  { repeat split; reflexivity. }
  destruct H0 as (A1 & A2 & A3 & A4).
  assert (Hdone : forall g1,
             G_last_loop g1 = G_last_loop g0 -> G_last_online g1 = G_last_online g0 ->
             cycle_start g1 = cycle_start g0 ->
             (poll_freq g1 = poll_freq g0 \/ known_interval (poll_freq g1)) ->
             G_last_loop (fst (cycle_end (c_end c) (stale_check age (c_stale_now c) g1)))
               = c_now c /\
             G_last_online (fst (cycle_end (c_end c) (stale_check age (c_stale_now c) g1)))
               = (if match c_vehicle c with
                     | Some x => is_str "online" (v_state x)
                     | None => false
                     end then c_now c else G_last_online g) /\
             (poll_freq (fst (cycle_end (c_end c) (stale_check age (c_stale_now c) g1)))
                = poll_freq g \/
              known_interval
                (poll_freq (fst (cycle_end (c_end c) (stale_check age (c_stale_now c) g1))))) /\
             cycle_start (fst (cycle_end (c_end c) (stale_check age (c_stale_now c) g1)))
               = (cycle_start g +
                  inject_Z (poll_freq
                    (fst (cycle_end (c_end c) (stale_check age (c_stale_now c) g1)))))%Q).
  { intros g1 B1 B2 B3 B4.
    destruct (stale_check_rest age (c_stale_now c) g1) as (S1 & S2 & S3 & S4 & _).
    cbn [cycle_end fst G_last_loop G_last_online poll_freq cycle_start].
    rewrite S1, S2, S3, S4, B1, B2, B3, A1, A2, A4.
    repeat split. rewrite <- A3. exact B4. }
  destruct (Qgtb age (G_last_load g0)).
  - pose proof (poll_reload_rest frames age (f_load_json (c_disk c) cfg_vehicle_data_file) g0)
      as (R1 & R2 & R3 & R4).
    destruct (poll_reload frames age (f_load_json (c_disk c) cfg_vehicle_data_file) g0)
      as [g1|e g1]; cbn [globals_of] in *.
    + destruct (Hdone g1 R1 R2 R3 R4) as (D1 & D2 & D3 & D4).
      repeat split; try assumption. intros g' [= <-]. exact D4.
    + rewrite R1, R2, A1, A2. repeat split; [|discriminate].
      rewrite <- A3. exact R4.
  - cbn [globals_of].
    destruct (Hdone g0 eq_refl eq_refl eq_refl (or_introl eq_refl)) as (D1 & D2 & D3 & D4).
    repeat split; try assumption. intros g' [= <-]. exact D4.
Qed.

Lemma schedule_aux (frames : nat) (cycles : list Cycle) :
  forall g g' : Globals,
    poll_loop frames cycles g = Completed g' ->
    known_interval (poll_freq g) ->
    known_interval (poll_freq g') /\
    exists total : Z,
      intervals_within total (List.length cycles) /\
      (cycle_start g' == cycle_start g + inject_Z total)%Q.
Proof.
  induction cycles as [|c rest IH]; intros g g' Hrun Hfreq.
  - injection Hrun as <-. split; [exact Hfreq|]. exists 0%Z.
    split; [unfold intervals_within; cbn; lia|].
    change (inject_Z 0) with 0%Q. lra.
  - cbn [poll_loop] in Hrun.
    destruct (poll_cycle_fields frames c g) as (_ & _ & Hf & Hstart).
    destruct (poll_cycle frames c g) as [g1|e g1]; [|discriminate Hrun].
    cbn [globals_of] in Hf. specialize (Hstart g1 eq_refl).
    assert (Hf1 : known_interval (poll_freq g1)).
    { destruct Hf as [-> | Hf]; assumption. }
    destruct (IH g1 g' Hrun Hf1) as (Hf' & total & Hin & Heq).
    split; [exact Hf'|]. exists (poll_freq g1 + total)%Z. split.
    + unfold intervals_within, known_interval in *.
      cbn [List.length]. rewrite Nat2Z.inj_succ.
      unfold cfg_drive_interval, cfg_check_interval in *. lia.
    + rewrite Heq, Hstart, inject_Z_plus. lra.
Qed.

(** X16: the schedule.  From a state whose polling interval is the drive or
    the normal interval, the interval is one of the two after any number of
    completed cycles, and every completed cycle has moved the next cycle
    start by the interval then in force, whatever the clock said: the loop
    never resets its schedule, so after [n] cycles the start lies between
    [n] drive intervals and [n] normal intervals after the first one. *)
Theorem schedule_advances (frames : nat) (cycles : list Cycle) (g g' : Globals) :
  poll_loop frames cycles g = Completed g' ->
  known_interval (poll_freq g) ->
  known_interval (poll_freq g') /\
  exists total : Z,
    intervals_within total (List.length cycles) /\
    (cycle_start g' == cycle_start g + inject_Z total)%Q.
Proof. apply schedule_aux. Qed.

Lemma schedule_advances_witness :
  known_interval (poll_freq (after_load payload_driving)) /\
  exists total : Z,
    intervals_within total 1 /\
    (cycle_start (after_load payload_driving) ==
     cycle_start (initial_globals no_disk 900) + inject_Z total)%Q.
Proof.
  apply (schedule_advances default_frames [mkCycle 909 car_online (disk_with 909 payload_driving) 910 911]
           (initial_globals no_disk 900) (after_load payload_driving)).
  - vm_compute. reflexivity.
  - right. reflexivity.
Defined.

Lemma last_online_lower (frames : nat) (t : Q) (cycles : list Cycle) :
  forall g : Globals,
    (t <= G_last_online g)%Q ->
    Forall (fun c => (t <= c_now c)%Q) cycles ->
    (t <= G_last_online (globals_of (poll_loop frames cycles g)))%Q.
Proof.
  induction cycles as [|c rest IH]; intros g Hg Hclock; [exact Hg|].
  apply Forall_cons in Hclock as [Hc Hrest].
  destruct (poll_cycle_fields frames c g) as (_ & Honline & _).
  assert (H1 : (t <= G_last_online (globals_of (poll_cycle frames c g)))%Q).
  { rewrite Honline. destruct (seen_online c); assumption. }
  cbn [poll_loop].
  destruct (poll_cycle frames c g) as [g1|e g1]; cbn [globals_of] in *;
    [apply IH; assumption | exact H1].
Qed.

Lemma wake_due_false (now : Q) (v : option vehicle) (g : Globals) :
  (now - G_last_online g <= inject_Z cfg_sleep_allowed)%Q -> wake_due now v g = false.
Proof.
  intros H. unfold wake_due. destruct v as [x|]; [|reflexivity].
  apply Qgtb_le in H. rewrite H. apply andb_false_r.
Qed.

(** X17: the wake-up guard.  Once a cycle has listed the car online at time
    [t], no later cycle wakes the car as long as its clock is at most
    [cfg_sleep_allowed] seconds after [t] (the clock not running backwards
    behind [t] in between), whatever the listing says then and whether or
    not the loop is still running. *)
Theorem wake_guard (frames : nat) (c : Cycle) (cycles : list Cycle) (g : Globals)
        (now : Q) (v : option vehicle) :
  seen_online c = true ->
  Forall (fun c' => (c_now c <= c_now c')%Q) cycles ->
  (now <= c_now c + inject_Z cfg_sleep_allowed)%Q ->
  wake_due now v (globals_of (poll_loop frames (c :: cycles) g)) = false.
Proof.
  intros Hon Hclock Hnow. apply wake_due_false.
  assert (H : (c_now c <= G_last_online (globals_of (poll_loop frames (c :: cycles) g)))%Q).
  { cbn [poll_loop].
    destruct (poll_cycle_fields frames c g) as (_ & Honline & _).
    rewrite Hon in Honline.
    destruct (poll_cycle frames c g) as [g1|e g1]; cbn [globals_of] in *.
    - apply last_online_lower; [rewrite Honline; lra | exact Hclock].
    - rewrite Honline. lra. }
  lra.
Qed.

Lemma wake_guard_witness :
  wake_due 4500 car_asleep
    (globals_of
       (poll_loop default_frames [mkCycle 909 car_online (disk_with 909 payload_parked) 910 911;
                   mkCycle 959 car_asleep (disk_with 909 payload_parked) 960 961]
                  (initial_globals no_disk 900))) = false.
Proof.
  apply (wake_guard default_frames (mkCycle 909 car_online (disk_with 909 payload_parked) 910 911)
           [mkCycle 959 car_asleep (disk_with 909 payload_parked) 960 961]
           (initial_globals no_disk 900) 4500 car_asleep).
  - reflexivity.
  - constructor; [cbn; lra | constructor].
  - vm_compute. discriminate.
Defined.

Lemma last_online_kept (frames : nat) (cycles : list Cycle) :
  forall g : Globals,
    Forall (fun c => seen_online c = false) cycles ->
    G_last_online (globals_of (poll_loop frames cycles g)) = G_last_online g.
Proof.
  induction cycles as [|c rest IH]; intros g Hoff; [reflexivity|].
  apply Forall_cons in Hoff as [Hc Hrest].
  destruct (poll_cycle_fields frames c g) as (_ & Honline & _).
  rewrite Hc in Honline. cbn [poll_loop].
  destruct (poll_cycle frames c g) as [g1|e g1]; cbn [globals_of] in *;
    [rewrite IH by exact Hrest|]; exact Honline.
Qed.

(** X18: the wake-up repeats.  While no cycle lists the car online, the time
    it was last seen online stays what it was, so once the clock is more
    than [cfg_sleep_allowed] seconds past it, a car listed in any other
    state is woken in every cycle; at start-up that time is 0, so a car that
    is not online is woken in the first cycle already. *)
Theorem wake_repeats (frames : nat) (cycles : list Cycle) (g : Globals) (now : Q) (x : vehicle) :
  Forall (fun c => seen_online c = false) cycles ->
  is_str "online" (v_state x) = false ->
  (G_last_online g + inject_Z cfg_sleep_allowed < now)%Q ->
  wake_due now (Some x) (globals_of (poll_loop frames cycles g)) = true.
Proof.
  intros Hoff Hstate Hnow. unfold wake_due.
  rewrite Hstate, (last_online_kept frames cycles g Hoff). cbn [negb andb].
  apply Qgtb_lt. lra.
Qed.

Lemma wake_repeats_witness :
  wake_due 1000000 car_asleep
    (globals_of
       (poll_loop default_frames [mkCycle 999900 car_asleep no_disk 999901 999902;
                   mkCycle 999950 None no_disk 999951 999952]
                  (initial_globals no_disk 999900))) = true.
Proof.
  apply (wake_repeats default_frames [mkCycle 999900 car_asleep no_disk 999901 999902;
                       mkCycle 999950 None no_disk 999951 999952]
           (initial_globals no_disk 999900) 1000000 (mkVehicle (JInt 42) (JStr "asleep"))).
  - repeat constructor.
  - reflexivity.
  - vm_compute. reflexivity.
Defined.

Lemma cycle_without_news (frames : nat) (c : Cycle) (g : Globals) :
  (f_get_file_age (c_disk c) cfg_vehicle_data_file <= G_last_load g)%Q ->
  exists g',
    poll_cycle frames c g = Completed g' /\
    G_last_load g' = G_last_load g /\
    poll_freq g' = poll_freq g /\
    (G_metrics_cur g' = G_metrics_cur g \/ G_metrics_cur g' = None).
Proof.
  intros Hold. unfold poll_cycle, poll_tail, reload_if_newer.
  change (G_last_load (loop_head (c_now c) (c_vehicle c) g)) with (G_last_load g).
  apply Qgtb_le in Hold. rewrite Hold.
  set (g0 := loop_head (c_now c) (c_vehicle c) g).
  destruct (stale_check_rest (f_get_file_age (c_disk c) cfg_vehicle_data_file)
              (c_stale_now c) g0) as (_ & _ & _ & S4 & S5 & S6).
  eexists. split; [reflexivity|].
  cbn [cycle_end fst G_last_load poll_freq G_metrics_cur].
  rewrite S4, S5. repeat split. exact S6.
Qed.

(** X19: no news, no reload.  While the data file is not newer than the age
    recorded at the last load (a failed stat included), the loop reads no
    payload and so cannot crash on one; the recorded age and the polling
    interval stay as they are, and no snapshot is published: what is
    published is the old snapshot or nothing, and a snapshot that was
    cleared does not come back. *)
Theorem no_news_no_reload (frames : nat) (cycles : list Cycle) (g : Globals) :
  Forall (fun c => (f_get_file_age (c_disk c) cfg_vehicle_data_file <= G_last_load g)%Q)
         cycles ->
  exists g',
    poll_loop frames cycles g = Completed g' /\
    G_last_load g' = G_last_load g /\
    poll_freq g' = poll_freq g /\
    (G_metrics_cur g' = G_metrics_cur g \/ G_metrics_cur g' = None).
Proof.
  revert g. induction cycles as [|c rest IH]; intros g Hold.
  - exists g. repeat split. left. reflexivity.
  - apply Forall_cons in Hold as [Hc Hrest].
    destruct (cycle_without_news frames c g Hc) as (g1 & Hrun & Hload & Hfreq & Hcur).
    cbn [poll_loop]. rewrite Hrun.
    rewrite <- Hload in Hrest.
    destruct (IH g1 Hrest) as (g' & Hrun' & Hload' & Hfreq' & Hcur').
    exists g'. split; [exact Hrun'|]. split; [congruence|]. split; [congruence|].
    destruct Hcur' as [->| ->]; [exact Hcur | right; reflexivity].
Qed.

Lemma no_news_no_reload_witness :
  exists g',
    poll_loop default_frames [mkCycle 959 car_online (disk_with 909 payload_driving) 960 961;
               mkCycle 1009 car_online no_disk 1010 1011]
              (after_load payload_parked) = Completed g' /\
    G_last_load g' = G_last_load (after_load payload_parked) /\
    poll_freq g' = poll_freq (after_load payload_parked) /\
    (G_metrics_cur g' = G_metrics_cur (after_load payload_parked) \/
     G_metrics_cur g' = None).
Proof.
  apply (no_news_no_reload default_frames
           [mkCycle 959 car_online (disk_with 909 payload_driving) 960 961;
            mkCycle 1009 car_online no_disk 1010 1011]
           (after_load payload_parked)).
  repeat constructor; vm_compute; discriminate.
Defined.

Lemma last_load_of_cycle_le (frames : nat) (c : Cycle) (g : Globals) :
  (G_last_load g <= G_last_load (globals_of (poll_cycle frames c g)))%Q.
Proof.
  unfold poll_cycle, poll_tail, reload_if_newer.
  set (g0 := loop_head (c_now c) (c_vehicle c) g).
  set (age := f_get_file_age (c_disk c) cfg_vehicle_data_file).
  change (G_last_load g) with (G_last_load g0).
  assert (Hstale : forall g1, G_last_load (stale_check age (c_stale_now c) g1) =
                              G_last_load g1).
  { intros g1. destruct (stale_check_rest age (c_stale_now c) g1); tauto. }
  destruct (Qgtb age (G_last_load g0)) eqn:Enew.
  - apply Qgtb_lt in Enew.
    destruct (poll_reload_inv frames age (f_load_json (c_disk c) cfg_vehicle_data_file) g0)
      as [(resp & new & _ & _ & _ & _ & Hend)|(_ & Hload & _)].
    + destruct Hend as [(e & _ & ->)|(b & _ & ->)];
        cbn [globals_of cycle_end fst G_last_load]; [|rewrite Hstale];
        cbn [G_last_load set_poll_freq publish]; lra.
    + destruct (poll_reload _ _ _ g0) as [g1|e g1];
        cbn [globals_of cycle_end fst G_last_load] in *;
        [rewrite Hstale|]; rewrite Hload; lra.
  - cbn [globals_of cycle_end fst G_last_load]. rewrite Hstale. lra.
Qed.

(** X20: the recorded load age never goes back: over any run of cycles,
    ended by a crash or not, it is at least what it was, so a data file is
    only ever replaced by a strictly newer one. *)
Theorem last_load_monotone (frames : nat) (cycles : list Cycle) :
  forall g : Globals,
    (G_last_load g <= G_last_load (globals_of (poll_loop frames cycles g)))%Q.
Proof.
  induction cycles as [|c rest IH]; intros g; [cbn; lra|].
  pose proof (last_load_of_cycle_le frames c g) as H1.
  cbn [poll_loop]. destruct (poll_cycle frames c g) as [g1|e g1]; cbn [globals_of] in *.
  - specialize (IH g1). lra.
  - exact H1.
Qed.

(** ** The health check *)

(** X21: the heartbeat.  After a cycle that started at clock [t], ended by a
    crash or not, [/healthz] answers 200 as long as the clock is at most twice
    the normal interval (100 seconds) past [t], and 500 from then on; it
    never raises, sends no header, and its text names the whole seconds
    passed.  So a loop that has died shows as 500 after 100 seconds. *)
Theorem healthz_after_cycle (frames : nat) (c : Cycle) (g : Globals) (now : Q)
        (later : list Globals) :
  exists text,
    do_GET "/healthz" now (globals_of (poll_cycle frames c g)) later =
      Ok (mkResponse (if Qgtb (now - c_now c) (inject_Z (cfg_check_interval * 2))
                      then 500 else 200) [] text) /\
    (Qgtb (now - c_now c) (inject_Z (cfg_check_interval * 2)) = true <->
     (c_now c + 100 < now)%Q) /\
    text = ((if Qgtb (now - c_now c) (inject_Z (cfg_check_interval * 2))
             then "ERR" else "OK")
            ++ " last_loop:" ++ pct_d (Qtrunc (now - c_now c)) ++ " secs ago" ++ newline).
Proof.
  destruct (poll_cycle_fields frames c g) as (Hloop & _).
  unfold do_GET. cbn [String.eqb Ascii.eqb Bool.eqb]. rewrite Hloop.
  destruct (Qgtb (now - c_now c) (inject_Z (cfg_check_interval * 2))) eqn:E.
  - eexists. split; [reflexivity|]. split; [|reflexivity].
    apply Qgtb_lt in E. change (inject_Z (cfg_check_interval * 2)) with 100%Q in E.
    split; [intros _; lra | reflexivity].
  - eexists. split; [reflexivity|]. split; [|reflexivity].
    apply Qgtb_le in E. change (inject_Z (cfg_check_interval * 2)) with 100%Q in E.
    split; [discriminate | intros H; lra].
Qed.

(** ** From the data file to the scrape *)

Lemma stale_check_clears (age now : Q) (g : Globals) :
  (inject_Z cfg_stale_thres < now - age)%Q ->
  G_metrics_cur (stale_check age now g) = None.
Proof.
  intros H. apply Qgtb_lt in H. unfold stale_check.
  destruct (G_metrics_cur g) eqn:E; [rewrite H; reflexivity | exact E].
Qed.

Lemma stale_check_keeps (age now : Q) (g : Globals) :
  (now - age <= inject_Z cfg_stale_thres)%Q ->
  stale_check age now g = g.
Proof.
  intros H. apply Qgtb_le in H. unfold stale_check.
  destruct (G_metrics_cur g); [rewrite H|]; reflexivity.
Qed.

Lemma cycle_publishes (frames : nat) (c : Cycle) (g : Globals) (resp : json)
      (new : metrics) :
  (G_last_load g < f_get_file_age (c_disk c) cfg_vehicle_data_file)%Q ->
  payload_online (f_load_json (c_disk c) cfg_vehicle_data_file) = Ok true ->
  py_item (f_load_json (c_disk c) cfg_vehicle_data_file) "response" = Ok resp ->
  f_iterate frames resp cfg_metrics_prefix [] = Filled new ->
  (1 < List.length new)%nat ->
  (c_stale_now c - f_get_file_age (c_disk c) cfg_vehicle_data_file
   <= inject_Z cfg_stale_thres)%Q ->
  G_metrics_cur (globals_of (poll_cycle frames c g)) = Some new.
Proof.
  intros Hnewer Hon Hresp Hrun Hlen Hfresh.
  unfold poll_cycle, poll_tail, reload_if_newer.
  change (G_last_load (loop_head (c_now c) (c_vehicle c) g)) with (G_last_load g).
  apply Qgtb_lt in Hnewer. rewrite Hnewer.
  unfold poll_reload. rewrite Hon, Hresp, Hrun.
  apply Nat.ltb_lt in Hlen. rewrite Hlen.
  destruct (shift_state_is_D resp) as [[|]|e];
    rewrite ?(stale_check_keeps _ _ _ Hfresh); reflexivity.
Qed.

(** X22: from the data file to the scrape.  When a cycle finds the data file
    newer than the last load, holding an online payload whose response
    flattens to more than one entry, and the file is not older than the
    staleness threshold, a scrape of [/metrics] after that cycle, during
    which the loop publishes or clears nothing and whose text can be encoded,
    answers 200 with exactly the lines of the flattened response, in its
    order, a string value as it is and a boolean as 1 or 0, also when the
    cycle died on the shift state test. *)
Theorem scrape_after_load (frames : nat) (c : Cycle) (g : Globals) (resp : json)
        (new : metrics) (now : Q) (later : list Globals) :
  (G_last_load g < f_get_file_age (c_disk c) cfg_vehicle_data_file)%Q ->
  payload_online (f_load_json (c_disk c) cfg_vehicle_data_file) = Ok true ->
  py_item (f_load_json (c_disk c) cfg_vehicle_data_file) "response" = Ok resp ->
  f_iterate frames resp cfg_metrics_prefix [] = Filled new ->
  (1 < List.length new)%nat ->
  (c_stale_now c - f_get_file_age (c_disk c) cfg_vehicle_data_file
   <= inject_Z cfg_stale_thres)%Q ->
  steady (globals_of (poll_cycle frames c g)) later ->
  has_surrogate (render new) = false ->
  do_GET "/metrics" now (globals_of (poll_cycle frames c g)) later =
  Ok (mkResponse 200 plain_text (render new)).
Proof.
  intros Hnewer Hon Hresp Hrun Hlen Hfresh Hsteady Henc.
  pose proof (cycle_publishes frames c g resp new Hnewer Hon Hresp Hrun Hlen Hfresh) as Hcur.
  pose proof (do_GET_metrics now (globals_of (poll_cycle frames c g)) later Hsteady) as Hget.
  unfold scrape_body in Hget. rewrite Hcur in Hget. apply Hget; [|exact Henc].
  apply payload_online_shape in Hon as (kvs & r & Hobj & Hr & _).
  rewrite Hobj in Hresp. cbn [py_item] in Hresp. rewrite Hr in Hresp.
  injection Hresp as <-.
  pose proof (f_iterate_keys frames r cfg_metrics_prefix []) as [Hnd _].
  rewrite Hrun in Hnd. apply Hnd. constructor.
Qed.

Lemma scrape_after_load_witness :
  do_GET "/metrics" 950
    (globals_of (poll_cycle default_frames
                            (mkCycle 909 car_online (disk_with 909 payload_charging) 910 911)
                            (initial_globals no_disk 900))) [] =
  Ok (mkResponse 200 plain_text
        ("tesla_state{value=" ++ dquote ++ "online" ++ dquote ++ "} 1" ++ newline
           ++ "tesla_charge_state_battery_level 67" ++ newline
           ++ "tesla_charge_state_charge_port_door_open 1" ++ newline
           ++ "tesla_charge_state_fast_charger_present 0" ++ newline)).
Proof.
  apply (scrape_after_load default_frames
           (mkCycle 909 car_online (disk_with 909 payload_charging) 910 911)
           (initial_globals no_disk 900)
           (JDict [("state", JStr "online");
                   ("charge_state", JDict [("battery_level", JInt 67);
                                           ("charge_port_door_open", JBool true);
                                           ("fast_charger_present", JBool false)])])
           [("tesla_state{value=" ++ dquote ++ "online" ++ dquote ++ "}", MStr "1");
            ("tesla_charge_state_battery_level", MStr "67");
            ("tesla_charge_state_charge_port_door_open", MInt 1);
            ("tesla_charge_state_fast_charger_present", MInt 0)]
           950%Q []).
  - vm_compute. reflexivity.
  - reflexivity.
  - reflexivity.
  - reflexivity.
  - cbn. lia.
  - vm_compute. discriminate.
  - constructor.
  - reflexivity.
Defined.

(** X23: a stale file gives an empty scrape.  After a completed cycle that
    found the data file (or the -1 of a failed stat) more than the staleness
    threshold behind the clock, a scrape of [/metrics] answers 200 with an
    empty body, also when that cycle has just loaded the file, and whatever
    the loop does while the scrape is handled. *)
Theorem scrape_when_stale (frames : nat) (c : Cycle) (g g' : Globals) (now : Q)
        (later : list Globals) :
  poll_cycle frames c g = Completed g' ->
  (inject_Z cfg_stale_thres <
   c_stale_now c - f_get_file_age (c_disk c) cfg_vehicle_data_file)%Q ->
  do_GET "/metrics" now g' later = Ok (mkResponse 200 plain_text EmptyString).
Proof.
  intros Hrun Hstale.
  assert (Hcur : G_metrics_cur g' = None).
  { unfold poll_cycle, poll_tail in Hrun.
    destruct (reload_if_newer frames (c_disk c) (loop_head (c_now c) (c_vehicle c) g))
      as [g1|e g1]; [|discriminate Hrun].
    injection Hrun as <-. cbn [cycle_end fst G_metrics_cur].
    apply stale_check_clears. exact Hstale. }
  apply do_GET_nothing. exact Hcur.
Qed.

Lemma scrape_when_stale_witness :
  do_GET "/metrics" 1002
    (globals_of (poll_cycle default_frames
                            (mkCycle 1000 car_online (disk_with 909 payload_parked) 1001 1002)
                            (initial_globals no_disk 900)))
    [after_load payload_parked] =
  Ok (mkResponse 200 plain_text EmptyString).
Proof.
  apply (scrape_when_stale default_frames
           (mkCycle 1000 car_online (disk_with 909 payload_parked) 1001 1002)
           (initial_globals no_disk 900)).
  - vm_compute. reflexivity.
  - vm_compute. reflexivity.
Defined.

(** ** The PKCE helpers *)

Lemma list_ind3 {A : Type} (P : list A -> Prop) :
  P [] -> (forall a, P [a]) -> (forall a b, P [a; b]) ->
  (forall a b c l, P l -> P (a :: b :: c :: l)) ->
  forall l, P l.
Proof.
  intros H0 H1 H2 H3.
  assert (H : forall l, P l /\ (forall a, P (a :: l)) /\ (forall a b, P (a :: b :: l))).
  { induction l as [|x l (IH0 & IH1 & IH2)].
    - auto.
    - repeat split; auto. }
  intros l. apply H.
Qed.

Lemma b64_char_ok (n : N) :
  (n < 64)%N ->
  Ascii.eqb (b64_char n) pad_char = false /\
  has_char (b64_char n) urlsafe_alphabet = true.
Proof.
  intros H.
  assert (Hn : (N.to_nat n < 64)%nat) by lia.
  unfold b64_char. clear H. revert Hn. generalize (N.to_nat n). clear n.
  intros k Hk.
  do 64 (destruct k as [|k]; [split; vm_compute; reflexivity|]).
  lia.
Qed.

Lemma byte_bound (a : Byte.byte) : (Byte.to_N a < 256)%N.
Proof. destruct a; vm_compute; reflexivity. Qed.

Lemma index_bounds (a b c : Byte.byte) :
  (Byte.to_N a / 4 < 64)%N /\
  (Byte.to_N a mod 4 * 16 < 64)%N /\
  (Byte.to_N a mod 4 * 16 + Byte.to_N b / 16 < 64)%N /\
  (Byte.to_N b mod 16 * 4 < 64)%N /\
  (Byte.to_N b mod 16 * 4 + Byte.to_N c / 64 < 64)%N /\
  (Byte.to_N c mod 64 < 64)%N.
Proof.
  pose proof (byte_bound a) as Ha. pose proof (byte_bound b) as Hb.
  pose proof (byte_bound c) as Hc.
  assert (A1 : (Byte.to_N a / 4 < 64)%N) by (apply N.Div0.div_lt_upper_bound; lia).
  assert (A2 : (Byte.to_N a mod 4 < 4)%N) by (apply N.mod_lt; lia).
  assert (B1 : (Byte.to_N b / 16 < 16)%N) by (apply N.Div0.div_lt_upper_bound; lia).
  assert (B2 : (Byte.to_N b mod 16 < 16)%N) by (apply N.mod_lt; lia).
  assert (C1 : (Byte.to_N c / 64 < 4)%N) by (apply N.Div0.div_lt_upper_bound; lia).
  assert (C2 : (Byte.to_N c mod 64 < 64)%N) by (apply N.mod_lt; lia).
  repeat split; lia.
Qed.

Lemma b64_split (data : list Byte.byte) :
  urlsafe_b64encode data = b64_unpadded data ++ b64_pad data.
Proof.
  induction data as [|a|a b|a b c l IH] using list_ind3; try reflexivity.
  cbn [urlsafe_b64encode b64_unpadded b64_pad]. rewrite IH. reflexivity.
Qed.

Lemma has_char_cons (c d : ascii) (s : string) :
  has_char c (String d s) = Ascii.eqb d c || has_char c s.
Proof. reflexivity. Qed.

Lemma b64_unpadded_chars (data : list Byte.byte) :
  has_char pad_char (b64_unpadded data) = false /\
  chars_from urlsafe_alphabet (b64_unpadded data).
Proof.
  unfold chars_from.
  induction data as [|a|a b|a b c l [IH1 IH2]] using list_ind3.
  - split; [reflexivity | discriminate].
  - destruct (index_bounds a a a) as (I1 & I2 & _).
    destruct (b64_char_ok _ I1) as [P1 Q1]. destruct (b64_char_ok _ I2) as [P2 Q2].
    cbn [b64_unpadded]. split.
    + rewrite !has_char_cons, P1, P2. reflexivity.
    + intros ch. rewrite !has_char_cons. cbn [has_char]. rewrite orb_false_r.
      intros H. apply orb_true_iff in H as [H|H]; apply Ascii.eqb_eq in H; subst ch;
        assumption.
  - destruct (index_bounds a b b) as (I1 & _ & I2 & I3 & _).
    destruct (b64_char_ok _ I1) as [P1 Q1]. destruct (b64_char_ok _ I2) as [P2 Q2].
    destruct (b64_char_ok _ I3) as [P3 Q3].
    cbn [b64_unpadded]. split.
    + rewrite !has_char_cons, P1, P2, P3. reflexivity.
    + intros ch. rewrite !has_char_cons. cbn [has_char]. rewrite orb_false_r.
      intros H. repeat (apply orb_true_iff in H as [H|H]);
        apply Ascii.eqb_eq in H; subst ch; assumption.
  - destruct (index_bounds a b c) as (I1 & _ & I2 & _ & I3 & I4).
    destruct (b64_char_ok _ I1) as [P1 Q1]. destruct (b64_char_ok _ I2) as [P2 Q2].
    destruct (b64_char_ok _ I3) as [P3 Q3]. destruct (b64_char_ok _ I4) as [P4 Q4].
    cbn [b64_unpadded]. split.
    + rewrite !has_char_cons, P1, P2, P3, P4. exact IH1.
    + intros ch. rewrite !has_char_cons.
      intros H. repeat (apply orb_true_iff in H as [H|H]);
        try (apply Ascii.eqb_eq in H; subst ch; assumption).
      apply IH2. exact H.
Qed.

Lemma b64_pad_only (data : list Byte.byte) :
  rstrip_char pad_char (b64_pad data) = EmptyString.
Proof.
  induction data as [|a|a b|a b c l IH] using list_ind3; try reflexivity.
  exact IH.
Qed.

Lemma rstrip_char_clean (c : ascii) (s pad : string) :
  has_char c s = false ->
  rstrip_char c pad = EmptyString ->
  rstrip_char c (s ++ pad) = s.
Proof.
  intros Hs Hpad. induction s as [|d r IH]; [exact Hpad|].
  rewrite has_char_cons in Hs. apply orb_false_iff in Hs as [Hd Hr].
  change (String d r ++ pad) with (String d (r ++ pad)).
  cbn [rstrip_char]. rewrite (IH Hr), Hd. destruct r; reflexivity.
Qed.

Lemma unpadded (data : list Byte.byte) :
  rstrip_char pad_char (urlsafe_b64encode data) = b64_unpadded data.
Proof.
  rewrite b64_split. apply rstrip_char_clean.
  - apply b64_unpadded_chars.
  - apply b64_pad_only.
Qed.

Lemma b64_unpadded_length (data : list Byte.byte) :
  String.length (b64_unpadded data) = ((4 * List.length data + 2) / 3)%nat.
Proof.
  induction data as [|a|a b|a b c l IH] using list_ind3; try reflexivity.
  cbn [b64_unpadded String.length List.length]. rewrite IH.
  replace (4 * S (S (S (List.length l))) + 2)%nat
    with ((4 * List.length l + 2) + 4 * 3)%nat by lia.
  rewrite Nat.div_add by discriminate. lia.
Qed.

Lemma alphabet_unreserved : chars_from pkce_unreserved urlsafe_alphabet.
Proof.
  intros c H.
  destruct c as [[|] [|] [|] [|] [|] [|] [|] [|]];
    first [discriminate H | reflexivity].
Qed.

(** X24: the code verifier.  For the 86 random bytes the script asks for,
    the text it prints has 115 characters, all of them letters, digits, [-]
    or [_], none of them the padding character: a length and an alphabet a
    PKCE code verifier may have (43 to 128 unreserved characters). *)
Theorem verifier_shape (random : list Byte.byte) :
  List.length random = 86%nat ->
  String.length (code_verifier random) = 115%nat /\
  chars_from urlsafe_alphabet (code_verifier random) /\
  chars_from pkce_unreserved (code_verifier random) /\
  has_char pad_char (code_verifier random) = false.
Proof.
  intros Hlen. unfold code_verifier. rewrite unpadded.
  destruct (b64_unpadded_chars random) as [Hpad Hchars].
  split; [rewrite b64_unpadded_length, Hlen; reflexivity|].
  split; [exact Hchars|]. split; [|exact Hpad].
  intros c Hc. apply alphabet_unreserved, Hchars, Hc.
Qed.

Lemma verifier_shape_witness :
  String.length (code_verifier (List.repeat Byte.xff 86)) = 115%nat /\
  chars_from urlsafe_alphabet (code_verifier (List.repeat Byte.xff 86)) /\
  chars_from pkce_unreserved (code_verifier (List.repeat Byte.xff 86)) /\
  has_char pad_char (code_verifier (List.repeat Byte.xff 86)) = false.
Proof. apply (verifier_shape (List.repeat Byte.xff 86)). reflexivity. Defined.

(** X25: the code challenge.  With a hash function whose digests have 32
    bytes, the text printed for any verifier has 43 characters of the
    URL-safe alphabet and no padding: the unpadded base64url text of the
    digest. *)
Theorem challenge_shape (sha256 : list Byte.byte -> list Byte.byte)
        (verifier : list Byte.byte) :
  (forall m, List.length (sha256 m) = 32%nat) ->
  String.length (code_challenge sha256 verifier) = 43%nat /\
  chars_from urlsafe_alphabet (code_challenge sha256 verifier) /\
  has_char pad_char (code_challenge sha256 verifier) = false /\
  code_challenge sha256 verifier ++ String pad_char EmptyString =
    urlsafe_b64encode (sha256 verifier).
Proof.
  intros Hlen. unfold code_challenge. rewrite unpadded.
  destruct (b64_unpadded_chars (sha256 verifier)) as [Hpad Hchars].
  split; [rewrite b64_unpadded_length, Hlen; reflexivity|].
  split; [exact Hchars|]. split; [exact Hpad|].
  rewrite b64_split. f_equal.
  specialize (Hlen verifier).
  destruct (sha256 verifier) as [|b l]; [discriminate Hlen|].
  do 31 (destruct l as [|? l]; [discriminate Hlen|]).
  destruct l; [reflexivity | discriminate Hlen].
Qed.

Lemma challenge_shape_witness :
  String.length (code_challenge zero_digest []) = 43%nat /\
  chars_from urlsafe_alphabet (code_challenge zero_digest []) /\
  has_char pad_char (code_challenge zero_digest []) = false /\
  code_challenge zero_digest [] ++ String pad_char EmptyString =
    urlsafe_b64encode (zero_digest []).
Proof. apply (challenge_shape zero_digest []). reflexivity. Defined.

Lemma b64_index_char (n : N) : (n < 64)%N -> b64_index (b64_char n) = n.
Proof.
  intros H.
  assert (Hn : (N.to_nat n < 64)%nat) by lia.
  rewrite <- (N2Nat.id n) at 2.
  unfold b64_char. clear H. revert Hn. generalize (N.to_nat n). clear n.
  intros k Hk.
  do 64 (destruct k as [|k]; [vm_compute; reflexivity|]).
  lia.
Qed.

Lemma b64_char_inj (n m : N) :
  (n < 64)%N -> (m < 64)%N -> b64_char n = b64_char m -> n = m.
Proof.
  intros Hn Hm H. rewrite <- (b64_index_char n Hn), <- (b64_index_char m Hm), H.
  reflexivity.
Qed.

Lemma to_N_inj (a b : Byte.byte) : Byte.to_N a = Byte.to_N b -> a = b.
Proof.
  intros H. pose proof (Byte.of_to_N a) as Ha. pose proof (Byte.of_to_N b) as Hb.
  rewrite H in Ha. congruence.
Qed.

(** A number below 256 from its quotient and remainder. *)
Lemma split_4 (x x' : N) :
  (x / 4 = x' / 4)%N -> (x mod 4 = x' mod 4)%N -> x = x'.
Proof.
  intros Hq Hr. rewrite (N.div_mod x 4), (N.div_mod x' 4) by discriminate.
  rewrite Hq, Hr. reflexivity.
Qed.

Lemma split_16 (x x' : N) :
  (x / 16 = x' / 16)%N -> (x mod 16 = x' mod 16)%N -> x = x'.
Proof.
  intros Hq Hr. rewrite (N.div_mod x 16), (N.div_mod x' 16) by discriminate.
  rewrite Hq, Hr. reflexivity.
Qed.

Lemma split_64 (x x' : N) :
  (x / 64 = x' / 64)%N -> (x mod 64 = x' mod 64)%N -> x = x'.
Proof.
  intros Hq Hr. rewrite (N.div_mod x 64), (N.div_mod x' 64) by discriminate.
  rewrite Hq, Hr. reflexivity.
Qed.

(** Two digits in one number: [hi * k + lo] with [lo < k]. *)
Lemma digits_inj (k hi lo hi' lo' : N) :
  (lo < k)%N -> (lo' < k)%N -> (hi * k + lo = hi' * k + lo')%N ->
  hi = hi' /\ lo = lo'.
Proof.
  intros H1 H2 H.
  assert (Hk : k <> 0%N) by lia.
  assert (E : ((hi * k + lo) / k = (hi' * k + lo') / k)%N) by (rewrite H; reflexivity).
  rewrite !N.div_add_l, !N.div_small in E by assumption.
  assert (hi = hi') as -> by lia.
  split; [reflexivity | lia].
Qed.

Lemma group_inj (a b c a' b' c' : Byte.byte) :
  b64_char (Byte.to_N a / 4) = b64_char (Byte.to_N a' / 4) ->
  b64_char (Byte.to_N a mod 4 * 16 + Byte.to_N b / 16) =
    b64_char (Byte.to_N a' mod 4 * 16 + Byte.to_N b' / 16) ->
  b64_char (Byte.to_N b mod 16 * 4 + Byte.to_N c / 64) =
    b64_char (Byte.to_N b' mod 16 * 4 + Byte.to_N c' / 64) ->
  b64_char (Byte.to_N c mod 64) = b64_char (Byte.to_N c' mod 64) ->
  a = a' /\ b = b' /\ c = c'.
Proof.
  intros H1 H2 H3 H4.
  destruct (index_bounds a b c) as (I1 & _ & I2 & _ & I3 & I4).
  destruct (index_bounds a' b' c') as (J1 & _ & J2 & _ & J3 & J4).
  apply b64_char_inj in H1, H2, H3, H4; try assumption.
  pose proof (byte_bound b) as Bb. pose proof (byte_bound b') as Bb'.
  pose proof (byte_bound c) as Bc. pose proof (byte_bound c') as Bc'.
  apply digits_inj in H2 as [H2a H2b];
    try (apply N.Div0.div_lt_upper_bound; lia).
  apply digits_inj in H3 as [H3a H3b];
    try (apply N.Div0.div_lt_upper_bound; lia).
  repeat split; apply to_N_inj.
  - apply split_4; assumption.
  - apply split_16; assumption.
  - apply split_64; assumption.
Qed.

Lemma b64_unpadded_inj (l1 : list Byte.byte) :
  forall l2, b64_unpadded l1 = b64_unpadded l2 -> l1 = l2.
Proof.
  induction l1 as [|a|a b|a b c l IH] using list_ind3;
    intros [|a' [|b' [|c' l']]] H; cbn [b64_unpadded] in H;
    try reflexivity; try discriminate H.
  - injection H as H1 H2.
    destruct (index_bounds a a a) as (I1 & I2 & _).
    destruct (index_bounds a' a' a') as (J1 & J2 & _).
    apply b64_char_inj in H1, H2; try assumption.
    assert (Ea : a = a') by (apply to_N_inj, split_4; [assumption | lia]).
    subst. reflexivity.
  - injection H as H1 H2 H3.
    destruct (index_bounds a b b) as (I1 & _ & I2 & I3 & _).
    destruct (index_bounds a' b' b') as (J1 & _ & J2 & J3 & _).
    apply b64_char_inj in H1, H2, H3; try assumption.
    pose proof (byte_bound b) as Bb. pose proof (byte_bound b') as Bb'.
    apply digits_inj in H2 as [H2a H2b];
      try (apply N.Div0.div_lt_upper_bound; lia).
    assert (Ea : a = a') by (apply to_N_inj, split_4; assumption).
    assert (Eb : b = b') by (apply to_N_inj, split_16; [assumption | lia]).
    subst. reflexivity.
  - injection H as H1 H2 H3 H4 Hrest.
    destruct (group_inj a b c a' b' c' H1 H2 H3 H4) as (-> & -> & ->).
    rewrite (IH l' Hrest). reflexivity.
Qed.

(** X26: the encoding keeps every bit.  Two different draws of random bytes
    never print the same code verifier, and two verifiers print the same
    code challenge only when their digests are the same. *)
Theorem encoding_keeps_bytes :
  (forall r1 r2 : list Byte.byte, code_verifier r1 = code_verifier r2 -> r1 = r2) /\
  (forall (sha256 : list Byte.byte -> list Byte.byte) (v1 v2 : list Byte.byte),
      code_challenge sha256 v1 = code_challenge sha256 v2 -> sha256 v1 = sha256 v2).
Proof.
  split.
  - intros r1 r2. unfold code_verifier. rewrite !unpadded. apply b64_unpadded_inj.
  - intros sha256 v1 v2. unfold code_challenge. rewrite !unpadded.
    apply b64_unpadded_inj.
Qed.

(** ** What raises, and what does not *)

(** X27: a reply that is JSON but no object can make the token refresh
    raise.  When its request is answered by a number or a boolean, or by a
    list or a string in which both [access_token] and [refresh_token] are
    found, the refresh raises [TypeError] to its caller, after the one
    request, with the token files as they were and nothing saved. *)
Theorem refresh_raises_on_non_object (py_repr : json -> string) (w : World)
        (body : json) (rest : list reply) :
  w_net w = NetBody (Some body) :: rest ->
  breaks_refresh body = true ->
  f_update_access_token py_repr w =
  Raised TypeError (mkWorld (w_files w) (w_locked w) rest
                            (EvRequest POST token_url true :: w_log w)).
Proof.
  intros Hnet Hbody.
  destruct w as [files locked net log]. cbn [w_net] in Hnet. subst net.
  cbn [w_files w_locked w_log]. apply refresh_raises.
  destruct body; try discriminate Hbody; try exact I; exact Hbody.
Qed.

Lemma refresh_raises_on_non_object_witness :
  f_update_access_token no_repr
    (world_with [NetBody (Some (JList [JStr "refresh_token"; JStr "access_token"]))]) =
  Raised TypeError
    (mkWorld {[ cfg_access_token_file := "token" ]} ∅ []
             [EvRequest POST token_url true]).
Proof.
  apply (refresh_raises_on_non_object no_repr
           (world_with [NetBody (Some (JList [JStr "refresh_token"; JStr "access_token"]))])
           (JList [JStr "refresh_token"; JStr "access_token"]) []);
    reflexivity.
Defined.

Lemma shift_state_total (r : list (string * json)) :
  match dict_get "drive_state" r with
  | None | Some (JDict _) => True
  | Some _ => False
  end ->
  exists b, shift_state_is_D (JDict r) = Ok b.
Proof.
  unfold shift_state_is_D, rand, rbind, py_in, py_item, dict_has.
  destruct (dict_get "drive_state" r) as [d|]; [|eauto].
  destruct d as [| | | | | |d]; try contradiction. intros _.
  destruct (dict_get "shift_state" d) as [sh|]; [|eauto].
  cbn. destruct (negb (is_none sh)); eauto.
Qed.

Lemma reload_completes (frames : nat) (age : Q) (obj : json) (g : Globals) :
  well_shaped obj = true ->
  (response_nesting obj <= frames)%nat ->
  exists g', poll_reload frames age obj g = Completed g'.
Proof.
  intros Hshape Hdepth. unfold poll_reload.
  destruct obj as [| | | | | |kvs]; try discriminate Hshape; [cbn; eauto|].
  cbn [well_shaped] in Hshape. unfold response_nesting in Hdepth.
  unfold payload_online, rand, rbind, py_in, py_item, dict_has in *.
  cbn [is_none negb].
  destruct (dict_get "response" kvs) as [resp|]; [|eauto].
  destruct resp as [| | | | | |r]; try discriminate Hshape; [cbn; eauto|].
  cbn [is_none negb].
  destruct (dict_get "state" r) as [st|]; [|eauto].
  destruct (negb (is_none st)); [|eauto].
  destruct (is_str "online" st); [|eauto].
  destruct (f_iterate_within (JDict r) r eq_refl frames cfg_metrics_prefix [] Hdepth)
    as [new ->].
  destruct (1 <? List.length new)%nat; [|eauto].
  destruct (shift_state_total r) as [b ->].
  { destruct (dict_get "drive_state" r) as [[| | | | | |d]|];
      try discriminate Hshape; exact I. }
  destruct b; eauto.
Qed.

Lemma cycle_completes (frames : nat) (c : Cycle) (g : Globals) :
  well_shaped (f_load_json (c_disk c) cfg_vehicle_data_file) = true ->
  (response_nesting (f_load_json (c_disk c) cfg_vehicle_data_file) <= frames)%nat ->
  exists g', poll_cycle frames c g = Completed g'.
Proof.
  intros Hshape Hdepth. unfold poll_cycle, poll_tail, reload_if_newer.
  destruct (Qgtb _ _); [|eauto].
  destruct (reload_completes frames (f_get_file_age (c_disk c) cfg_vehicle_data_file)
              (f_load_json (c_disk c) cfg_vehicle_data_file)
              (loop_head (c_now c) (c_vehicle c) g) Hshape Hdepth) as [g1 ->].
  eauto.
Qed.

(** X28: the second half of the loop does not die on a data file it can
    take.  As long as every data file read is unreadable, null, or an object
    whose response is missing, null, or an object whose drive state, if
    there is one, is an object, and whose response nests no more dicts than
    the walk has frames, every cycle completes: reload, staleness check and
    schedule raise nothing, whatever the fields hold otherwise. *)
Theorem loop_survives (frames : nat) (cycles : list Cycle) (g : Globals) :
  Forall (fun c =>
            well_shaped (f_load_json (c_disk c) cfg_vehicle_data_file) = true /\
            (response_nesting (f_load_json (c_disk c) cfg_vehicle_data_file) <= frames)%nat)
         cycles ->
  exists g', poll_loop frames cycles g = Completed g'.
Proof.
  revert g. induction cycles as [|c rest IH]; intros g Hshape; [cbn; eauto|].
  apply Forall_cons in Hshape as [[Hc Hd] Hrest].
  destruct (cycle_completes frames c g Hc Hd) as [g1 Hrun].
  cbn [poll_loop]. rewrite Hrun. apply IH. exact Hrest.
Qed.

Lemma loop_survives_witness :
  exists g',
    poll_loop default_frames
              [mkCycle 909 car_online (disk_with 909 payload_driving) 910 911;
               mkCycle 959 car_online (disk_with 950 payload_bare) 960 961;
               mkCycle 1009 None no_disk 1010 1011]
              (initial_globals no_disk 900) = Completed g'.
Proof.
  apply (loop_survives default_frames
           [mkCycle 909 car_online (disk_with 909 payload_driving) 910 911;
            mkCycle 959 car_online (disk_with 950 payload_bare) 960 961;
            mkCycle 1009 None no_disk 1010 1011]
           (initial_globals no_disk 900)).
  repeat constructor; vm_compute; lia.
Defined.

(** ** The id the listing hands on *)

Lemma accepted_id_formats (obj : json) (x : vehicle) :
  vehicle_of_response obj = Ok (Some x) -> exists s, pct_d_json (v_id x) = Ok s.
Proof.
  unfold vehicle_of_response. intros H.
  apply rbind_ok in H as [ok [_ H]].
  destruct ok; [|discriminate H].
  apply rbind_ok in H as [r [_ H]].
  apply rbind_ok in H as [r0 [_ H]].
  apply rbind_ok in H as [id [_ H]].
  apply rbind_ok in H as [st [_ H]].
  apply rbind_ok in H as [[] [Hpct H]].
  injection H as <-. cbn [v_id].
  destruct id as [| | |[| |]| | |]; try discriminate Hpct; cbn [pct_d_json]; eauto.
Qed.

Section FirstRequest.

Variable py_repr : json -> string.
Variable id : json.
Variable m : http_method.
Variable mkurl : string -> string.
Variable k : json -> io unit.
Variable loop : nat -> io unit.

Hypothesis loop_S : forall n w,
  loop (S n) w =
  (run _token <- f_get_token cfg_access_token_file;
   run idtext <- lift (pct_d_json id);
   run resp <- urlopen m (mkurl idtext);
   match resp with
   | None =>
       run _ <- f_update_access_token py_repr;
       run _ <- sleep cfg_retry_sleep;
       loop n
   | Some obj => k obj
   end) w.
Hypothesis k_extends : forall obj w, extends (w_log w) (w_log (world_of (k obj w))).
Hypothesis loop_grows : forall n w, extends (w_log w) (w_log (world_of (loop n w))).

Lemma first_request (n : nat) (w : World) (s : string) :
  pct_d_json id = Ok s ->
  exists b, extends (EvRequest m (mkurl s) b :: w_log w)
                    (w_log (world_of (loop (S n) w))).
Proof.
  intros Hid. rewrite loop_S.
  assert (Hbody : forall token : option string,
             exists b, extends (EvRequest m (mkurl s) b :: w_log w)
               (w_log (world_of
                 ((fun _token : option string =>
                     run idtext <- lift (pct_d_json id);
                     run resp <- urlopen m (mkurl idtext);
                     match resp with
                     | None =>
                         run _ <- f_update_access_token py_repr;
                         run _ <- sleep cfg_retry_sleep;
                         loop n
                     | Some obj => k obj
                     end) token w)))).
  { intros _. cbv beta. unfold bind at 1. unfold lift. rewrite Hid.
    assert (Hfail : forall w1 : World,
               w_log w1 = EvRequest m (mkurl s) false :: w_log w ->
               exists b, extends (EvRequest m (mkurl s) b :: w_log w)
                 (w_log (world_of
                   ((run _ <- f_update_access_token py_repr;
                     run _ <- sleep cfg_retry_sleep; loop n) w1)))).
    { intros w1 Hlog. exists false. rewrite <- Hlog.
      pose proof (refresh_extends py_repr w1) as Hr.
      unfold bind at 1.
      destruct (f_update_access_token py_repr w1) as [[] w2|e w2|w2];
        cbn [world_of] in Hr |- *; try exact Hr.
      unfold bind, sleep.
      eapply extends_trans; [exact Hr|].
      eapply extends_trans; [|apply loop_grows].
      cbn [w_log log_event]. apply extends_cons, extends_refl. }
    unfold bind at 1. unfold urlopen.
    destruct (w_net w) as [|[| |parsed] rest]; cbv beta iota.
    - apply Hfail. reflexivity.
    - apply Hfail. reflexivity.
    - exists true. apply extends_refl.
    - exists true.
      match goal with
      | |- context [k ?obj ?w1] => exact (k_extends obj w1)
      end. }
  unfold bind at 1. unfold f_get_token.
  destruct (w_files w !! cfg_access_token_file) as [token|].
  - exact (Hbody (Some (rstrip_newline (universal_newlines token)))).
  - exact (Hbody None).
Qed.

End FirstRequest.

Lemma fetch_first_request (py_repr : json -> string) (body_text : json -> result string)
      (id : json) (n : nat) (w : World) (s : string) :
  pct_d_json id = Ok s ->
  exists b, extends (EvRequest GET (data_url s) b :: w_log w)
                    (w_log (world_of (f_get_vehicle_data_loop py_repr body_text id (S n) w))).
Proof.
  apply (first_request py_repr id GET data_url
           (fun obj => run ok <- lift (has_response obj);
                       if ok then
                         run text <- lift (body_text obj);
                         f_save_data cfg_vehicle_data_file text
                       else ret tt)
           (f_get_vehicle_data_loop py_repr body_text id)).
  - reflexivity.
  - intros obj w0. unfold bind, lift, f_save_data, ret.
    destruct (has_response obj) as [[|]|e];
      [destruct (body_text obj) as [text|e];
       [destruct (decide _); [|destruct (has_surrogate text)]|]|..];
      grows.
  - intros k w0. destruct (fetch_events py_repr body_text id k w0) as (new & Hnew & _).
    exists new. exact Hnew.
Qed.

Lemma wake_first_request (py_repr : json -> string) (id : json)
      (n : nat) (w : World) (s : string) :
  pct_d_json id = Ok s ->
  exists b, extends (EvRequest POST (wake_url s) b :: w_log w)
                    (w_log (world_of (f_wake_vehicle_loop py_repr id (S n) w))).
Proof.
  apply (first_request py_repr id POST wake_url (fun obj => lift (wake_report obj))
           (f_wake_vehicle_loop py_repr id)).
  - reflexivity.
  - intros obj w0. unfold lift. destruct (wake_report obj); grows.
  - intros k w0. destruct (wake_events py_repr id k w0) as (new & Hnew & _).
    exists new. exact Hnew.
Qed.

(** X29: the id the listing hands on always formats.  A vehicle the listing
    returns has an id that [%d] accepts, so neither the fetch nor the wake-up
    called with it raises while building its address: each sends its first
    request, to the address made of the decimal text of this id. *)
Theorem listed_id_is_requested (py_repr : json -> string)
        (body_text : json -> result string) (retries : nat)
        (w w1 : World) (x : vehicle) :
  f_get_vehicle_id_loop py_repr retries w = Done (Some x) w1 ->
  exists s,
    pct_d_json (v_id x) = Ok s /\
    (forall n w2, exists b,
        extends (EvRequest GET (data_url s) b :: w_log w2)
                (w_log (world_of
                   (f_get_vehicle_data_loop py_repr body_text (v_id x) (S n) w2)))) /\
    (forall n w2, exists b,
        extends (EvRequest POST (wake_url s) b :: w_log w2)
                (w_log (world_of (f_wake_vehicle_loop py_repr (v_id x) (S n) w2)))).
Proof.
  intros Hrun.
  apply loop_found in Hrun as (parsed & _ & Hok).
  apply accepted_id_formats in Hok as [s Hs].
  exists s. split; [exact Hs|]. split.
  - intros n w2. apply fetch_first_request. exact Hs.
  - intros n w2. apply wake_first_request. exact Hs.
Qed.

Lemma listed_id_is_requested_witness :
  exists s,
    pct_d_json (JInt 42) = Ok s /\
    (forall n w2, exists b,
        extends (EvRequest GET (data_url s) b :: w_log w2)
                (w_log (world_of
                   (f_get_vehicle_data_loop no_repr fixed_text (JInt 42) (S n) w2)))) /\
    (forall n w2, exists b,
        extends (EvRequest POST (wake_url s) b :: w_log w2)
                (w_log (world_of (f_wake_vehicle_loop no_repr (JInt 42) (S n) w2)))).
Proof.
  apply (listed_id_is_requested no_repr fixed_text cfg_api_retries
           (world_with [NetBody (Some one_vehicle_reply)])
           (mkWorld (w_files (world_with [])) ∅ []
                    [EvRequest GET vehicles_url true])
           (mkVehicle (JInt 42) (JStr "online"))).
  vm_compute. reflexivity.
Defined.

